(** * CUCM CDR failed-call reporter: classifier, decoder, store and rollups

    A shallow embedding of [cucm_cdr_reporter.py].  Python integers are [Z],
    strings are [string] (one character per byte), dictionaries and sets are
    stdpp's [gmap] and [gset], SQLite tables are lists of rows (in rowid
    order) or maps keyed by their UNIQUE column.  A call that can raise
    returns a [result]; one that changes the store before it raises
    returns the store it leaves beside it. *)

From Stdlib Require Import ZArith List String Ascii Bool Lia Floats.
From Stdlib Require Import Numbers.DecimalString Sorting.Sorted.
From Stdlib Require Import QArith.QArith_base.
From Stdlib Require OrderedTypeEx DecimalZ DecimalPos.
From stdpp Require Import gmap strings list sorting.

Local Open Scope string_scope.
Local Open Scope list_scope.
Local Open Scope Z_scope.

(** ** Python primitives *)

(** [str(n)] for an integer. *)
Definition py_str (n : Z) : string := NilZero.string_of_int (Z.to_int n).

(** [sys.int_info.default_max_str_digits]: the number of decimal digits up
    to which [int()] reads a text and [str()] writes an integer; both raise
    [ValueError] beyond it. *)
Definition max_str_digits : Z := 4300.

(** [str(n)] does not raise. *)
Definition str_fits (n : Z) : bool := Z.abs n <? 10 ^ max_str_digits.

(** ** Q.931 cause codes *)

Definition CAUSE_CODES : gmap Z string :=
  list_to_map
    [ (0, "No error");
      (1, "Unallocated/unassigned number");
      (2, "No route to specified transit network");
      (3, "No route to destination");
      (4, "Send special information tone");
      (5, "Misdialed trunk prefix");
      (6, "Channel unacceptable");
      (7, "Call awarded and being delivered");
      (16, "Normal call clearing");
      (17, "User busy");
      (18, "No user responding");
      (19, "No answer from user (user alerted)");
      (20, "Subscriber absent");
      (21, "Call rejected");
      (22, "Number changed");
      (23, "Redirection to new destination");
      (25, "Exchange routing error");
      (26, "Non-selected user clearing");
      (27, "Destination out of order");
      (28, "Invalid number format");
      (29, "Facility rejected");
      (30, "Response to STATUS ENQUIRY");
      (31, "Normal, unspecified");
      (34, "No circuit/channel available");
      (38, "Network out of order");
      (39, "Permanent frame mode connection out of service");
      (40, "Permanent frame mode connection operational");
      (41, "Temporary failure");
      (42, "Switching equipment congestion");
      (43, "Access information discarded");
      (44, "Requested circuit/channel not available");
      (46, "Precedence call blocked");
      (47, "Resource unavailable, unspecified");
      (49, "Quality of service not available");
      (50, "Requested facility not subscribed");
      (52, "Outgoing calls barred");
      (54, "Incoming calls barred");
      (57, "Bearer capability not authorized");
      (58, "Bearer capability not presently available");
      (62, "Inconsistency in designated outgoing access");
      (63, "Service or option not available");
      (65, "Bearer capability not implemented");
      (66, "Channel type not implemented");
      (69, "Requested facility not implemented");
      (70, "Only restricted digital bearer capability available");
      (79, "Service or option not implemented");
      (81, "Invalid call reference value");
      (82, "Identified channel does not exist");
      (83, "Suspended call exists but call identity does not");
      (84, "Call identity in use");
      (85, "No call suspended");
      (86, "Call having requested identity has been cleared");
      (87, "User not member of CUG");
      (88, "Incompatible destination");
      (90, "Non-existent CUG");
      (91, "Invalid transit network selection");
      (95, "Invalid message, unspecified");
      (96, "Mandatory IE missing");
      (97, "Message type non-existent");
      (98, "Message not compatible with call state");
      (99, "IE non-existent or not implemented");
      (100, "Invalid IE contents");
      (101, "Message not compatible with call state");
      (102, "Recovery on timer expiry");
      (103, "Parameter non-existent or not implemented");
      (110, "Message with unrecognized parameter discarded");
      (111, "Protocol error, unspecified");
      (127, "Interworking, unspecified");
      (393216, "Normal clearing (Cisco)");
      (458752, "Call rejected (Cisco)") ].

Definition SUCCESS_CODES : gset Z := {[ 0; 16; 393216 ]}.

(** ** Data model *)

(** A naive [datetime]: microseconds counted from 0001-01-01 00:00:00 on the
    local calendar.  Python orders and subtracts naive datetimes on exactly
    this count, and the ISO text SQLite stores for one sorts the same way. *)
Abbreviation datetime := Z (only parsing).

Record CDRRecord := mkCDRRecord {
  cdr_record_type : Z;
  global_call_id : string;
  date_time_origination : option datetime;
  date_time_connect : option datetime;
  date_time_disconnect : option datetime;
  calling_party_number : string;
  calling_party_unicode_name : string;
  original_called_party_number : string;
  final_called_party_number : string;
  last_redirect_dn : string;
  orig_cause_value : Z;
  dest_cause_value : Z;
  duration : Z;
  orig_device_name : string;
  dest_device_name : string;
  orig_ip_addr : string;
  dest_ip_addr : string;
  calling_party_number_partition : string;
  original_called_party_number_partition : string;
  final_called_party_number_partition : string;
  hunt_pilot_dn : string;
  hunt_pilot_partition : string;
  call_termination_on_behalf_of : Z;
  orig_dtmf_method : Z;
  dest_dtmf_method : Z;
  mobile_calling_party_number : string;
  mobile_called_party_number : string;
  calling_party_device_type : string;
  final_called_party_device_type : string;
  orig_video_cap_bandwidth : Z;
  dest_video_cap_bandwidth : Z
}.

(** ** Failure classifier *)

Definition is_failed (r : CDRRecord) : bool :=
  if duration r =? 0 then
    if bool_decide (dest_cause_value r ∉ SUCCESS_CODES) then true
    else if bool_decide (orig_cause_value r ∉ SUCCESS_CODES) then true
    else false
  else false.

(** The cause both [failure_reason] and [primary_cause_code] select. *)
Definition primary_cause_code (r : CDRRecord) : Z :=
  if negb (dest_cause_value r =? 0) then dest_cause_value r
  else orig_cause_value r.

Definition failure_reason (r : CDRRecord) : string :=
  let cause :=
    if negb (dest_cause_value r =? 0) then dest_cause_value r
    else orig_cause_value r in
  default ("Unknown cause code: " +:+ py_str cause) (CAUSE_CODES !! cause).

(** ** Exceptions

    A call either returns or raises; [Raise] carries the exception class, so
    that an [except] clause can be selective. *)

Inductive exn :=
  ValueError | TypeError | OverflowError | OSError | ZeroDivisionError
  | csv_Error.

Inductive result (A : Type) : Type :=
  | Ok (a : A)
  | Raise (e : exn).
Arguments Ok {A} a.
Arguments Raise {A} e.

#[export] Instance result_ret : MRet result := fun A a => Ok a.
#[export] Instance result_bind : MBind result := fun A B f m =>
  match m with
  | Ok a => f a
  | Raise e => Raise e
  end.

(** ** Strings and integers as the decoder reads them *)

(** Truth value of a [str]: non-empty. *)
Definition truthy (s : string) : bool :=
  match s with
  | EmptyString => false
  | String _ _ => true
  end.

(** The characters [str.strip()] removes, among the 7-bit ones: TAB..CR,
    FS..US and the blank. *)
Definition is_space (c : ascii) : bool :=
  let n := nat_of_ascii c in
  ((9 <=? n) && (n <=? 13) || (28 <=? n) && (n <=? 31) || (n =? 32))%nat.

Fixpoint lstrip (s : string) : string :=
  match s with
  | EmptyString => EmptyString
  | String c s' => if is_space c then lstrip s' else s
  end.

Fixpoint rstrip (s : string) : string :=
  match s with
  | EmptyString => EmptyString
  | String c s' =>
      match rstrip s' with
      | EmptyString => if is_space c then EmptyString else String c EmptyString
      | t => String c t
      end
  end.

Definition strip (s : string) : string := rstrip (lstrip s).

Definition digit_of (c : ascii) : option Z :=
  let n := Z.of_nat (nat_of_ascii c) in
  if (48 <=? n) && (n <=? 57) then Some (n - 48) else None.

(** Decimal digits, where one underscore may stand between two digits.
    [after_digit] tells whether the previous character was a digit. *)
Fixpoint parse_digits (s : string) (acc : Z) (after_digit : bool) : option Z :=
  match s with
  | EmptyString => if after_digit then Some acc else None
  | String c s' =>
      match digit_of c with
      | Some d => parse_digits s' (10 * acc + d) true
      | None =>
          if Ascii.eqb c "_" && after_digit then parse_digits s' acc false
          else None
      end
  end.

(** The characters [int()] skips before and after a number: TAB..CR and the
    blank.  FS..US, which [str.strip()] removes, are no white space to it. *)
Definition is_int_space (c : ascii) : bool :=
  let n := nat_of_ascii c in
  ((9 <=? n) && (n <=? 13) || (n =? 32))%nat.

Fixpoint skip_leading (s : string) : string :=
  match s with
  | EmptyString => EmptyString
  | String c s' => if is_int_space c then skip_leading s' else s
  end.

Fixpoint skip_trailing (s : string) : string :=
  match s with
  | EmptyString => EmptyString
  | String c s' =>
      match skip_trailing s' with
      | EmptyString => if is_int_space c then EmptyString else String c EmptyString
      | t => String c t
      end
  end.

(** The number of decimal digits in a text. *)
Fixpoint count_digits (s : string) : Z :=
  match s with
  | EmptyString => 0
  | String c s' =>
      match digit_of c with
      | Some _ => 1 + count_digits s'
      | None => count_digits s'
      end
  end.

(** [int(s)] in base ten on a [str]: surrounding white space, an optional
    sign, then at most [max_str_digits] digits.  [None] stands for the
    [ValueError] it raises on anything else, the only exception [int] has
    for a string.  Strings are byte strings here: the digits and blanks
    beyond the 7-bit ones, which Python also accepts, are not recognised. *)
Definition py_int (s : string) : option Z :=
  match skip_trailing (skip_leading s) with
  | EmptyString => None
  | String c t =>
      let signed := Ascii.eqb c "-" || Ascii.eqb c "+" in
      if max_str_digits <? count_digits (if signed then t else String c t) then None
      else if Ascii.eqb c "-" then Z.opp <$> parse_digits t 0 false
      else if Ascii.eqb c "+" then parse_digits t 0 false
      else parse_digits (String c t) 0 false
  end.

(** ** The csv reader

    [csv.reader(f)] with the default dialect ([excel]: delimiter [,],
    quote character 34, doubled quotes, no escape character, not strict),
    as [_csv.c] has it: a state machine fed the characters of each line
    and, at the end of the line, an end-of-line mark. *)

Module Csv.

(** The states the default dialect can reach; those of the escape
    character are left out, the dialect has none. *)
Inductive ParserState :=
  | START_RECORD | START_FIELD | IN_FIELD | IN_QUOTED_FIELD
  | QUOTE_IN_QUOTED_FIELD | EAT_CRNL.

#[export] Instance ParserState_eq_dec : EqDecision ParserState.
Proof. solve_decision. Defined.

Record Reader := mkReader {
  state : ParserState;
  field : string;
  fields : list string
}.

Definition quotechar : ascii := "034"%char.
Definition delimiter : ascii := ","%char.

(** [csv.field_size_limit()]. *)
Definition field_limit : Z := 131072.

Definition is_newline (c : ascii) : bool :=
  Ascii.eqb c "010"%char || Ascii.eqb c "013"%char.

Definition parse_reset : Reader :=
  {| state := START_RECORD; field := ""; fields := [] |}.

Definition set_state (r : Reader) (st : ParserState) : Reader :=
  {| state := st; field := field r; fields := fields r |}.

Definition parse_save_field (r : Reader) : Reader :=
  {| state := state r; field := ""; fields := fields r ++ [field r] |}.

Definition parse_add_char (r : Reader) (c : ascii) : result Reader :=
  if field_limit <=? Z.of_nat (String.length (field r)) then Raise csv_Error
  else Ok {| state := state r; field := field r +:+ String c "";
             fields := fields r |}.

(** The case [START_FIELD] of [parse_process_char], which [START_RECORD]
    falls through to. *)
Definition start_field (r : Reader) (c : option ascii) : result Reader :=
  match c with
  | None => Ok (set_state (parse_save_field r) START_RECORD)
  | Some ch =>
      if is_newline ch then Ok (set_state (parse_save_field r) EAT_CRNL)
      else if Ascii.eqb ch quotechar then Ok (set_state r IN_QUOTED_FIELD)
      else if Ascii.eqb ch delimiter then Ok (parse_save_field r)
      else r ← parse_add_char r ch; Ok (set_state r IN_FIELD)
  end.

(** [parse_process_char]; [None] is the end-of-line mark [EOL]. *)
Definition parse_process_char (r : Reader) (c : option ascii) : result Reader :=
  match state r with
  | START_RECORD =>
      match c with
      | None => Ok r
      | Some ch =>
          if is_newline ch then Ok (set_state r EAT_CRNL)
          else start_field (set_state r START_FIELD) c
      end
  | START_FIELD => start_field r c
  | IN_FIELD =>
      match c with
      | None => Ok (set_state (parse_save_field r) START_RECORD)
      | Some ch =>
          if is_newline ch then Ok (set_state (parse_save_field r) EAT_CRNL)
          else if Ascii.eqb ch delimiter
          then Ok (set_state (parse_save_field r) START_FIELD)
          else parse_add_char r ch
      end
  | IN_QUOTED_FIELD =>
      match c with
      | None => Ok r
      | Some ch =>
          if Ascii.eqb ch quotechar then Ok (set_state r QUOTE_IN_QUOTED_FIELD)
          else parse_add_char r ch
      end
  | QUOTE_IN_QUOTED_FIELD =>
      match c with
      | None => Ok (set_state (parse_save_field r) START_RECORD)
      | Some ch =>
          if Ascii.eqb ch quotechar
          then r ← parse_add_char r ch; Ok (set_state r IN_QUOTED_FIELD)
          else if Ascii.eqb ch delimiter
          then Ok (set_state (parse_save_field r) START_FIELD)
          else if is_newline ch then Ok (set_state (parse_save_field r) EAT_CRNL)
          else r ← parse_add_char r ch; Ok (set_state r IN_FIELD)
      end
  | EAT_CRNL =>
      match c with
      | None => Ok (set_state r START_RECORD)
      | Some ch => if is_newline ch then Ok r else Raise csv_Error
      end
  end.

(** One line through the machine: its characters, then [EOL]. *)
Fixpoint parse_line (r : Reader) (line : string) : result Reader :=
  match line with
  | EmptyString => parse_process_char r None
  | String c rest => r ← parse_process_char r (Some c); parse_line r rest
  end.

(** [for row in reader] on the lines that are left, with the machine in
    state [r]: the rows yielded, and how the loop ends.  [Reader_iternext]
    takes lines until the machine is back at [START_RECORD] and yields
    the fields; the next call starts from [parse_reset].  When the lines
    run out inside a record, what was read of it is yielded as a last
    row.  An error ends the loop. *)
Fixpoint iterate (r : Reader) (lines : list string)
    : list (list string) * option exn :=
  match lines with
  | [] =>
      if negb (String.eqb (field r) "") || bool_decide (state r = IN_QUOTED_FIELD)
      then ([fields (parse_save_field r)], None)
      else ([], None)
  | line :: rest =>
      match parse_line r line with
      | Raise e => ([], Some e)
      | Ok r =>
          if bool_decide (state r = START_RECORD)
          then let '(rows, e) := iterate parse_reset rest in (fields r :: rows, e)
          else iterate r rest
      end
  end.

(** [csv.reader(lines)], run to its end. *)
Definition reader (lines : list string) : list (list string) * option exn :=
  iterate parse_reset lines.

(** The machine after the lines, when no error came: as a call of
    [Reader_iternext] left it inside a record, or reset for the next. *)
Fixpoint feed (r : Reader) (lines : list string) : result Reader :=
  match lines with
  | [] => Ok r
  | line :: rest =>
      r ← parse_line r line;
      feed (if bool_decide (state r = START_RECORD) then parse_reset else r) rest
  end.

(** The row a line makes on its own: the reader, at the start of a record
    when it takes the line, is through with the record at its end. *)
Definition own_row (line : string) : option (list string) :=
  match parse_line parse_reset line with
  | Ok r => if bool_decide (state r = START_RECORD) then Some (fields r) else None
  | Raise _ => None
  end.

End Csv.

(** ** CDR parsing *)

Definition CDR_FIELDS : list (nat * string) :=
  [ (0, "cdrRecordType");
    (1, "globalCallID_callManagerId");
    (2, "globalCallID_callId");
    (3, "origLegCallIdentifier");
    (4, "dateTimeOrigination");
    (5, "origNodeId");
    (6, "origSpan");
    (7, "origIpAddr");
    (8, "callingPartyNumber");
    (9, "callingPartyUnicodeLoginUserID");
    (10, "origCause_location");
    (11, "origCause_value");
    (12, "origPrecedenceLevel");
    (13, "origMediaTransportAddress_IP");
    (14, "origMediaTransportAddress_Port");
    (15, "origMediaCap_payloadCapability");
    (16, "origMediaCap_maxFramesPerPacket");
    (17, "origMediaCap_g723BitRate");
    (18, "origVideoCap_Codec");
    (19, "origVideoCap_Bandwidth");
    (20, "origVideoCap_Resolution");
    (21, "origVideoTransportAddress_IP");
    (22, "origVideoTransportAddress_Port");
    (23, "origRSVPAudioStat");
    (24, "origRSVPVideoStat");
    (25, "destLegCallIdentifier");
    (26, "destNodeId");
    (27, "destSpan");
    (28, "destIpAddr");
    (29, "originalCalledPartyNumber");
    (30, "finalCalledPartyNumber");
    (31, "finalCalledPartyUnicodeLoginUserID");
    (32, "destCause_location");
    (33, "destCause_value");
    (34, "destPrecedenceLevel");
    (35, "destMediaTransportAddress_IP");
    (36, "destMediaTransportAddress_Port");
    (37, "destMediaCap_payloadCapability");
    (38, "destMediaCap_maxFramesPerPacket");
    (39, "destMediaCap_g723BitRate");
    (40, "destVideoCap_Codec");
    (41, "destVideoCap_Bandwidth");
    (42, "destVideoCap_Resolution");
    (43, "destVideoTransportAddress_IP");
    (44, "destVideoTransportAddress_Port");
    (45, "destRSVPAudioStat");
    (46, "destRSVPVideoStat");
    (47, "dateTimeConnect");
    (48, "dateTimeDisconnect");
    (49, "lastRedirectDn");
    (50, "pkid");
    (51, "originalCalledPartyNumberPartition");
    (52, "callingPartyNumberPartition");
    (53, "finalCalledPartyNumberPartition");
    (54, "lastRedirectDnPartition");
    (55, "duration");
    (56, "origDeviceName");
    (57, "destDeviceName");
    (101, "huntPilotDN");
    (102, "huntPilotPartition") ]%nat.

Definition _safe_int (value : string) (default : Z) : Z :=
  if truthy value then
    match py_int value with
    | Some n => n
    | None => default
    end
  else default.

(** The scan of [CDR_FIELDS.items()]: the first entry bound to [field_name]
    whose ordinal the row reaches decides. *)
Fixpoint scan_fields (fields : list (nat * string)) (row : list string)
    (field_name : string) : string :=
  match fields with
  | [] => ""
  | (idx, name) :: rest =>
      if String.eqb name field_name && (idx <? length row)%nat then
        match row !! idx with
        | Some v => if truthy v then strip v else ""
        | None => ""
        end
      else scan_fields rest row field_name
  end.

Definition _get_field (row : list string) (field_name : string) : string :=
  scan_fields CDR_FIELDS row field_name.

Definition _get_field_int (row : list string) (field_name : string) : Z :=
  _safe_int (_get_field row field_name) 0.

Section Decoder.

(** [datetime.fromtimestamp] on an integer: the local wall-clock time of an
    epoch second.  It depends on the host's time zone rules and raises
    where the host cannot represent the instant, so the decoder takes it as
    given. *)
Variable fromtimestamp : Z -> result datetime.

Definition _parse_timestamp (epoch_str : string) : result (option datetime) :=
  let attempt : result (option datetime) :=
    match (if truthy epoch_str then py_int epoch_str else Some 0) with
    | None => Raise ValueError
    | Some epoch =>
        if 0 <? epoch then d ← fromtimestamp epoch; Ok (Some d)
        else Ok None
    end in
  match attempt with
  | Raise ValueError | Raise TypeError => Ok None
  | other => other
  end.

(** The body of the row-level [try]: the [CDRRecord(...)] call. *)
Definition decode_row (row : list string) (record_type : Z) : result CDRRecord :=
  let global_call_id :=
    _get_field row "globalCallID_callManagerId" +:+ "-" +:+
    _get_field row "globalCallID_callId" in
  date_time_origination ← _parse_timestamp (_get_field row "dateTimeOrigination");
  date_time_connect ← _parse_timestamp (_get_field row "dateTimeConnect");
  date_time_disconnect ← _parse_timestamp (_get_field row "dateTimeDisconnect");
  Ok {| cdr_record_type := record_type;
        global_call_id := global_call_id;
        date_time_origination := date_time_origination;
        date_time_connect := date_time_connect;
        date_time_disconnect := date_time_disconnect;
        calling_party_number := _get_field row "callingPartyNumber";
        calling_party_unicode_name := "";
        original_called_party_number := _get_field row "originalCalledPartyNumber";
        final_called_party_number := _get_field row "finalCalledPartyNumber";
        last_redirect_dn := _get_field row "lastRedirectDn";
        orig_cause_value := _get_field_int row "origCause_value";
        dest_cause_value := _get_field_int row "destCause_value";
        duration := _get_field_int row "duration";
        orig_device_name := _get_field row "origDeviceName";
        dest_device_name := _get_field row "destDeviceName";
        orig_ip_addr := _get_field row "origIpAddr";
        dest_ip_addr := _get_field row "destIpAddr";
        calling_party_number_partition := _get_field row "callingPartyNumberPartition";
        original_called_party_number_partition :=
          _get_field row "originalCalledPartyNumberPartition";
        final_called_party_number_partition :=
          _get_field row "finalCalledPartyNumberPartition";
        hunt_pilot_dn := _get_field row "huntPilotDN";
        hunt_pilot_partition := _get_field row "huntPilotPartition";
        call_termination_on_behalf_of := 0;
        orig_dtmf_method := 0;
        dest_dtmf_method := 0;
        mobile_calling_party_number := "";
        mobile_called_party_number := "";
        calling_party_device_type := "";
        final_called_party_device_type := "";
        orig_video_cap_bandwidth := 0;
        dest_video_cap_bandwidth := 0 |}.

(** What one row of the reader contributes: the record it appends, if any.
    An exception of the [CDRRecord(...)] call is caught and the row left. *)
Definition parse_row (row : list string) : option CDRRecord :=
  if bool_decide (row = []) || (length row <? 50)%nat then None
  else
    let record_type := _safe_int (match row with c :: _ => c | [] => "0" end) 0 in
    if negb (record_type =? 1) then None
    else
      match decode_row row record_type with
      | Ok record =>
          if bool_decide (is_Some (date_time_origination record))
          then Some record else None
      | Raise _ => None
      end.

(** One turn of [for row in reader], on [(records, total_rows)]. *)
Definition parse_step (st : list CDRRecord * Z) (row : list string)
    : list CDRRecord * Z :=
  let '(records, total_rows) := st in
  let total_rows := total_rows + 1 in
  match parse_row row with
  | Some record => (records ++ [record], total_rows)
  | None => (records, total_rows)
  end.

(** [parse_file] on the rows the csv reader yields for the file. *)
Definition parse_file (rows : list (list string)) : list CDRRecord * Z :=
  fold_left parse_step rows ([], 0).

(** [parse_file] on the lines the opened file yields.  The loop runs over
    the rows the reader yields; an error of the reader ends it and is
    caught by the outer [except], which returns what was found so far. *)
Definition parse_lines (lines : list string) : list CDRRecord * Z :=
  parse_file (Csv.reader lines).1.

End Decoder.

(** ** The store

    The two tables as the statements of [CDRDatabase] see them.  A column
    holds the Python value that was bound to it, [None] being SQL NULL;
    the 64-bit width of an INTEGER column is not modelled.  The surrogate
    [id]s and [created_at], which no statement reads back, are left out. *)

(** A row of [failed_calls]. *)
Record FailedCall := mkFailedCall {
  fc_global_call_id : string;
  fc_date_time_origination : option datetime;
  fc_calling_party_number : string;
  fc_original_called_party_number : string;
  fc_final_called_party_number : string;
  fc_orig_cause_value : Z;
  fc_dest_cause_value : Z;
  fc_failure_reason : string;
  fc_duration : Z;
  fc_orig_device_name : string;
  fc_dest_device_name : string;
  fc_orig_ip_addr : string;
  fc_dest_ip_addr : string;
  fc_file_hash : string
}.

(** A row of [processed_files], without its [filename]: the column is
    UNIQUE, so the table is a map from it. *)
Record ProcessedFile := mkProcessedFile {
  pf_file_hash : string;
  pf_records_processed : Z;
  pf_failed_calls_found : Z;
  pf_processed_at : datetime
}.

Record CDRDatabase := mkCDRDatabase {
  failed_calls : list FailedCall;
  processed_files : gmap string ProcessedFile
}.

Definition empty_database : CDRDatabase := mkCDRDatabase [] ∅.

#[export] Instance FailedCall_eq_dec : EqDecision FailedCall.
Proof. solve_decision. Defined.

#[export] Instance ProcessedFile_eq_dec : EqDecision ProcessedFile.
Proof. solve_decision. Defined.

(** [SELECT id FROM processed_files WHERE filename = ? AND file_hash = ?]
    finds a row. *)
Definition is_file_processed (db : CDRDatabase) (filename file_hash : string) : bool :=
  match processed_files db !! filename with
  | Some pf => bool_decide (pf_file_hash pf = file_hash)
  | None => false
  end.

(** [INSERT OR REPLACE INTO processed_files]: the row of the same
    [filename], if any, gives way to the new one. *)
Definition mark_file_processed (db : CDRDatabase) (now : datetime)
    (filename file_hash : string) (records_processed failed_calls_found : Z)
    : CDRDatabase :=
  {| failed_calls := failed_calls db;
     processed_files :=
       <[filename := {| pf_file_hash := file_hash;
                        pf_records_processed := records_processed;
                        pf_failed_calls_found := failed_calls_found;
                        pf_processed_at := now |}]> (processed_files db) |}.

(** The values [insert_failed_call] binds. *)
Definition failed_call_of (record : CDRRecord) (file_hash : string) : FailedCall :=
  {| fc_global_call_id := global_call_id record;
     fc_date_time_origination := date_time_origination record;
     fc_calling_party_number := calling_party_number record;
     fc_original_called_party_number := original_called_party_number record;
     fc_final_called_party_number := final_called_party_number record;
     fc_orig_cause_value := orig_cause_value record;
     fc_dest_cause_value := dest_cause_value record;
     fc_failure_reason := failure_reason record;
     fc_duration := duration record;
     fc_orig_device_name := orig_device_name record;
     fc_dest_device_name := dest_device_name record;
     fc_orig_ip_addr := orig_ip_addr record;
     fc_dest_ip_addr := dest_ip_addr record;
     fc_file_hash := file_hash |}.

(** [UNIQUE(global_call_id, date_time_origination)]: two rows clash when
    both columns are equal; a NULL is equal to nothing, itself included. *)
Definition unique_clash (new old : FailedCall) : bool :=
  String.eqb (fc_global_call_id new) (fc_global_call_id old) &&
  match fc_date_time_origination new, fc_date_time_origination old with
  | Some t, Some u => t =? u
  | _, _ => false
  end.

(** What SQLite stores as an INTEGER: 64 bits, signed. *)
Definition int64 (n : Z) : bool := (- 2 ^ 63 <=? n) && (n <? 2 ^ 63).

(** The integers [insert_failed_call] binds all fit an INTEGER. *)
Definition binds_int64 (record : CDRRecord) : bool :=
  int64 (orig_cause_value record) && int64 (dest_cause_value record) &&
  int64 (duration record).

(** The parameters of the INSERT.  Building them evaluates
    [record.failure_reason], whose f-string raises [ValueError] when [str]
    cannot print the cause code; binding them raises [OverflowError] for
    an [int] outside 64 bits. *)
Definition bind_failed_call (record : CDRRecord) (file_hash : string)
    : result FailedCall :=
  if negb (str_fits (primary_cause_code record)) then Raise ValueError
  else if negb (binds_int64 record) then Raise OverflowError
  else Ok (failed_call_of record file_hash).

(** [INSERT OR IGNORE INTO failed_calls]: a row that clashes with a stored
    one is dropped, any other is appended.  The [except] clause names
    [sqlite3.IntegrityError] only, which OR IGNORE never lets arise: the
    exceptions of the parameters leave the call, and the store as it
    was. *)
Definition insert_failed_call (db : CDRDatabase) (record : CDRRecord)
    (file_hash : string) : result CDRDatabase :=
  row ← bind_failed_call record file_hash;
  Ok (if existsb (unique_clash row) (failed_calls db) then db
      else {| failed_calls := failed_calls db ++ [row];
              processed_files := processed_files db |}).

(** A [timedelta], in microseconds. *)
Definition timedelta_hours (hours : Z) : Z := hours * 3600 * 1000000.
Definition timedelta_days (days : Z) : Z := days * 86400 * 1000000.

(** [date_time_origination >= ?]; a comparison with NULL selects nothing. *)
Definition since (cutoff : datetime) (row : FailedCall) : bool :=
  match fc_date_time_origination row with
  | Some t => cutoff <=? t
  | None => false
  end.

(** [date_time_origination < ?] *)
Definition older_than (cutoff : datetime) (row : FailedCall) : bool :=
  match fc_date_time_origination row with
  | Some t => t <? cutoff
  | None => false
  end.

(** A row of the [by_cause] rollup. *)
Record CauseCount := mkCauseCount {
  cc_dest_cause_value : Z;
  cc_failure_reason : string;
  cc_count : Z
}.

(** The distinct values of [dest_cause_value], in increasing order. *)
Fixpoint insert_code (c : Z) (codes : list Z) : list Z :=
  match codes with
  | [] => [c]
  | d :: rest =>
      if c <? d then c :: codes
      else if c =? d then codes
      else d :: insert_code c rest
  end.

Definition cause_codes_of (rows : list FailedCall) : list Z :=
  foldr insert_code [] (fc_dest_cause_value <$> rows).

Definition cause_group (rows : list FailedCall) (c : Z) : list FailedCall :=
  filter (fun row => fc_dest_cause_value row = c) rows.

(** One group of [GROUP BY dest_cause_value].  [failure_reason] is a bare
    column of the aggregate query: SQL leaves open which row of the group
    it comes from; SQLite 3.40 takes the one stored first, and so does
    this. *)
Definition cause_count_of (rows : list FailedCall) (c : Z) : CauseCount :=
  let group := cause_group rows c in
  {| cc_dest_cause_value := c;
     cc_failure_reason := default "" (fc_failure_reason <$> head group);
     cc_count := Z.of_nat (length group) |}.

(** [ORDER BY count DESC].  SQL leaves the order of equal counts open;
    SQLite 3.40 lists the groups of one count by increasing code, and so
    does this, on groups that come by increasing code. *)
Fixpoint insert_by_count (b : CauseCount) (sorted : list CauseCount) : list CauseCount :=
  match sorted with
  | [] => [b]
  | b' :: rest =>
      if cc_count b' <=? cc_count b then b :: sorted
      else b' :: insert_by_count b rest
  end.

Definition order_by_count_desc (l : list CauseCount) : list CauseCount :=
  foldr insert_by_count [] l.

(** The part of the statistics the cause table is drawn from; the hourly
    and top-ten rollups are not embedded. *)
Record Statistics := mkStatistics {
  total_failed_calls : Z;
  by_cause : list CauseCount;
  analysis_period_hours : Z;
  cutoff_time : datetime
}.

Definition get_failure_statistics (db : CDRDatabase) (now : datetime) (hours : Z)
    : Statistics :=
  let cutoff := now - timedelta_hours hours in
  let window := filter (fun row => since cutoff row = true) (failed_calls db) in
  {| total_failed_calls := Z.of_nat (length window);
     by_cause :=
       order_by_count_desc (cause_count_of window <$> cause_codes_of window);
     analysis_period_hours := hours;
     cutoff_time := cutoff |}.

(** [cleanup_old_records]: the store after the DELETE, and [cursor.rowcount]. *)
Definition cleanup_old_records (db : CDRDatabase) (now : datetime)
    (retention_days : Z) : CDRDatabase * Z :=
  let cutoff := now - timedelta_days retention_days in
  let deleted := filter (fun row => older_than cutoff row = true) (failed_calls db) in
  ({| failed_calls :=
        filter (fun row => older_than cutoff row <> true) (failed_calls db);
      processed_files := processed_files db |},
   Z.of_nat (length deleted)).

(** ** Ingestion *)

(** A downloaded file: its base name, the digest [get_file_hash] computes
    from its bytes, and the rows the csv reader yields for it. *)
Record CDRFile := mkCDRFile {
  file_name : string;
  file_hash : string;
  file_rows : list (list string)
}.

Section Ingestion.

Variable fromtimestamp : Z -> result datetime.

(** The inner loop of [fetch_and_process_cdr_files] over the records that
    are left, from [failed_count]: the store it leaves, and the count it
    reaches or the exception that ends it. *)
Fixpoint store_failed (file_hash : string) (records : list CDRRecord)
    (db : CDRDatabase) (failed_count : Z) : CDRDatabase * result Z :=
  match records with
  | [] => (db, Ok failed_count)
  | record :: rest =>
      if is_failed record then
        match insert_failed_call db record file_hash with
        | Ok db => store_failed file_hash rest db (failed_count + 1)
        | Raise e => (db, Raise e)
        end
      else store_failed file_hash rest db failed_count
  end.

(** One turn of [for file_path in downloaded_files], from
    [(db, total_records, total_failed)]: the store it leaves, and the
    totals it reaches or the exception that ends it.  An exception of the
    inner loop leaves the turn before [mark_file_processed]. *)
Definition process_file (now : datetime) (st : CDRDatabase * Z * Z) (f : CDRFile)
    : CDRDatabase * result (Z * Z) :=
  let '(db, total_records, total_failed) := st in
  if is_file_processed db (file_name f) (file_hash f)
  then (db, Ok (total_records, total_failed))
  else
    let '(records, row_count) := parse_file fromtimestamp (file_rows f) in
    let total_records := total_records + Z.of_nat (length records) in
    match store_failed (file_hash f) records db 0 with
    | (db, Ok failed_count) =>
        let total_failed := total_failed + failed_count in
        (mark_file_processed db now (file_name f) (file_hash f)
           (Z.of_nat (length records)) failed_count,
         Ok (total_records, total_failed))
    | (db, Raise e) => (db, Raise e)
    end.

(** The loop over the files that are left; each file comes with the
    reading of the clock at which its marker is written. *)
Fixpoint process_files (downloaded_files : list (datetime * CDRFile))
    (st : CDRDatabase * Z * Z) : CDRDatabase * result (Z * Z) :=
  match downloaded_files with
  | [] => (st.1.1, Ok (st.1.2, st.2))
  | (now, f) :: rest =>
      match process_file now st f with
      | (db, Ok (total_records, total_failed)) =>
          process_files rest (db, total_records, total_failed)
      | (db, Raise e) => (db, Raise e)
      end
  end.

(** [fetch_and_process_cdr_files]: the store it leaves, and the totals it
    returns or the exception it raises again after logging it. *)
Definition fetch_and_process_cdr_files (db : CDRDatabase)
    (downloaded_files : list (datetime * CDRFile)) : CDRDatabase * result (Z * Z) :=
  process_files downloaded_files (db, 0, 0).

End Ingestion.

(** ** The cause table of the PDF report *)

(** An [int] as the operand of a float operation. *)
Definition sf_of_int (n : Z) : spec_float :=
  match n with
  | Z0 => S754_zero false
  | Zpos p => S754_finite false p 0
  | Zneg p => S754_finite true p 0
  end.

(** The binary64 number nearest to the quotient of two integers. *)
Definition nearest_quotient (a b : Z) : float :=
  SF2Prim (SFdiv prec emax (sf_of_int a) (sf_of_int b)).

(** [a / b] on two [int]s.  The [OverflowError] of a quotient beyond the
    largest float is left out; a count divided by the total never comes
    near it. *)
Definition py_truediv (a b : Z) : result float :=
  if b =? 0 then Raise ZeroDivisionError
  else Ok (nearest_quotient a b).

(** The integer nearest to [n * 2^e], a tie going to the even one. *)
Definition round_half_even (n e : Z) : Z :=
  if 0 <=? e then n * 2 ^ e
  else
    let d := 2 ^ (- e) in
    let q := n / d in
    let r := n mod d in
    if (d <? 2 * r) || ((2 * r =? d) && Z.odd q) then q + 1 else q.

(** [f"{x:.1f}"]: the exact value of the float, correctly rounded to one
    decimal. *)
Definition format_1f (x : float) : string :=
  match Prim2SF x with
  | S754_nan => "nan"
  | S754_infinity s => if s then "-inf" else "inf"
  | S754_zero s => if s then "-0.0" else "0.0"
  | S754_finite s m e =>
      let tenths := round_half_even (Zpos m * 10) e in
      (if s then "-" else "") +:+ py_str (tenths / 10) +:+ "." +:+
      py_str (tenths mod 10)
  end.

(** [total or 1] on an [int]. *)
Definition or_one (total : Z) : Z := if total =? 0 then 1 else total.

Definition shorten_reason (reason : string) : string :=
  if (40 <? String.length reason)%nat
  then substring 0 40 reason +:+ "..." else reason.

Definition percentage_text (pct : float) : string := format_1f pct +:+ "%".

(** One turn of [for item in stats['by_cause'][:15]]. *)
Definition cause_table_row (total : Z) (item : CauseCount) : result (list string) :=
  q ← py_truediv (cc_count item) total;
  let pct := (q * 100)%float in
  Ok [ py_str (cc_dest_cause_value item);
       shorten_reason (cc_failure_reason item);
       py_str (cc_count item);
       percentage_text pct ].

Definition cause_table_header : list string :=
  [ "Cause Code"; "Reason"; "Count"; "Percentage" ].

(** [cause_data] of [generate_pdf_report]; [None] when the section is left
    out because [by_cause] is empty. *)
Definition cause_table (stats : Statistics) : result (option (list (list string))) :=
  match by_cause stats with
  | [] => Ok None
  | _ :: _ =>
      let total := or_one (total_failed_calls stats) in
      rows ← mapM (cause_table_row total) (take 15 (by_cause stats));
      Ok (Some (cause_table_header :: rows))
  end.

(** ** Sample data *)

(** A host whose local time is UTC, and which raises past year 9999. *)
Definition utc_fromtimestamp (epoch : Z) : result datetime :=
  if epoch <? 253402300800 then Ok ((62135596800 + epoch) * 1000000)
  else Raise ValueError.

(** A 128-field call-leg row, laid out as the test-data generator does. *)
Definition sample_row (call_id epoch orig_cause dest_cause dur : string)
    : list string :=
  [ "1"; "1"; call_id; "4242"; epoch; "1"; "0"; "10.1.1.100"; "1001"; "";
    ""; orig_cause ] ++ replicate 16 "" ++
  [ "10.1.2.100"; "91555123456"; "91555123456"; ""; ""; dest_cause ] ++
  replicate 13 "" ++ [ ""; epoch ] ++ replicate 6 "" ++
  [ dur; "SEPB4A8B95D6F01"; "SEPC4B2399F4A01" ] ++ replicate 70 "".

Definition sample_now : datetime := (62135596800 + 1700003600) * 1000000.

(** Three failed calls: two busy, one unanswered. *)
Definition busy_file : CDRFile :=
  {| file_name := "cdr_StandAloneCluster_01_202311142213_1";
     file_hash := "9e107d9d372bb6826bd81d3542a419d6";
     file_rows :=
       [ sample_row "100001" "1700000000" "0" "17" "0";
         sample_row "100002" "1700000100" "0" "19" "0";
         sample_row "100003" "1700000200" "0" "17" "0" ] |}.

Definition busy_store : CDRDatabase :=
  (process_file utc_fromtimestamp sample_now (empty_database, 0, 0) busy_file).1.

(** One failed call that the far end never cleared: terminating cause 0,
    originating cause 17. *)
Definition orig_only_file : CDRFile :=
  {| file_name := "cdr_StandAloneCluster_01_202311142214_2";
     file_hash := "e4d909c290d0fb1ca068ffaddf22cbd0";
     file_rows := [ sample_row "100004" "1700000300" "17" "0" "0" ] |}.

Definition orig_only_store : CDRDatabase :=
  (process_file utc_fromtimestamp sample_now (empty_database, 0, 0) orig_only_file).1.

(** A row as a line of the file: the fields, free of quotes, separators
    and line breaks, joined by commas, and the line break the opened file
    ends every line with. *)
Definition line_of (row : list string) : string :=
  String.concat "," row +:+ String "010"%char "".

(** A line of two fields whose second opens a quote and does not close
    it. *)
Definition open_quote_line : string :=
  "1," +:+ String Csv.quotechar ("x" +:+ String "010"%char "").

(** Three call legs, the second with an originating cause of 2^63. *)
Definition overflow_file : CDRFile :=
  {| file_name := "cdr_StandAloneCluster_01_202311142215_3";
     file_hash := "8f14e45fceea167a5a36dedd4bea2543";
     file_rows :=
       [ sample_row "100005" "1700000400" "0" "17" "0";
         sample_row "100006" "1700000500" "9223372036854775808" "17" "0";
         sample_row "100007" "1700000600" "0" "19" "0" ] |}.

(** Sixteen failed calls, each with a terminating cause of its own. *)
Definition sixteen_causes : list string :=
  [ "1"; "2"; "3"; "4"; "5"; "6"; "7"; "17"; "18"; "19"; "20"; "21"; "22"; "26";
    "27"; "28" ].

Definition crowded_file : CDRFile :=
  {| file_name := "cdr_StandAloneCluster_01_202311142216_4";
     file_hash := "c9f0f895fb98ab9159f51fd0297e236d";
     file_rows :=
       imap (fun i cause =>
               sample_row (py_str (200000 + Z.of_nat i)) "1700000000" "0" cause "0")
         sixteen_causes |}.

Definition crowded_store : CDRDatabase :=
  (process_file utc_fromtimestamp sample_now (empty_database, 0, 0) crowded_file).1.

(** A record with every field at the dataclass default. *)
Definition default_record : CDRRecord :=
  mkCDRRecord 0 "" None None None "" "" "" "" "" 0 0 0 "" "" "" "" "" "" ""
    "" "" 0 0 0 "" "" "" "" 0 0.

Definition with_causes (orig dest dur : Z) : CDRRecord :=
  mkCDRRecord 1 "1-100" None None None "" "" "" "" "" orig dest dur
    "" "" "" "" "" "" "" "" "" 0 0 0 "" "" "" "" 0 0.

(** ** The rest of the module

    What the sections above leave out of [cucm_cdr_reporter.py] and can be
    embedded: the code set [FAILED_CAUSE_CODES], [get_failed_calls], the
    three top-ten rollups of [get_failure_statistics] and the listing of
    the remote directory. *)

Definition FAILED_CAUSE_CODES : gset Z :=
  {[ 1; 2; 3; 17; 18; 19; 20; 21; 22; 27; 28; 29; 31; 34; 38; 41; 42; 43; 44;
     46; 47; 49; 50; 52; 54; 57; 58; 63; 65; 66; 69; 79; 88; 95; 96; 97; 98;
     99; 100; 101; 102; 111; 127 ]}.

(** [a <= b] on a nullable TIMESTAMP column, NULL sorting below any value. *)
Definition origination_le (a b : FailedCall) : bool :=
  match fc_date_time_origination a, fc_date_time_origination b with
  | Some t, Some u => t <=? u
  | None, _ => true
  | Some _, None => false
  end.

(** [ORDER BY date_time_origination DESC].  SQL leaves the order of rows
    of one time open; SQLite 3.40, which walks the index of the column
    backwards, lists the one stored last first, and so does this, on rows
    that come in stored order. *)
Fixpoint insert_latest_first (row : FailedCall) (sorted : list FailedCall)
    : list FailedCall :=
  match sorted with
  | [] => [row]
  | r :: rest =>
      if origination_le row r then r :: insert_latest_first row rest
      else row :: sorted
  end.

Definition get_failed_calls (db : CDRDatabase) (now : datetime) (hours : Z)
    : list FailedCall :=
  let cutoff := now - timedelta_hours hours in
  foldr insert_latest_first []
    (filter (fun row => since cutoff row = true) (failed_calls db)).

(** A row of a top-ten rollup: the grouping column and [COUNT( * )]. *)
Record KeyCount := mkKeyCount {
  kc_key : string;
  kc_count : Z
}.

(** The distinct values of a TEXT column, in increasing (byte) order. *)
Fixpoint insert_key (k : string) (keys : list string) : list string :=
  match keys with
  | [] => [k]
  | d :: rest =>
      if String.ltb k d then k :: keys
      else if String.eqb k d then keys
      else d :: insert_key k rest
  end.

Definition keys_of (col : FailedCall -> string) (rows : list FailedCall) : list string :=
  foldr insert_key [] (col <$> rows).

Definition key_count_of (col : FailedCall -> string) (rows : list FailedCall)
    (k : string) : KeyCount :=
  {| kc_key := k;
     kc_count := Z.of_nat (length (filter (fun row => col row = k) rows)) |}.

(** [ORDER BY count DESC], under a LIMIT.  SQL leaves the order of equal
    counts open; SQLite 3.40 then lists the groups of one count by
    decreasing key, and so does this, on groups that come by increasing
    key. *)
Fixpoint insert_key_count (b : KeyCount) (sorted : list KeyCount) : list KeyCount :=
  match sorted with
  | [] => [b]
  | b' :: rest =>
      if kc_count b' <? kc_count b then b :: sorted
      else b' :: insert_key_count b rest
  end.

(** [SELECT col, COUNT( * ) ... WHERE date_time_origination >= ? AND col != ''
    GROUP BY col ORDER BY count DESC LIMIT 10]. *)
Definition top_ten (col : FailedCall -> string) (db : CDRDatabase)
    (now : datetime) (hours : Z) : list KeyCount :=
  let cutoff := now - timedelta_hours hours in
  let rows :=
    filter (fun row => since cutoff row = true ∧ col row ≠ "") (failed_calls db) in
  take 10 (foldr insert_key_count [] (key_count_of col rows <$> keys_of col rows)).

Definition top_callers := top_ten fc_calling_party_number.
Definition top_destinations := top_ten fc_original_called_party_number.
Definition top_devices := top_ten fc_orig_device_name.

(** [device_data] of [generate_pdf_report]; [None] when there is no device. *)
Definition device_table (top_devices : list KeyCount) : option (list (list string)) :=
  match top_devices with
  | [] => None
  | _ :: _ =>
      Some ([ "Device Name"; "Failed Calls" ] ::
            ((fun item => [ kc_key item; py_str (kc_count item) ]) <$> take 10 top_devices))
  end.

(** An entry of [sftp.listdir_attr]. *)
Record SFTPAttributes := mkSFTPAttributes {
  filename : string;
  st_mtime : Z
}.

(** [sorted] on a list of [str]. *)
Fixpoint insert_sorted (s : string) (sorted : list string) : list string :=
  match sorted with
  | [] => [s]
  | t :: rest =>
      if String.leb s t then s :: sorted else t :: insert_sorted s rest
  end.

Definition sorted (l : list string) : list string := foldr insert_sorted [] l.

Section Fetcher.

Variable fromtimestamp : Z -> result datetime.

(** The test [list_cdr_files] puts a directory entry to. *)
Definition recent_cdr (cutoff_time : datetime) (file_attr : SFTPAttributes) : bool :=
  String.prefix "cdr_" (filename file_attr) &&
  match fromtimestamp (st_mtime file_attr) with
  | Ok mtime => cutoff_time <=? mtime
  | Raise _ => false
  end.

(** The loop of [list_cdr_files] on [cdr_files]; an exception inside it is
    caught outside it, so the loop ends there with the names found so far. *)
Fixpoint scan_listing (cutoff_time : datetime) (files : list SFTPAttributes)
    (cdr_files : list string) : list string :=
  match files with
  | [] => cdr_files
  | file_attr :: rest =>
      if String.prefix "cdr_" (filename file_attr) then
        match fromtimestamp (st_mtime file_attr) with
        | Ok mtime =>
            if cutoff_time <=? mtime
            then scan_listing cutoff_time rest (cdr_files ++ [filename file_attr])
            else scan_listing cutoff_time rest cdr_files
        | Raise _ => cdr_files
        end
      else scan_listing cutoff_time rest cdr_files
  end.

(** [list_cdr_files]; [listing] is what [listdir_attr] gives for the CDR
    path, or the exception it raises. *)
Definition list_cdr_files (listing : result (list SFTPAttributes))
    (now : datetime) (hours : Z) : list string :=
  let cutoff_time := now - timedelta_hours hours in
  sorted match listing with
         | Ok files => scan_listing cutoff_time files []
         | Raise _ => []
         end.

End Fetcher.

(** ** The test-data generator ([generate_test_data.py]) *)

Module TestData.

Definition DEVICE_NAMES : list string :=
  [ "SEPB4A8B95D6F01"; "SEPB4A8B95D6F02"; "SEPB4A8B95D6F03";
    "SEPC4B2399F4A01"; "SEPC4B2399F4A02"; "SEPC4B2399F4A03";
    "CSFUSER001"; "CSFUSER002"; "CSFUSER003";
    "JABBERUSER01"; "JABBERUSER02"; "JABBERUSER03" ].

Definition CALLING_NUMBERS : list string :=
  [ "1001"; "1002"; "1003"; "1004"; "1005";
    "2001"; "2002"; "2003"; "2004"; "2005" ].

Definition CALLED_NUMBERS : list string :=
  [ "91555123456"; "91555234567"; "91555345678";
    "918001234567"; "918009876543";
    "1100"; "1200"; "1300"; "1400"; "1500" ].

Definition IP_ADDRESSES : list string :=
  [ "10.1.1.100"; "10.1.1.101"; "10.1.1.102";
    "10.1.2.100"; "10.1.2.101"; "10.1.2.102" ].

(** Cause codes with their weights, in the order of the dictionary. *)
Definition FAILED_CAUSE_CODES : list (Z * Z) :=
  [ (1, 10); (3, 5); (17, 30); (18, 15); (19, 25);
    (21, 10); (27, 8); (28, 5); (31, 15); (34, 3) ].

Definition SUCCESS_CAUSE_CODES : list Z := [ 0; 16 ].

(** The loop of [weighted_choice]: the first choice at which the running
    sum of the weights reaches [r]. *)
Fixpoint weighted_scan (r : Q) (items : list (Z * Z)) (cumulative : Z) : option Z :=
  match items with
  | [] => None
  | (choice, weight) :: rest =>
      let cumulative := cumulative + weight in
      if Qle_bool r (inject_Z cumulative) then Some choice
      else weighted_scan r rest cumulative
  end.

(** [weighted_choice], given the number [random.uniform(0, total)] drew;
    [None] is the [IndexError] of [list(...)[0]] on an empty dictionary. *)
Definition weighted_choice (choices_dict : list (Z * Z)) (r : Q) : option Z :=
  match weighted_scan r choices_dict 0 with
  | Some choice => Some choice
  | None => head (fst <$> choices_dict)
  end.

(** What the random source gives to one call of [generate_cdr_row], one
    field per call of [random], in the order of the calls.  A call leg
    that failed draws [failed_dest_cause] and [disconnect_delay], any
    other [duration_drawn], [success_dest_cause], [success_orig_cause] and
    [connect_delay]. *)
Record Draws := mkDraws {
  calling_number : string;
  called_number : string;
  orig_device : string;
  dest_device : string;
  orig_ip : string;
  dest_ip : string;
  call_manager_id : Z;
  call_id : Z;
  failed_dest_cause : Z;
  disconnect_delay : Z;
  duration_drawn : Z;
  success_dest_cause : Z;
  success_orig_cause : Z;
  connect_delay : Z;
  orig_leg : Z;
  orig_node : Z
}.

(** [generate_cdr_row]; [epoch_origination] is [int(timestamp.timestamp())]. *)
Definition generate_cdr_row (epoch_origination : Z) (is_failed : bool) (d : Draws)
    : list string :=
  let duration := if is_failed then 0 else duration_drawn d in
  let dest_cause := if is_failed then failed_dest_cause d else success_dest_cause d in
  let orig_cause := if is_failed then 0 else success_orig_cause d in
  let epoch_connect := if is_failed then 0 else epoch_origination + connect_delay d in
  let epoch_disconnect :=
    if is_failed then epoch_origination + disconnect_delay d
    else epoch_connect + duration in
  let row := replicate 128 "" in
  let row := <[0%nat := "1"]> row in
  let row := <[1%nat := py_str (call_manager_id d)]> row in
  let row := <[2%nat := py_str (call_id d)]> row in
  let row := <[3%nat := py_str (orig_leg d)]> row in
  let row := <[4%nat := py_str epoch_origination]> row in
  let row := <[5%nat := py_str (orig_node d)]> row in
  let row := <[6%nat := "0"]> row in
  let row := <[7%nat := orig_ip d]> row in
  let row := <[8%nat := calling_number d]> row in
  let row := <[11%nat := py_str orig_cause]> row in
  let row := <[28%nat := dest_ip d]> row in
  let row := <[29%nat := called_number d]> row in
  let row := <[30%nat := called_number d]> row in
  let row := <[33%nat := py_str dest_cause]> row in
  let row := <[47%nat := if epoch_connect =? 0 then "" else py_str epoch_connect]> row in
  let row := <[48%nat := py_str epoch_disconnect]> row in
  let row := <[55%nat := py_str duration]> row in
  let row := <[56%nat := orig_device d]> row in
  let row := <[57%nat := dest_device d]> row in
  row.

(** The values [random] can give: a member of the pool for [choice], the
    closed range for [randint], a key of the dictionary for
    [weighted_choice]. *)
Definition possible (d : Draws) : Prop :=
  calling_number d ∈ CALLING_NUMBERS ∧ called_number d ∈ CALLED_NUMBERS ∧
  orig_device d ∈ DEVICE_NAMES ∧ dest_device d ∈ DEVICE_NAMES ∧
  orig_ip d ∈ IP_ADDRESSES ∧ dest_ip d ∈ IP_ADDRESSES ∧
  1 ≤ call_manager_id d ≤ 2 ∧ 100000 ≤ call_id d ≤ 999999 ∧
  failed_dest_cause d ∈ (fst <$> FAILED_CAUSE_CODES) ∧
  1 ≤ disconnect_delay d ≤ 30 ∧ 10 ≤ duration_drawn d ≤ 600 ∧
  success_dest_cause d ∈ SUCCESS_CAUSE_CODES ∧
  success_orig_cause d ∈ SUCCESS_CAUSE_CODES ∧
  2 ≤ connect_delay d ≤ 10 ∧
  1000 ≤ orig_leg d ≤ 9999 ∧ 1 ≤ orig_node d ≤ 2.

Definition sample_draws : Draws :=
  {| calling_number := "1003"; called_number := "918001234567";
     orig_device := "CSFUSER002"; dest_device := "JABBERUSER01";
     orig_ip := "10.1.1.101"; dest_ip := "10.1.2.102";
     call_manager_id := 2; call_id := 482913;
     failed_dest_cause := 19; disconnect_delay := 12;
     duration_drawn := 245; success_dest_cause := 16; success_orig_cause := 0;
     connect_delay := 4; orig_leg := 5120; orig_node := 1 |}.

End TestData.

(** ** Vocabulary of the statements *)

(** A cause code outside the success set, spelled out. *)
Definition outside_success (c : Z) : Prop := c ≠ 0 ∧ c ≠ 16 ∧ c ≠ 393216.

(** The text the classifier gives for a selected cause code. *)
Definition reason_of_cause (cause : Z) : string :=
  match CAUSE_CODES !! cause with
  | Some text => text
  | None => "Unknown cause code: " +:+ py_str cause
  end.

(** The primary cause code of a stored row: the terminating cause when
    nonzero, otherwise the originating cause. *)
Definition fc_primary_cause_code (row : FailedCall) : Z :=
  if decide (fc_dest_cause_value row ≠ 0) then fc_dest_cause_value row
  else fc_orig_cause_value row.

(** The rows of the window, as every statement of the snapshot selects them. *)
Definition window_of (db : CDRDatabase) (now : datetime) (hours : Z) : list FailedCall :=
  filter (λ row, since (now - hours * 3600 * 1000000) row = true) (failed_calls db).

(** No bucket stands before one of a larger count. *)
Definition count_desc (b1 b2 : CauseCount) : Prop := cc_count b2 ≤ cc_count b1.

(** The first record of [busy_file], and a row too short to be a call leg. *)
Definition busy_record : CDRRecord :=
  default default_record (head (parse_file utc_fromtimestamp (file_rows busy_file)).1).

Definition short_row : list string := replicate 40 "1".

(** The record of a call leg with the key of [busy_record] and an
    originating cause of 2^63, as the decoder emits it. *)
Definition overflow_record : CDRRecord :=
  default default_record
    (head (parse_file utc_fromtimestamp
             [ sample_row "100001" "1700000000" "9223372036854775808" "17" "0" ]).1).

(** Every character of the string satisfies the test. *)
Fixpoint all_chars (test : ascii -> bool) (s : string) : bool :=
  match s with
  | EmptyString => true
  | String c s' => test c && all_chars test s'
  end.

Definition is_digit (c : ascii) : bool := bool_decide (is_Some (digit_of c)).

(** The number a digit sequence denotes after the digits read so far. *)
Fixpoint uint_value (d : Decimal.uint) (acc : Z) : Z :=
  match d with
  | Decimal.Nil => acc
  | Decimal.D0 l => uint_value l (10 * acc)
  | Decimal.D1 l => uint_value l (10 * acc + 1)
  | Decimal.D2 l => uint_value l (10 * acc + 2)
  | Decimal.D3 l => uint_value l (10 * acc + 3)
  | Decimal.D4 l => uint_value l (10 * acc + 4)
  | Decimal.D5 l => uint_value l (10 * acc + 5)
  | Decimal.D6 l => uint_value l (10 * acc + 6)
  | Decimal.D7 l => uint_value l (10 * acc + 7)
  | Decimal.D8 l => uint_value l (10 * acc + 8)
  | Decimal.D9 l => uint_value l (10 * acc + 9)
  end.

(** The trimmed field at an ordinal, empty when the row is shorter. *)
Definition field_at (row : list string) (idx : nat) : string :=
  strip (default "" (row !! idx)).

(** No two rows of the table clash on the natural key. *)
Definition unique_keys (rows : list FailedCall) : Prop :=
  ∀ i j a b, rows !! i = Some a → rows !! j = Some b →
             unique_clash a b = true → i = j.

(** The number of failed records among the records of a file. *)
Definition failed_count_of (records : list CDRRecord) : Z :=
  Z.of_nat (length (filter (λ record, is_failed record = true) records)).

(** A row as ingestion writes it: the row of a failed record that has an
    origination time. *)
Definition ingested (row : FailedCall) : Prop :=
  ∃ record h, is_failed record = true ∧ is_Some (date_time_origination record) ∧
              row = failed_call_of record h.

(** [s] sorts strictly before [t], byte by byte. *)
Definition str_lt (s t : string) : Prop := String.compare s t = Lt.

(** No group stands before one of a larger count. *)
Definition key_count_desc (b1 b2 : KeyCount) : Prop := kc_count b2 ≤ kc_count b1.

(** [a] originated no earlier than [b]. *)
Definition later_or_same (a b : FailedCall) : Prop :=
  ∃ t u, fc_date_time_origination a = Some t ∧
         fc_date_time_origination b = Some u ∧ u ≤ t.

(** The sum of the weights of a run of choices. *)
Definition sum_weights (items : list (Z * Z)) : Z :=
  foldr (λ cw acc, cw.2 + acc) 0 items.

(** The characters a number is written with. *)
Definition is_number_char (c : ascii) : bool :=
  is_digit c || is_int_space c || Ascii.eqb c "+" || Ascii.eqb c "-" || Ascii.eqb c "_".

(** A character that neither quotes nor breaks a line. *)
Definition is_plain (c : ascii) : bool :=
  negb (Ascii.eqb c Csv.quotechar) && negb (Csv.is_newline c).

(** The fields of a line of plain characters: what stands between its
    commas, after the field [current] that is being read. *)
Fixpoint split_commas (s : string) (current : string) : list string :=
  match s with
  | EmptyString => [current]
  | String c rest =>
      if Ascii.eqb c Csv.delimiter then current :: split_commas rest ""
      else split_commas rest (current +:+ String c "")
  end.

(** * Properties *)

(** ** Classifier *)

Example py_str_ex :
  py_str 0 = "0" /\ py_str 458752 = "458752" /\ py_str (-12) = "-12".
Proof. repeat split; reflexivity. Qed.

Example failure_reason_busy : failure_reason (with_causes 0 17 0) = "User busy".
Proof. vm_compute. reflexivity. Qed.

Example failure_reason_unknown :
  failure_reason (with_causes 0 8 0) = "Unknown cause code: 8".
Proof. vm_compute. reflexivity. Qed.

Example is_failed_busy :
  is_failed (with_causes 0 17 0) = true /\ is_failed (with_causes 0 17 120) = false.
Proof. split; vm_compute; reflexivity. Qed.

Lemma not_in_SUCCESS_CODES (c : Z) : c ∉ SUCCESS_CODES ↔ outside_success c.
Proof.
  unfold SUCCESS_CODES, outside_success.
  rewrite !not_elem_of_union, !not_elem_of_singleton. tauto.
Qed.

Lemma is_failed_unfold (r : CDRRecord) :
  is_failed r = true ↔
  duration r = 0 ∧ (dest_cause_value r ∉ SUCCESS_CODES ∨ orig_cause_value r ∉ SUCCESS_CODES).
Proof.
  unfold is_failed.
  destruct (Z.eqb_spec (duration r) 0) as [Hd | Hd].
  - destruct (bool_decide_reflect (dest_cause_value r ∉ SUCCESS_CODES)) as [Hdest | Hdest];
      [tauto |].
    destruct (bool_decide_reflect (orig_cause_value r ∉ SUCCESS_CODES)) as [Horig | Horig];
      [tauto |].
    split; [done | tauto].
  - split; [done | tauto].
Qed.

(** C1: a record is failed exactly when its duration is zero and the
    originating or the terminating cause lies outside {0, 16, 393216}; a
    record of nonzero duration is never failed, whatever its causes. *)
Theorem is_failed_iff (r : CDRRecord) :
  (is_failed r = true ↔
     duration r = 0 ∧
     (outside_success (orig_cause_value r) ∨ outside_success (dest_cause_value r))) ∧
  (duration r ≠ 0 → is_failed r = false).
Proof.
  split.
  - rewrite is_failed_unfold, !not_in_SUCCESS_CODES. tauto.
  - intros Hd. apply not_true_is_false. rewrite is_failed_unfold. tauto.
Qed.

Lemma failure_reason_primary (r : CDRRecord) :
  failure_reason r = reason_of_cause (primary_cause_code r).
Proof.
  unfold failure_reason, primary_cause_code, reason_of_cause.
  by destruct (CAUSE_CODES !! _).
Qed.

Lemma primary_cause_code_cases (r : CDRRecord) :
  (dest_cause_value r ≠ 0 → primary_cause_code r = dest_cause_value r) ∧
  (dest_cause_value r = 0 → primary_cause_code r = orig_cause_value r).
Proof.
  unfold primary_cause_code.
  destruct (Z.eqb_spec (dest_cause_value r) 0); simpl; split; intros; done.
Qed.



(** ** Decoder *)

Section DecoderFacts.

Variable fromtimestamp : Z -> result datetime.

Lemma parse_loop (rows : list (list string)) (records : list CDRRecord) (n : Z) :
  fold_left (parse_step fromtimestamp) rows (records, n) =
  (records ++ omap (parse_row fromtimestamp) rows, n + Z.of_nat (length rows)).
Proof.
  revert records n. induction rows as [| row rows IH]; intros records n; simpl.
  - f_equal; [by rewrite app_nil_r | lia].
  - destruct (parse_row fromtimestamp row) as [record |]; rewrite IH; f_equal;
      try lia; by rewrite <- ?app_assoc.
Qed.

(** The reader's loop emits the records of the rows in order and counts
    every row. *)
Lemma parse_file_rows (rows : list (list string)) :
  parse_file fromtimestamp rows =
  (omap (parse_row fromtimestamp) rows, Z.of_nat (length rows)).
Proof. unfold parse_file. by rewrite parse_loop. Qed.

Lemma parse_row_short (row : list string) :
  (length row < 50)%nat → parse_row fromtimestamp row = None.
Proof.
  intros Hlen. unfold parse_row.
  destruct (Nat.ltb_spec (length row) 50) as [_ | Hge]; [| lia].
  by rewrite orb_true_r.
Qed.

Lemma parse_row_foreign (row : list string) :
  _safe_int (default "0" (head row)) 0 ≠ 1 → parse_row fromtimestamp row = None.
Proof.
  intros Hty. unfold parse_row.
  destruct (bool_decide (row = []) || (length row <? 50)%nat); [done |].
  assert (Heq : match row with c :: _ => c | [] => "0" end = default "0" (head row))
    by by destruct row.
  rewrite Heq. by destruct (Z.eqb_spec (_safe_int (default "0" (head row)) 0) 1).
Qed.

(** A row of fewer than 50 fields, or whose record type (field 0 read
    as an integer) is not 1, yields no record and no error; it still
    counts as a scanned row, and the rows around it are decoded as they
    would be without it. *)
Lemma parse_file_skips_row (pre post : list (list string)) (row : list string) :
  (length row < 50)%nat ∨ _safe_int (default "0" (head row)) 0 ≠ 1 →
  parse_row fromtimestamp row = None ∧
  parse_file fromtimestamp (pre ++ row :: post) =
    ((parse_file fromtimestamp (pre ++ post)).1,
     (parse_file fromtimestamp (pre ++ post)).2 + 1).
Proof.
  intros Hbad.
  assert (Hnone : parse_row fromtimestamp row = None)
    by (destruct Hbad; [by apply parse_row_short | by apply parse_row_foreign]).
  split; [done |].
  rewrite !parse_file_rows. simpl.
  rewrite !omap_app. simpl. rewrite Hnone.
  f_equal. rewrite !length_app. simpl. lia.
Qed.

(** The rows of lines that end at the start of a record, followed by more
    lines: those of the first, then those of the rest. *)
Lemma iterate_app (r : Csv.Reader) (pre post : list string) :
  Csv.feed r pre = Ok Csv.parse_reset →
  Csv.iterate r (pre ++ post) =
    ((Csv.iterate r pre).1 ++ (Csv.iterate Csv.parse_reset post).1,
     (Csv.iterate Csv.parse_reset post).2).
Proof.
  revert r. induction pre as [| line pre IH]; intros r Hfeed.
  - injection Hfeed as ->. cbn. by destruct (Csv.iterate Csv.parse_reset post).
  - cbn [Csv.feed] in Hfeed. cbn [app Csv.iterate].
    destruct (Csv.parse_line r line) as [r1 | e]; [| done].
    cbn [mbind result_bind] in Hfeed.
    destruct (bool_decide (Csv.state r1 = Csv.START_RECORD)).
    + rewrite (IH _ Hfeed).
      by destruct (Csv.iterate Csv.parse_reset pre).
    + by rewrite (IH _ Hfeed).
Qed.

(** C7, as amended: a line the reader yields as a row of its own (it
    reaches the line at the start of a record, and is through with the
    record at the line's end), with fewer than 50 fields or a record type
    (field 0 read as an integer) other than 1, yields no record and no
    error; it still counts as a scanned row, and the lines around it are
    decoded as they would be without it. *)
Theorem malformed_line_skipped (pre post : list string) (line : string)
    (row : list string) :
  Csv.feed Csv.parse_reset pre = Ok Csv.parse_reset →
  Csv.own_row line = Some row →
  (length row < 50)%nat ∨ _safe_int (default "0" (head row)) 0 ≠ 1 →
  parse_row fromtimestamp row = None ∧
  parse_lines fromtimestamp (pre ++ line :: post) =
    ((parse_lines fromtimestamp (pre ++ post)).1,
     (parse_lines fromtimestamp (pre ++ post)).2 + 1).
Proof.
  intros Hpre Hline Hbad. unfold parse_lines, Csv.reader.
  rewrite !(iterate_app _ pre _ Hpre). cbn [fst].
  assert (Hrows : (Csv.iterate Csv.parse_reset (line :: post)).1 =
                  row :: (Csv.iterate Csv.parse_reset post).1).
  { unfold Csv.own_row in Hline. cbn [Csv.iterate].
    destruct (Csv.parse_line Csv.parse_reset line) as [r |]; [| done].
    destruct (bool_decide (Csv.state r = Csv.START_RECORD)); [| done].
    injection Hline as <-. by destruct (Csv.iterate Csv.parse_reset post). }
  rewrite Hrows. by apply parse_file_skips_row.
Qed.

Lemma _parse_timestamp_absent (s : string) :
  s = "0" ∨ py_int s = None → _parse_timestamp fromtimestamp s = Ok None.
Proof.
  intros [-> | Hbad]; [done |].
  unfold _parse_timestamp. destruct (truthy s); [by rewrite Hbad | done].
Qed.

(** Whatever [_parse_timestamp] returns as a time lies after the epoch
    and is what the host gives for it. *)
Lemma _parse_timestamp_present (s : string) (d : datetime) :
  _parse_timestamp fromtimestamp s = Ok (Some d) →
  ∃ epoch, py_int s = Some epoch ∧ 0 < epoch ∧ fromtimestamp epoch = Ok d.
Proof.
  unfold _parse_timestamp. destruct (truthy s); simpl.
  - destruct (py_int s) as [epoch |]; [| done].
    destruct (Z.ltb_spec 0 epoch); [| done].
    destruct (fromtimestamp epoch) as [d' | []] eqn:Hd; simpl; try done.
    intros [= ->]. by exists epoch.
  - done.
Qed.

Lemma parse_row_origination (row : list string) (record : CDRRecord) :
  parse_row fromtimestamp row = Some record →
  is_Some (date_time_origination record).
Proof.
  unfold parse_row.
  destruct (bool_decide (row = []) || (length row <? 50)%nat); [done |].
  destruct (negb _); [done |].
  destruct (decode_row _ _ _) as [rec |]; [| done].
  case_bool_decide; [| done]. by intros [= <-].
Qed.

Lemma decode_row_origination (row : list string) (ty : Z) (record : CDRRecord) :
  decode_row fromtimestamp row ty = Ok record →
  _parse_timestamp fromtimestamp (_get_field row "dateTimeOrigination") =
    Ok (date_time_origination record).
Proof.
  unfold decode_row.
  destruct (_parse_timestamp fromtimestamp (_get_field row "dateTimeOrigination"))
    as [dto |]; [| done]. simpl.
  destruct (_parse_timestamp fromtimestamp (_get_field row "dateTimeConnect"))
    as [dtc |]; [| done]. simpl.
  destruct (_parse_timestamp fromtimestamp (_get_field row "dateTimeDisconnect"))
    as [dtd |]; [| done]. simpl.
  by intros [= <-].
Qed.

(** C8: an origination field that is "0" or does not parse decodes to an
    absent time (not to the epoch) and the row yields no record; every
    record the decoder emits has its origination time present. *)
Theorem origination_time_required :
  (∀ s, s = "0" ∨ py_int s = None →
        _parse_timestamp fromtimestamp s = Ok None) ∧
  (∀ row, let s := _get_field row "dateTimeOrigination" in
          s = "0" ∨ py_int s = None →
          parse_row fromtimestamp row = None) ∧
  (∀ rows record,
     record ∈ (parse_file fromtimestamp rows).1 →
     is_Some (date_time_origination record)).
Proof.
  split; [exact _parse_timestamp_absent | split].
  - intros row s Hs. subst s.
    destruct (parse_row fromtimestamp row) as [record |] eqn:Hrow; [| done].
    pose proof (parse_row_origination _ _ Hrow) as [d Hd].
    revert Hrow. unfold parse_row.
    destruct (bool_decide (row = []) || (length row <? 50)%nat); [done |].
    destruct (negb _); [done |].
    destruct (decode_row _ _ _) as [rec |] eqn:Hdec; [| done].
    case_bool_decide; [| done]. intros [= ->].
    apply decode_row_origination in Hdec.
    rewrite (_parse_timestamp_absent _ Hs), Hd in Hdec. done.
  - intros rows record. rewrite parse_file_rows. simpl.
    rewrite list_elem_of_omap. intros (row & _ & Hrow).
    by eapply parse_row_origination.
Qed.

End DecoderFacts.

(** ** Store *)

Lemma unique_clash_spec (new old : FailedCall) :
  unique_clash new old = true ↔
  fc_global_call_id new = fc_global_call_id old ∧
  ∃ t, fc_date_time_origination new = Some t ∧ fc_date_time_origination old = Some t.
Proof.
  unfold unique_clash. rewrite andb_true_iff, String.eqb_eq.
  destruct (fc_date_time_origination new) as [t |],
           (fc_date_time_origination old) as [u |]; simpl.
  - rewrite Z.eqb_eq. split.
    + intros [Hid ->]. eauto.
    + intros [Hid (t' & Ht & Hu)]. split; [done | congruence].
  - split; [intros [_ [=]] | intros [_ (t' & _ & [=])]].
  - split; [intros [_ [=]] | intros [_ (t' & [=] & _)]].
  - split; [intros [_ [=]] | intros [_ (t' & [=] & _)]].
Qed.

(** A row without origination time clashes with nothing. *)
Lemma unique_clash_null (new old : FailedCall) :
  fc_date_time_origination new = None → unique_clash new old = false.
Proof. intros Hnull. unfold unique_clash. rewrite Hnull. apply andb_false_r. Qed.

(** What fits 64 bits, [str] prints. *)
Lemma int64_str_fits (n : Z) : int64 n = true → str_fits n = true.
Proof.
  unfold int64, str_fits. rewrite andb_true_iff, Z.leb_le, !Z.ltb_lt.
  assert (2 ^ 63 < 10 ^ max_str_digits) by (vm_compute; reflexivity). lia.
Qed.

Lemma primary_cause_code_fits (record : CDRRecord) :
  binds_int64 record = true → str_fits (primary_cause_code record) = true.
Proof.
  unfold binds_int64. rewrite !andb_true_iff. intros [[Ho Hd] _].
  unfold primary_cause_code. by destruct (negb _); apply int64_str_fits.
Qed.

(** The parameters are bound exactly when the three integers fit. *)
Lemma bind_failed_call_Ok (record : CDRRecord) (h : string) :
  binds_int64 record = true →
  bind_failed_call record h = Ok (failed_call_of record h).
Proof.
  intros Hfits. unfold bind_failed_call.
  by rewrite (primary_cause_code_fits record Hfits), Hfits.
Qed.

Lemma bind_failed_call_Raise (record : CDRRecord) (h : string) :
  binds_int64 record = false →
  ∃ e, (e = ValueError ∨ e = OverflowError) ∧
       ∀ h', bind_failed_call record h' = Raise e.
Proof.
  intros Hfits. unfold bind_failed_call. rewrite Hfits.
  destruct (str_fits (primary_cause_code record)); eauto.
Qed.

Lemma bind_failed_call_inv (record : CDRRecord) (h : string) (row : FailedCall) :
  bind_failed_call record h = Ok row →
  binds_int64 record = true ∧ row = failed_call_of record h.
Proof.
  unfold bind_failed_call.
  destruct (str_fits (primary_cause_code record)); [| done].
  destruct (binds_int64 record); [| done]. by intros [= <-].
Qed.

(** The exception of an insert is that of its parameters: it is the same
    under every digest and on every store. *)
Lemma insert_failed_call_Raise (db db' : CDRDatabase) (record : CDRRecord)
    (h h' : string) (e : exn) :
  insert_failed_call db record h = Raise e →
  binds_int64 record = false ∧ (e = ValueError ∨ e = OverflowError) ∧
  insert_failed_call db' record h' = Raise e.
Proof.
  unfold insert_failed_call.
  destruct (binds_int64 record) eqn:Hfits.
  - by rewrite (bind_failed_call_Ok record h Hfits).
  - destruct (bind_failed_call_Raise record h Hfits) as (e' & He' & Hraise).
    rewrite !Hraise. cbn [mbind result_bind]. by intros [= <-].
Qed.

(** An insert that returns: what it returns. *)
Lemma insert_failed_call_Ok (db : CDRDatabase) (record : CDRRecord) (h : string) :
  binds_int64 record = true →
  insert_failed_call db record h =
    Ok (if existsb (unique_clash (failed_call_of record h)) (failed_calls db) then db
        else {| failed_calls := failed_calls db ++ [failed_call_of record h];
                processed_files := processed_files db |}).
Proof.
  intros Hfits. unfold insert_failed_call.
  by rewrite (bind_failed_call_Ok record h Hfits).
Qed.

Lemma insert_failed_call_inv (db db' : CDRDatabase) (record : CDRRecord) (h : string) :
  insert_failed_call db record h = Ok db' →
  binds_int64 record = true ∧
  db' = (if existsb (unique_clash (failed_call_of record h)) (failed_calls db) then db
         else {| failed_calls := failed_calls db ++ [failed_call_of record h];
                 processed_files := processed_files db |}).
Proof.
  destruct (binds_int64 record) eqn:Hfits.
  - rewrite (insert_failed_call_Ok db record h Hfits). by intros [= <-].
  - unfold insert_failed_call.
    destruct (bind_failed_call_Raise record h Hfits) as (e & _ & Hraise).
    by rewrite Hraise.
Qed.

(** A row that clashes with no stored one is appended, once. *)
Lemma insert_failed_call_fresh (db : CDRDatabase) (record : CDRRecord) (h : string) :
  binds_int64 record = true →
  existsb (unique_clash (failed_call_of record h)) (failed_calls db) = false →
  insert_failed_call db record h =
    Ok {| failed_calls := failed_calls db ++ [failed_call_of record h];
          processed_files := processed_files db |}.
Proof.
  intros Hfits Hfresh. by rewrite (insert_failed_call_Ok db record h Hfits), Hfresh.
Qed.

(** [insert_failed_call] never touches the stored rows: they stay, in
    order, at the front of the table, and at most one row is added. *)
Lemma insert_failed_call_keeps (db db' : CDRDatabase) (record : CDRRecord) (h : string) :
  insert_failed_call db record h = Ok db' →
  ∃ added, failed_calls db' = failed_calls db ++ added ∧
           (added = [] ∨ added = [failed_call_of record h]) ∧
           processed_files db' = processed_files db.
Proof.
  intros [_ ->]%insert_failed_call_inv.
  destruct (existsb _ _).
  - exists []. rewrite app_nil_r. split_and!; [done | by left | done].
  - exists [failed_call_of record h]. split_and!; [done | by right | done].
Qed.

(** A clash leaves the store as it was. *)
Lemma insert_failed_call_clash (db : CDRDatabase) (record : CDRRecord) (h : string) :
  binds_int64 record = true →
  existsb (unique_clash (failed_call_of record h)) (failed_calls db) = true →
  insert_failed_call db record h = Ok db.
Proof.
  intros Hfits Hclash. by rewrite (insert_failed_call_Ok db record h Hfits), Hclash.
Qed.

(** C4, as amended: inserting a record whose integers fit 64 bits and
    whose natural key (call identifier, origination time) a stored row
    already has returns, without an exception, the store as it was: the
    stored row is not updated and no second row is added. *)
Theorem insert_failed_call_duplicate
    (db : CDRDatabase) (record : CDRRecord) (h : string) (old : FailedCall) (t : datetime) :
  binds_int64 record = true →
  old ∈ failed_calls db →
  fc_global_call_id old = global_call_id record →
  fc_date_time_origination old = Some t →
  date_time_origination record = Some t →
  insert_failed_call db record h = Ok db.
Proof.
  intros Hfits Hin Hid Hold Hnew. apply insert_failed_call_clash; [done |].
  apply existsb_exists. exists old. split; [by apply list_elem_of_In |].
  apply unique_clash_spec. simpl. split; [done | by exists t].
Qed.

(** After an insert the record's key is in the table, whichever way the
    insert went. *)
Lemma insert_failed_call_stored (db db' : CDRDatabase) (record : CDRRecord)
    (h h' : string) :
  is_Some (date_time_origination record) →
  insert_failed_call db record h = Ok db' →
  existsb (unique_clash (failed_call_of record h')) (failed_calls db') = true.
Proof.
  intros [t Ht] [_ ->]%insert_failed_call_inv.
  destruct (existsb (unique_clash (failed_call_of record h)) (failed_calls db)) eqn:Hc.
  - apply existsb_exists in Hc as (old & Hin & Hclash).
    apply existsb_exists. exists old. split; [done |].
    apply unique_clash_spec in Hclash. by apply unique_clash_spec.
  - simpl. apply existsb_exists. exists (failed_call_of record h).
    split; [apply in_or_app; right; by left |].
    apply unique_clash_spec. simpl. split; [done | by exists t].
Qed.

(** Inserting the same record twice is inserting it once. *)
Lemma insert_failed_call_twice (db db' : CDRDatabase) (record : CDRRecord)
    (h h' : string) :
  is_Some (date_time_origination record) →
  insert_failed_call db record h = Ok db' →
  insert_failed_call db' record h' = Ok db'.
Proof.
  intros Hsome Hfirst.
  apply insert_failed_call_clash; [by apply insert_failed_call_inv in Hfirst as [? _] |].
  by eapply insert_failed_call_stored.
Qed.

Lemma is_file_processed_mark (db : CDRDatabase) (now : datetime)
    (filename h : string) (n m : Z) :
  is_file_processed (mark_file_processed db now filename h n m) filename h = true.
Proof.
  unfold is_file_processed, mark_file_processed. simpl.
  rewrite lookup_insert_eq. simpl. by apply bool_decide_eq_true.
Qed.

(** A marker of the same name with another digest does not count. *)
Lemma is_file_processed_changed (db : CDRDatabase) (filename h h' : string)
    (pf : ProcessedFile) :
  processed_files db !! filename = Some pf → pf_file_hash pf = h → h' ≠ h →
  is_file_processed db filename h' = false.
Proof.
  intros Hpf Hh Hne. unfold is_file_processed. rewrite Hpf.
  apply bool_decide_eq_false. congruence.
Qed.

Lemma existsb_app_l {A : Type} (f : A → bool) (l k : list A) :
  existsb f l = true → existsb f (l ++ k) = true.
Proof. intros Hl. rewrite existsb_app, Hl. done. Qed.

Lemma existsb_false_elem {A : Type} (f : A → bool) (l : list A) (x : A) :
  existsb f l = false → x ∈ l → f x = false.
Proof.
  intros Hnone Hin. apply not_true_is_false. intros Hx.
  assert (existsb f l = true); [| congruence].
  apply existsb_exists. exists x. split; [by apply list_elem_of_In | done].
Qed.

Lemma unique_clash_sym (a b : FailedCall) : unique_clash a b = unique_clash b a.
Proof.
  unfold unique_clash. rewrite String.eqb_sym.
  destruct (fc_date_time_origination a), (fc_date_time_origination b); try done.
  by rewrite Z.eqb_sym.
Qed.

Lemma unique_keys_snoc (rows : list FailedCall) (row : FailedCall) :
  unique_keys rows → existsb (unique_clash row) rows = false →
  unique_keys (rows ++ [row]).
Proof.
  intros Huniq Hfresh i j a b Ha Hb Hclash.
  apply lookup_app_Some in Ha as [Ha | [Hi Ha]];
    apply lookup_app_Some in Hb as [Hb | [Hj Hb]].
  - by eapply Huniq.
  - apply list_lookup_singleton_Some in Hb as [_ <-].
    rewrite unique_clash_sym in Hclash.
    rewrite (existsb_false_elem _ _ a Hfresh) in Hclash; [done |].
    by eapply list_elem_of_lookup_2.
  - apply list_lookup_singleton_Some in Ha as [_ <-].
    rewrite (existsb_false_elem _ _ b Hfresh) in Hclash; [done |].
    by eapply list_elem_of_lookup_2.
  - apply list_lookup_singleton_Some in Ha as [Hi' _].
    apply list_lookup_singleton_Some in Hb as [Hj' _]. lia.
Qed.

Lemma insert_failed_call_unique (db db' : CDRDatabase) (record : CDRRecord) (h : string) :
  insert_failed_call db record h = Ok db' →
  unique_keys (failed_calls db) → unique_keys (failed_calls db').
Proof.
  intros [_ ->]%insert_failed_call_inv Huniq.
  destruct (existsb _ _) eqn:Hclash; [done |]. simpl. by apply unique_keys_snoc.
Qed.

Lemma failed_count_of_cons (record : CDRRecord) (records : list CDRRecord) :
  failed_count_of (record :: records) =
    (if is_failed record then 1 else 0) + failed_count_of records.
Proof.
  unfold failed_count_of. rewrite filter_cons.
  destruct (is_failed record) eqn:Hfailed.
  - rewrite decide_True by done. cbn [length]. lia.
  - rewrite decide_False by congruence. lia.
Qed.

Lemma failed_count_of_bounds (records : list CDRRecord) :
  0 ≤ failed_count_of records ≤ Z.of_nat (length records).
Proof.
  unfold failed_count_of.
  pose proof (length_filter (λ record, is_failed record = true) records). lia.
Qed.

(** The inner loop, summed up.  Rows are only appended, each one the row
    of a failed record of the list, and the markers stay.  When the loop
    ends by itself, every failed record fitted 64 bits, the counter has
    counted them, inserted or not, and every one with an origination time
    has its key in the table.  When an exception ends it, a failed record
    did not fit. *)
Lemma store_failed_loop (h : string) (records : list CDRRecord)
    (db : CDRDatabase) (n : Z) :
  ∃ added,
    failed_calls (store_failed h records db n).1 = failed_calls db ++ added ∧
    processed_files (store_failed h records db n).1 = processed_files db ∧
    Forall (λ row, ∃ record, record ∈ records ∧ is_failed record = true ∧
                             row = failed_call_of record h) added ∧
    (unique_keys (failed_calls db) →
     unique_keys (failed_calls (store_failed h records db n).1)) ∧
    match (store_failed h records db n).2 with
    | Ok failed_count =>
        failed_count = n + failed_count_of records ∧
        Z.of_nat (length added) ≤ failed_count_of records ∧
        Forall (λ record, is_failed record = true → binds_int64 record = true) records ∧
        ∀ record h', record ∈ records → is_failed record = true →
          is_Some (date_time_origination record) →
          existsb (unique_clash (failed_call_of record h'))
            (failed_calls (store_failed h records db n).1) = true
    | Raise e =>
        (e = ValueError ∨ e = OverflowError) ∧
        Exists (λ record, is_failed record = true ∧ binds_int64 record = false) records
    end.
Proof.
  revert db n. induction records as [| record records IH]; intros db n.
  - exists []. cbn [store_failed fst snd]. rewrite app_nil_r. unfold failed_count_of.
    rewrite filter_nil. cbn [length].
    split_and!; try done; try lia.
    intros record h' Hin. by apply elem_of_nil in Hin.
  - cbn [store_failed]. rewrite failed_count_of_cons.
    destruct (is_failed record) eqn:Hfailed.
    + destruct (insert_failed_call db record h) as [db1 | e] eqn:Hinsert.
      * destruct (IH db1 (n + 1)) as (added & Hrows & Hmarks & Hfrom & Huniq & Hend).
        destruct (insert_failed_call_keeps db db1 record h Hinsert)
          as (first & Hins & Hfirst & Hpf).
        exists (first ++ added). rewrite Hrows, Hmarks, Hins, Hpf.
        split_and!.
        -- by rewrite app_assoc.
        -- done.
        -- apply Forall_app. split.
           ++ destruct Hfirst as [-> | ->]; [constructor |].
              constructor; [| constructor].
              exists record. split_and!; [apply elem_of_cons; by left | done | done].
           ++ eapply Forall_impl; [exact Hfrom |].
              intros row (record' & Hin & Hf & ->). exists record'.
              split_and!; [apply elem_of_cons; by right | done | done].
        -- intros Hu. rewrite <- Hins, <- Hrows.
           apply Huniq. by eapply insert_failed_call_unique.
        -- destruct (store_failed h records db1 (n + 1)).2 as [failed_count | e].
           ++ destruct Hend as (Hcount & Hlen & Hfit & Hstored).
              split_and!.
              ** lia.
              ** rewrite length_app.
                 assert (length first ≤ 1)%nat by (destruct Hfirst as [-> | ->]; simpl; lia).
                 lia.
              ** constructor; [| done]. intros _.
                 by apply insert_failed_call_inv in Hinsert as [? _].
              ** intros record' h' Hin Hf Hsome. rewrite <- Hins, <- Hrows.
                 apply elem_of_cons in Hin as [-> | Hin]; [| by apply Hstored].
                 rewrite Hrows. apply existsb_app_l.
                 by eapply insert_failed_call_stored.
           ++ destruct Hend as [He Hbad]. split; [done |]. by apply Exists_cons_tl.
      * exists []. cbn [fst snd]. rewrite app_nil_r.
        apply (insert_failed_call_Raise db db record h h) in Hinsert as (Hbad & He & _).
        split_and!; try done. by apply Exists_cons_hd.
    + destruct (IH db n) as (added & Hrows & Hmarks & Hfrom & Huniq & Hend).
      exists added. rewrite Hrows, Hmarks.
      split_and!; try done.
      * eapply Forall_impl; [exact Hfrom |].
        intros row (record' & Hin & Hf & ->). exists record'.
        split_and!; [apply elem_of_cons; by right | done | done].
      * intros Hu. rewrite <- Hrows. by apply Huniq.
      * destruct (store_failed h records db n).2 as [failed_count | e].
        -- destruct Hend as (Hcount & Hlen & Hfit & Hstored).
           split_and!; try lia.
           ++ constructor; [congruence | done].
           ++ intros record' h' Hin Hf Hsome. rewrite <- Hrows.
              apply elem_of_cons in Hin as [-> | Hin]; [congruence | by apply Hstored].
        -- destruct Hend as [He Hbad]. split; [done |]. by apply Exists_cons_tl.
Qed.

(** The loop does not end by itself when a failed record does not fit. *)
Lemma store_failed_Raise (h : string) (records : list CDRRecord)
    (db : CDRDatabase) (n : Z) :
  Exists (λ record, is_failed record = true ∧ binds_int64 record = false) records →
  ∃ e, (store_failed h records db n).2 = Raise e.
Proof.
  intros Hbad.
  destruct (store_failed_loop h records db n) as (added & _ & _ & _ & _ & Hend).
  destruct (store_failed h records db n).2 as [failed_count | e]; [| by exists e].
  destruct Hend as (_ & _ & Hfit & _).
  apply Exists_exists in Hbad as (record & Hin & Hfailed & Hno).
  rewrite Forall_forall in Hfit. specialize (Hfit record Hin Hfailed). congruence.
Qed.

(** The loop over the same records once more, under any digest, on a
    store with the failed calls the first loop left: nothing is added, and
    the loop ends as the first did. *)
Lemma store_failed_again (h h' : string) (records : list CDRRecord)
    (db stored : CDRDatabase) (n n' : Z) :
  (∀ record, record ∈ records → is_Some (date_time_origination record)) →
  failed_calls stored = failed_calls (store_failed h records db n).1 →
  store_failed h' records stored n' =
    (stored,
     match (store_failed h records db n).2 with
     | Ok _ => Ok (n' + failed_count_of records)
     | Raise e => Raise e
     end).
Proof.
  revert db n n'. induction records as [| record records IH]; intros db n n' Htimes Hsame.
  - cbn [store_failed snd]. unfold failed_count_of. rewrite filter_nil. cbn [length].
    by rewrite Z.add_0_r.
  - assert (Hrest : ∀ r, r ∈ records → is_Some (date_time_origination r))
      by (intros r Hr; apply Htimes, elem_of_cons; by right).
    cbn [store_failed] in *. rewrite failed_count_of_cons.
    destruct (is_failed record) eqn:Hfailed.
    + destruct (insert_failed_call db record h) as [db1 | e] eqn:Hinsert.
      * assert (Hclash : existsb (unique_clash (failed_call_of record h'))
                           (failed_calls stored) = true).
        { rewrite Hsame.
          destruct (store_failed_loop h records db1 (n + 1)) as (added & -> & _).
          apply existsb_app_l. eapply insert_failed_call_stored; [| done].
          apply Htimes, elem_of_cons. by left. }
        rewrite insert_failed_call_clash;
          [| by apply insert_failed_call_inv in Hinsert as [? _] | done].
        rewrite (IH db1 (n + 1) (n' + 1) Hrest Hsame).
        destruct (store_failed h records db1 (n + 1)).2; [| done].
        do 2 f_equal. lia.
      * apply (insert_failed_call_Raise db stored record h h') in Hinsert
          as (_ & _ & ->). done.
    + rewrite (IH db n n' Hrest Hsame).
      destruct (store_failed h records db n).2; [| done]. do 2 f_equal.
Qed.

Section IngestionFacts.

Variable fromtimestamp : Z -> result datetime.

Lemma skip_when_processed
    (now : datetime) (st : CDRDatabase * Z * Z) (f : CDRFile) :
  is_file_processed st.1.1 (file_name f) (file_hash f) = true →
  process_file fromtimestamp now st f = (st.1.1, Ok (st.1.2, st.2)).
Proof.
  destruct st as [[db tr] tf]. simpl. intros Hdone.
  unfold process_file. by rewrite Hdone.
Qed.

(** C3: a file whose name is marked processed under the same digest is
    skipped before it is decoded: the pass returns, with the store and the
    running totals as they were, so no failed call is added and the
    marker, with its counts, is the one that was there. *)
Theorem processed_file_skipped
    (now : datetime) (db : CDRDatabase) (total_records total_failed : Z) (f : CDRFile) :
  is_file_processed db (file_name f) (file_hash f) = true →
  process_file fromtimestamp now (db, total_records, total_failed) f =
    (db, Ok (total_records, total_failed)) ∧
  failed_calls (process_file fromtimestamp now (db, total_records, total_failed) f).1 =
    failed_calls db ∧
  processed_files (process_file fromtimestamp now (db, total_records, total_failed) f).1
    !! file_name f = processed_files db !! file_name f.
Proof. intros Hdone. unfold process_file. by rewrite Hdone. Qed.

(** The pass over a file that is not marked, written out. *)
Lemma process_file_fresh (now : datetime) (db : CDRDatabase) (tr tf : Z) (f : CDRFile) :
  is_file_processed db (file_name f) (file_hash f) = false →
  process_file fromtimestamp now (db, tr, tf) f =
    let records := (parse_file fromtimestamp (file_rows f)).1 in
    let stored := store_failed (file_hash f) records db 0 in
    match stored.2 with
    | Ok failed_count =>
        (mark_file_processed stored.1 now (file_name f) (file_hash f)
           (Z.of_nat (length records)) failed_count,
         Ok (tr + Z.of_nat (length records), tf + failed_count))
    | Raise e => (stored.1, Raise e)
    end.
Proof.
  intros Hnew. unfold process_file. rewrite Hnew.
  destruct (parse_file fromtimestamp (file_rows f)) as [records row_count].
  cbn [fst]. by destruct (store_failed _ records db 0) as [db' [failed_count | e]].
Qed.

(** Once a pass has handled a file and returned, the file counts as
    processed. *)
Lemma process_file_marks (now : datetime) (st : CDRDatabase * Z * Z) (f : CDRFile)
    (totals : Z * Z) :
  (process_file fromtimestamp now st f).2 = Ok totals →
  is_file_processed (process_file fromtimestamp now st f).1
    (file_name f) (file_hash f) = true.
Proof.
  destruct st as [[db tr] tf].
  destruct (is_file_processed db (file_name f) (file_hash f)) eqn:Hdone.
  - by rewrite (skip_when_processed now (db, tr, tf) f Hdone).
  - rewrite (process_file_fresh now db tr tf f Hdone). cbn zeta.
    destruct (store_failed _ _ db 0).2; [| done].
    intros _. apply is_file_processed_mark.
Qed.

(** A pass that an exception ends leaves the markers as they were. *)
Lemma process_file_raise_markers (now : datetime) (st : CDRDatabase * Z * Z)
    (f : CDRFile) (e : exn) :
  (process_file fromtimestamp now st f).2 = Raise e →
  processed_files (process_file fromtimestamp now st f).1 = processed_files st.1.1 ∧
  is_file_processed st.1.1 (file_name f) (file_hash f) = false.
Proof.
  destruct st as [[db tr] tf]. cbn [fst].
  destruct (is_file_processed db (file_name f) (file_hash f)) eqn:Hdone.
  - by rewrite (skip_when_processed now (db, tr, tf) f Hdone).
  - rewrite (process_file_fresh now db tr tf f Hdone). cbn zeta.
    destruct (store_failed_loop (file_hash f)
                (parse_file fromtimestamp (file_rows f)).1 db 0)
      as (added & _ & Hmarks & _).
    by destruct (store_failed _ _ db 0).2.
Qed.

(** Handing the same file (same name, same digest) to a second pass, at
    any later time, changes nothing. *)
Lemma reingest_idempotent (now now' : datetime) (st : CDRDatabase * Z * Z)
    (f f' : CDRFile) (totals totals' : Z * Z) :
  file_name f' = file_name f → file_hash f' = file_hash f →
  (process_file fromtimestamp now st f).2 = Ok totals →
  process_file fromtimestamp now'
    ((process_file fromtimestamp now st f).1, totals'.1, totals'.2) f' =
  ((process_file fromtimestamp now st f).1, Ok totals').
Proof.
  intros Hname Hhash Hreturns.
  pose proof (process_file_marks now st f totals Hreturns) as Hdone.
  rewrite skip_when_processed by (by rewrite Hname, Hhash).
  by destruct totals'.
Qed.

(** A pass over files that are all marked processed does nothing and
    reports no record. *)
Lemma process_files_processed (files : list (datetime * CDRFile))
    (st : CDRDatabase * Z * Z) :
  Forall (λ nf, is_file_processed st.1.1 (file_name nf.2) (file_hash nf.2) = true)
    files →
  process_files fromtimestamp files st = (st.1.1, Ok (st.1.2, st.2)).
Proof.
  induction 1 as [| [now f] files Hf Hrest IH]; [done |].
  cbn [process_files]. simpl in Hf.
  rewrite (skip_when_processed now st f Hf).
  by destruct st as [[db tr] tf].
Qed.

Lemma fetch_all_processed (db : CDRDatabase) (files : list (datetime * CDRFile)) :
  Forall (λ nf, is_file_processed db (file_name nf.2) (file_hash nf.2) = true) files →
  fetch_and_process_cdr_files fromtimestamp db files = (db, Ok (0, 0)).
Proof. intros Hall. by apply (process_files_processed files (db, 0, 0)). Qed.

End IngestionFacts.

(** ** Retention *)

Lemma older_than_spec (cutoff : datetime) (row : FailedCall) :
  older_than cutoff row = true ↔
  ∃ t, fc_date_time_origination row = Some t ∧ t < cutoff.
Proof.
  unfold older_than. destruct (fc_date_time_origination row) as [t |].
  - rewrite Z.ltb_lt. split; [by exists t | by intros (t' & [= ->] & Hlt)].
  - split; [done | by intros (t' & [=] & _)].
Qed.

(** C9: the sweep deletes exactly the rows whose origination time is
    strictly before now minus the retention days, keeps every other row
    (a row exactly at the boundary included) in place, and returns the
    number of rows it deleted. *)
Theorem cleanup_old_records_spec (db : CDRDatabase) (now : datetime) (retention_days : Z) :
  let cutoff := now - retention_days * 86400 * 1000000 in
  let strictly_older row := ∃ t, fc_date_time_origination row = Some t ∧ t < cutoff in
  let db' := (cleanup_old_records db now retention_days).1 in
  let deleted := (cleanup_old_records db now retention_days).2 in
  (∀ row, older_than cutoff row = true ↔ strictly_older row) ∧
  (∀ row, row ∈ failed_calls db' ↔ row ∈ failed_calls db ∧ ¬ strictly_older row) ∧
  failed_calls db' = filter (λ row, older_than cutoff row ≠ true) (failed_calls db) ∧
  deleted =
    Z.of_nat (length (filter (λ row, older_than cutoff row = true) (failed_calls db))) ∧
  Z.of_nat (length (failed_calls db')) + deleted = Z.of_nat (length (failed_calls db)) ∧
  (∀ row, row ∈ failed_calls db → fc_date_time_origination row = Some cutoff →
          row ∈ failed_calls db') ∧
  processed_files db' = processed_files db.
Proof.
  intros cutoff strictly_older db' deleted.
  assert (Hcut : now - timedelta_days retention_days = cutoff) by done.
  assert (Hdb' : failed_calls db' =
                 filter (λ row, older_than cutoff row ≠ true) (failed_calls db))
    by (subst db'; unfold cleanup_old_records; by rewrite Hcut).
  assert (Hdel : deleted = Z.of_nat (length
                   (filter (λ row, older_than cutoff row = true) (failed_calls db))))
    by (subst deleted; unfold cleanup_old_records; by rewrite Hcut).
  assert (Hold : ∀ row, older_than cutoff row = true ↔ strictly_older row)
    by (intros row; apply older_than_spec).
  split_and!; try done.
  - intros row. rewrite Hdb', list_elem_of_filter, Hold. tauto.
  - rewrite Hdb', Hdel, <- Nat2Z.inj_add. f_equal.
    rewrite Nat.add_comm, <- length_app.
    apply Permutation_length, filter_app_complement.
  - intros row Hin Hat. rewrite Hdb', list_elem_of_filter. split; [| done].
    rewrite Hold. intros (t & Ht & Hlt). rewrite Hat in Ht. injection Ht as <-. lia.
Qed.

(** ** Cause histogram *)

Lemma fc_primary_cause_code_of (record : CDRRecord) (h : string) :
  fc_primary_cause_code (failed_call_of record h) = primary_cause_code record.
Proof.
  unfold fc_primary_cause_code, primary_cause_code. simpl.
  case_decide; destruct (Z.eqb_spec (dest_cause_value record) 0); simpl; done.
Qed.

Lemma elem_of_insert_code (c x : Z) (codes : list Z) :
  c ∈ insert_code x codes ↔ c = x ∨ c ∈ codes.
Proof.
  induction codes as [| d codes IH]; simpl.
  - rewrite list_elem_of_singleton, elem_of_nil. tauto.
  - destruct (Z.ltb_spec x d); [by rewrite elem_of_cons |].
    destruct (Z.eqb_spec x d) as [-> | Hne].
    + rewrite elem_of_cons. tauto.
    + rewrite !elem_of_cons, IH. tauto.
Qed.

Lemma insert_code_sorted (x : Z) (codes : list Z) :
  StronglySorted Z.lt codes → StronglySorted Z.lt (insert_code x codes).
Proof.
  induction 1 as [| d codes Hsorted IH Hd]; simpl.
  - repeat constructor.
  - destruct (Z.ltb_spec x d) as [Hlt | Hge].
    + constructor; [by constructor |].
      constructor; [done |]. eapply Forall_impl; [exact Hd |]. simpl. lia.
    + destruct (Z.eqb_spec x d) as [-> | Hne]; [by constructor |].
      constructor; [done |].
      apply Forall_forall. intros c Hc.
      apply elem_of_insert_code in Hc as [-> | Hc]; [lia |].
      by eapply Forall_forall in Hd.
Qed.

Lemma elem_of_cause_codes_of (c : Z) (rows : list FailedCall) :
  c ∈ cause_codes_of rows ↔ ∃ row, row ∈ rows ∧ fc_dest_cause_value row = c.
Proof.
  unfold cause_codes_of. induction rows as [| row rows IH]; simpl.
  - rewrite elem_of_nil. split; [done | intros (row & Hin & _); by apply elem_of_nil in Hin].
  - rewrite elem_of_insert_code, IH. split.
    + intros [-> | (row' & Hin & Hc)].
      * exists row. split; [apply elem_of_cons; by left | done].
      * exists row'. split; [apply elem_of_cons; by right | done].
    + intros (row' & Hin & Hc). apply elem_of_cons in Hin as [-> | Hin]; [by left |].
      right. by exists row'.
Qed.

Lemma cause_codes_of_sorted (rows : list FailedCall) :
  StronglySorted Z.lt (cause_codes_of rows).
Proof.
  unfold cause_codes_of. induction rows as [| row rows IH]; simpl.
  - constructor.
  - by apply insert_code_sorted.
Qed.

Lemma StronglySorted_lt_NoDup (codes : list Z) :
  StronglySorted Z.lt codes → NoDup codes.
Proof.
  induction 1 as [| d codes Hsorted IH Hd]; constructor; [| done].
  intros Hin. eapply Forall_forall in Hd; [| exact Hin]. lia.
Qed.

Lemma insert_by_count_perm (b : CauseCount) (sorted : list CauseCount) :
  insert_by_count b sorted ≡ₚ b :: sorted.
Proof.
  induction sorted as [| b' sorted IH]; simpl; [done |].
  destruct (cc_count b' <=? cc_count b); [done |].
  rewrite IH. apply Permutation_swap.
Qed.

Lemma order_by_count_desc_perm (l : list CauseCount) : order_by_count_desc l ≡ₚ l.
Proof.
  unfold order_by_count_desc. induction l as [| b l IH]; simpl; [done |].
  by rewrite insert_by_count_perm, IH.
Qed.

Lemma insert_by_count_sorted (b : CauseCount) (sorted : list CauseCount) :
  StronglySorted count_desc sorted → StronglySorted count_desc (insert_by_count b sorted).
Proof.
  induction 1 as [| b' sorted Hsorted IH Hb']; simpl.
  - repeat constructor.
  - destruct (Z.leb_spec (cc_count b') (cc_count b)) as [Hle | Hgt].
    + constructor; [by constructor |].
      constructor; [unfold count_desc; lia |].
      eapply Forall_impl; [exact Hb' |]. unfold count_desc. simpl. lia.
    + constructor; [done |].
      rewrite insert_by_count_perm. constructor; [unfold count_desc; lia | done].
Qed.

Lemma order_by_count_desc_sorted (l : list CauseCount) :
  StronglySorted count_desc (order_by_count_desc l).
Proof.
  unfold order_by_count_desc. induction l as [| b l IH]; simpl.
  - constructor.
  - by apply insert_by_count_sorted.
Qed.

Lemma elem_of_window_of (db : CDRDatabase) (now : datetime) (hours : Z) (row : FailedCall) :
  row ∈ window_of db now hours ↔
  row ∈ failed_calls db ∧
  ∃ t, fc_date_time_origination row = Some t ∧ now - hours * 3600 * 1000000 ≤ t.
Proof.
  unfold window_of. rewrite list_elem_of_filter. unfold since.
  destruct (fc_date_time_origination row) as [t |].
  - rewrite Z.leb_le. split.
    + intros [Hle Hin]. split; [done | by exists t].
    + intros [Hin (t' & [= ->] & Hle)]. done.
  - split; [intros [[=] _] | intros [_ (t' & [=] & _)]].
Qed.

Lemma by_cause_window (db : CDRDatabase) (now : datetime) (hours : Z) :
  by_cause (get_failure_statistics db now hours) =
  order_by_count_desc
    (cause_count_of (window_of db now hours) <$> cause_codes_of (window_of db now hours)).
Proof. done. Qed.

Lemma elem_of_by_cause (db : CDRDatabase) (now : datetime) (hours : Z) (b : CauseCount) :
  b ∈ by_cause (get_failure_statistics db now hours) ↔
  ∃ row, row ∈ window_of db now hours ∧
         b = cause_count_of (window_of db now hours) (fc_dest_cause_value row).
Proof.
  rewrite by_cause_window, order_by_count_desc_perm, list_elem_of_fmap.
  split.
  - intros (c & -> & Hc). apply elem_of_cause_codes_of in Hc as (row & Hin & <-).
    by exists row.
  - intros (row & Hin & ->). exists (fc_dest_cause_value row). split; [done |].
    apply elem_of_cause_codes_of. by exists row.
Qed.

Lemma cause_count_of_codes (rows : list FailedCall) (codes : list Z) :
  cc_dest_cause_value <$> (cause_count_of rows <$> codes) = codes.
Proof. induction codes as [| c codes IH]; [done |]. rewrite !fmap_cons. by f_equal. Qed.

(** C5, as the code has it: the histogram buckets the failed calls of the
    window by their terminating cause code alone, code 0 included.  There
    is one bucket per terminating code that occurs; it carries the code,
    the reason stored with one of its rows and the number of its rows; the
    buckets are listed by count, largest first.  The terminating code is
    the row's primary cause code when it is nonzero. *)
Theorem by_cause_histogram (db : CDRDatabase) (now : datetime) (hours : Z) :
  let window := window_of db now hours in
  let hist := by_cause (get_failure_statistics db now hours) in
  (∀ row, row ∈ window ↔
          row ∈ failed_calls db ∧
          ∃ t, fc_date_time_origination row = Some t ∧ now - hours * 3600 * 1000000 ≤ t) ∧
  (∀ row, row ∈ window →
          ∃ b, b ∈ hist ∧ cc_dest_cause_value b = fc_dest_cause_value row) ∧
  (∀ b, b ∈ hist →
        cc_count b =
          Z.of_nat (length (filter (λ row, fc_dest_cause_value row = cc_dest_cause_value b)
                              window)) ∧
        0 < cc_count b ∧
        ∃ row, row ∈ window ∧
               fc_dest_cause_value row = cc_dest_cause_value b ∧
               fc_failure_reason row = cc_failure_reason b) ∧
  NoDup (cc_dest_cause_value <$> hist) ∧
  StronglySorted count_desc hist ∧
  (∀ row, row ∈ window → fc_dest_cause_value row ≠ 0 →
          fc_primary_cause_code row = fc_dest_cause_value row).
Proof.
  intros window hist. split_and!.
  - intros row. apply elem_of_window_of.
  - intros row Hin. exists (cause_count_of window (fc_dest_cause_value row)).
    split; [| done]. apply elem_of_by_cause. by exists row.
  - intros b Hb. apply elem_of_by_cause in Hb as (row & Hin & ->). simpl.
    fold window. unfold cause_group.
    set (group := filter (λ r, fc_dest_cause_value r = fc_dest_cause_value row) window).
    assert (Hrow : row ∈ group) by (by apply list_elem_of_filter).
    split_and!; [done | |].
    + destruct group; [by apply elem_of_nil in Hrow | simpl; lia].
    + assert (Hfirst : is_Some (head group)).
      { apply head_is_Some. intros Hnil. rewrite Hnil in Hrow. by apply elem_of_nil in Hrow. }
      destruct Hfirst as [row' Hfirst]. rewrite Hfirst. simpl.
      apply head_Some_elem_of, list_elem_of_filter in Hfirst as [Hcode Hin'].
      by exists row'.
  - subst hist. rewrite by_cause_window, order_by_count_desc_perm.
    rewrite cause_count_of_codes.
    apply StronglySorted_lt_NoDup, cause_codes_of_sorted.
  - apply order_by_count_desc_sorted.
  - intros row _ Hne. unfold fc_primary_cause_code. by case_decide.
Qed.

(** C5 as stated fails: a failed call with terminating cause 0 and
    originating cause 17 has primary cause code 17, yet the histogram
    counts it under code 0 and has no bucket for 17. *)
Lemma by_cause_not_primary :
  (∃ row, failed_calls orig_only_store = [row] ∧
          window_of orig_only_store sample_now 24 = [row] ∧
          fc_primary_cause_code row = 17) ∧
  by_cause (get_failure_statistics orig_only_store sample_now 24) =
    [ {| cc_dest_cause_value := 0; cc_failure_reason := "User busy"; cc_count := 1 |} ] ∧
  ¬ ∃ b, b ∈ by_cause (get_failure_statistics orig_only_store sample_now 24) ∧
         cc_dest_cause_value b = 17.
Proof.
  assert (Hhist : by_cause (get_failure_statistics orig_only_store sample_now 24) =
    [ {| cc_dest_cause_value := 0; cc_failure_reason := "User busy"; cc_count := 1 |} ])
    by (vm_compute; reflexivity).
  split_and!.
  - eexists. split_and!; vm_compute; reflexivity.
  - exact Hhist.
  - rewrite Hhist. intros (b & Hb & Hcode).
    apply list_elem_of_singleton in Hb as ->. simpl in Hcode. lia.
Qed.

(** ** Percentages *)

Lemma or_one_max (total : Z) : 0 ≤ total → or_one total = Z.max total 1.
Proof. unfold or_one. destruct (Z.eqb_spec total 0); lia. Qed.

Lemma or_one_nonzero (total : Z) : or_one total ≠ 0.
Proof. unfold or_one. destruct (Z.eqb_spec total 0); lia. Qed.

Lemma py_truediv_nonzero (a b : Z) : b ≠ 0 → py_truediv a b = Ok (nearest_quotient a b).
Proof. intros Hb. unfold py_truediv. by destruct (Z.eqb_spec b 0). Qed.

Lemma py_truediv_zero (a : Z) : py_truediv a 0 = Raise ZeroDivisionError.
Proof. done. Qed.

Lemma mapM_Ok {A B : Type} (f : A → result B) (g : A → B) (l : list A) :
  (∀ x, f x = Ok (g x)) → mapM f l = Ok (g <$> l).
Proof.
  intros Hfg. induction l as [| x l IH]; [done |].
  cbn. rewrite Hfg. cbn. rewrite IH. done.
Qed.

Lemma total_failed_calls_window (db : CDRDatabase) (now : datetime) (hours : Z) :
  total_failed_calls (get_failure_statistics db now hours) =
  Z.of_nat (length (window_of db now hours)).
Proof. done. Qed.

(** On small operands the quotient is the hardware's division. *)
Example nearest_quotient_div :
  nearest_quotient 2 3 = (2 / 3)%float ∧ nearest_quotient 1 3 = (1 / 3)%float ∧
  nearest_quotient 0 5 = 0%float ∧ nearest_quotient 7 7 = 1%float.
Proof. repeat split; vm_compute; reflexivity. Qed.

Example format_1f_ties :
  format_1f 6.25%float = "6.2" ∧ format_1f 18.75%float = "18.8" ∧
  format_1f 100%float = "100.0" ∧ format_1f 0.25%float = "0.2".
Proof. repeat split; vm_compute; reflexivity. Qed.

(** C6: the percentage of a bucket is [count / max(total, 1) * 100],
    formatted to one decimal, for every bucket and every total of at least
    0; the divisor is never zero, so the cause table is built without a
    division error also when the total is 0.  Counts 2 and 1 out of 3 give
    66.7% and 33.3%. *)
Theorem cause_table_percentages :
  (∀ total item, 0 ≤ total →
     or_one total = Z.max total 1 ∧ or_one total ≠ 0 ∧
     cause_table_row (or_one total) item =
       Ok [ py_str (cc_dest_cause_value item);
            shorten_reason (cc_failure_reason item);
            py_str (cc_count item);
            percentage_text
              (nearest_quotient (cc_count item) (Z.max total 1) * 100)%float ]) ∧
  (∀ stats, 0 ≤ total_failed_calls stats →
     cause_table stats =
       Ok match by_cause stats with
          | [] => None
          | _ :: _ =>
              Some (cause_table_header ::
                ((λ item,
                   [ py_str (cc_dest_cause_value item);
                     shorten_reason (cc_failure_reason item);
                     py_str (cc_count item);
                     percentage_text
                       (nearest_quotient (cc_count item)
                          (Z.max (total_failed_calls stats) 1) * 100)%float ])
                 <$> take 15 (by_cause stats)))
          end) ∧
  (∀ db now hours, 0 ≤ total_failed_calls (get_failure_statistics db now hours)) ∧
  (total_failed_calls (get_failure_statistics busy_store sample_now 24) = 3 ∧
   by_cause (get_failure_statistics busy_store sample_now 24) =
     [ {| cc_dest_cause_value := 17; cc_failure_reason := "User busy"; cc_count := 2 |};
       {| cc_dest_cause_value := 19;
          cc_failure_reason := "No answer from user (user alerted)";
          cc_count := 1 |} ] ∧
   cause_table (get_failure_statistics busy_store sample_now 24) =
     Ok (Some [ cause_table_header;
                [ "17"; "User busy"; "2"; "66.7%" ];
                [ "19"; "No answer from user (user alerted)"; "1"; "33.3%" ] ])).
Proof.
  assert (Hrow : ∀ total item, 0 ≤ total →
            cause_table_row (or_one total) item =
              Ok [ py_str (cc_dest_cause_value item);
                   shorten_reason (cc_failure_reason item);
                   py_str (cc_count item);
                   percentage_text
                     (nearest_quotient (cc_count item) (Z.max total 1) * 100)%float ]).
  { intros total item Htotal. unfold cause_table_row.
    rewrite py_truediv_nonzero by apply or_one_nonzero.
    by rewrite or_one_max. }
  split_and!.
  - intros total item Htotal.
    split_and!; [by apply or_one_max | apply or_one_nonzero | by apply Hrow].
  - intros stats Htotal. unfold cause_table.
    destruct (by_cause stats) as [| item items]; [done |].
    erewrite mapM_Ok; [done |].
    intros x. by apply Hrow.
  - intros db now hours. rewrite total_failed_calls_window. lia.
  - vm_compute. reflexivity.
  - vm_compute. reflexivity.
  - vm_compute. reflexivity.
Qed.

(** C6 as the spec has it fails on a snapshot of sixteen buckets: the
    buckets carry code, reason and count, and the cause table, the one
    place that computes a percentage, has the header and fifteen rows, so
    one bucket gets none. *)
Lemma bucket_without_percentage :
  length (by_cause (get_failure_statistics crowded_store sample_now 24)) = 16%nat ∧
  ∃ rows,
    cause_table (get_failure_statistics crowded_store sample_now 24) = Ok (Some rows) ∧
    length rows = 16%nat ∧
    ∃ item, item ∈ by_cause (get_failure_statistics crowded_store sample_now 24) ∧
            ∀ row, row ∈ rows → head row ≠ Some (py_str (cc_dest_cause_value item)).
Proof.
  split; [vm_compute; reflexivity |].
  eexists. split; [vm_compute; reflexivity |]. split; [reflexivity |].
  eexists. split.
  - assert (Hlast : last (by_cause (get_failure_statistics crowded_store sample_now 24))
                    = Some _) by (vm_compute; reflexivity).
    apply last_Some_elem_of in Hlast. exact Hlast.
  - intros row Hin.
    repeat (apply elem_of_cons in Hin as [-> | Hin]; [vm_compute; congruence |]).
    by apply elem_of_nil in Hin.
Qed.

(** At a total of 0 the divisor is 1. *)
Example cause_table_zero_total :
  cause_table {| total_failed_calls := 0;
                 by_cause := [ {| cc_dest_cause_value := 17;
                                  cc_failure_reason := "User busy";
                                  cc_count := 2 |} ];
                 analysis_period_hours := 24;
                 cutoff_time := sample_now |} =
    Ok (Some [ cause_table_header; [ "17"; "User busy"; "2"; "200.0%" ] ]).
Proof. vm_compute. reflexivity. Qed.

(** ** The statements at the sample data *)

Lemma processed_file_skipped_witness :
  is_file_processed busy_store (file_name busy_file) (file_hash busy_file) = true ∧
  process_file utc_fromtimestamp (sample_now + 60000000) (busy_store, 3, 3) busy_file =
    (busy_store, Ok (3, 3)).
Proof.
  assert (Hdone : is_file_processed busy_store (file_name busy_file) (file_hash busy_file)
                  = true) by (vm_compute; reflexivity).
  split; [exact Hdone |].
  exact (proj1 (processed_file_skipped utc_fromtimestamp (sample_now + 60000000)
                  busy_store 3 3 busy_file Hdone)).
Defined.

Lemma insert_failed_call_duplicate_witness :
  binds_int64 busy_record = true ∧
  failed_call_of busy_record (file_hash busy_file) ∈ failed_calls busy_store ∧
  insert_failed_call busy_store busy_record "0cc175b9c0f1b6a831c399e269772661" =
    Ok busy_store.
Proof.
  assert (Hfits : binds_int64 busy_record = true) by (vm_compute; reflexivity).
  assert (Hin : failed_call_of busy_record (file_hash busy_file) ∈ failed_calls busy_store)
    by (apply (bool_decide_unpack _); vm_compute; reflexivity).
  split_and!; [exact Hfits | exact Hin |].
  apply (insert_failed_call_duplicate busy_store busy_record _
           (failed_call_of busy_record (file_hash busy_file)) 63835596800000000
           Hfits Hin);
    vm_compute; reflexivity.
Defined.

(** C4 as the spec has it fails on a failed call whose key is stored and
    whose originating cause is 2^63, a record the decoder emits for a row
    with that number in field 11: the insert does not return, it raises
    [OverflowError]. *)
Lemma insert_failed_call_overflow :
  parse_row utc_fromtimestamp
    (sample_row "100001" "1700000000" "9223372036854775808" "17" "0")
    = Some overflow_record ∧
  is_failed overflow_record = true ∧
  orig_cause_value overflow_record = 2 ^ 63 ∧
  (∃ old, old ∈ failed_calls busy_store ∧
          fc_global_call_id old = global_call_id overflow_record ∧
          is_Some (fc_date_time_origination old) ∧
          fc_date_time_origination old = date_time_origination overflow_record) ∧
  insert_failed_call busy_store overflow_record (file_hash busy_file) =
    Raise OverflowError.
Proof.
  split_and!; try (vm_compute; reflexivity).
  exists (failed_call_of busy_record (file_hash busy_file)).
  split_and!; try (vm_compute; reflexivity).
  - apply (bool_decide_unpack _). vm_compute. reflexivity.
  - by eexists.
Qed.

Lemma malformed_line_skipped_witness :
  Csv.feed Csv.parse_reset
    [line_of (sample_row "100001" "1700000000" "0" "17" "0")] = Ok Csv.parse_reset ∧
  Csv.own_row (line_of short_row) = Some short_row ∧
  (length short_row < 50)%nat ∧
  parse_row utc_fromtimestamp short_row = None ∧
  parse_lines utc_fromtimestamp
    ([line_of (sample_row "100001" "1700000000" "0" "17" "0")] ++
     line_of short_row ::
     [line_of (sample_row "100002" "1700000100" "0" "19" "0")]) =
  ((parse_lines utc_fromtimestamp
      ([line_of (sample_row "100001" "1700000000" "0" "17" "0")] ++
       [line_of (sample_row "100002" "1700000100" "0" "19" "0")])).1,
   (parse_lines utc_fromtimestamp
      ([line_of (sample_row "100001" "1700000000" "0" "17" "0")] ++
       [line_of (sample_row "100002" "1700000100" "0" "19" "0")])).2 + 1).
Proof.
  assert (Hpre : Csv.feed Csv.parse_reset
                   [line_of (sample_row "100001" "1700000000" "0" "17" "0")]
                 = Ok Csv.parse_reset) by (vm_compute; reflexivity).
  assert (Hline : Csv.own_row (line_of short_row) = Some short_row)
    by (vm_compute; reflexivity).
  assert (Hshort : (length short_row < 50)%nat) by (vm_compute; lia).
  split_and!; [exact Hpre | exact Hline | exact Hshort | |];
    apply (malformed_line_skipped utc_fromtimestamp
             [line_of (sample_row "100001" "1700000000" "0" "17" "0")]
             [line_of (sample_row "100002" "1700000100" "0" "19" "0")]
             (line_of short_row) short_row Hpre Hline (or_introl Hshort)).
Defined.

(** C7 as the spec has it fails on a line that opens a quote and does not
    close it.  Alone, the line is a row of two fields; between two call
    legs it takes the leg after it into its second field: the leg is not
    decoded and is not counted. *)
Lemma open_quote_swallows_line :
  (Csv.reader [open_quote_line]).1 =
    [ [ "1"; "x" +:+ String "010"%char "" ] ] ∧
  global_call_id <$>
    (parse_lines utc_fromtimestamp
       [ line_of (sample_row "100001" "1700000000" "0" "17" "0");
         line_of (sample_row "100002" "1700000100" "0" "19" "0") ]).1 =
    [ "1-100001"; "1-100002" ] ∧
  (parse_lines utc_fromtimestamp
     [ line_of (sample_row "100001" "1700000000" "0" "17" "0");
       line_of (sample_row "100002" "1700000100" "0" "19" "0") ]).2 = 2 ∧
  global_call_id <$>
    (parse_lines utc_fromtimestamp
       [ line_of (sample_row "100001" "1700000000" "0" "17" "0");
         open_quote_line;
         line_of (sample_row "100002" "1700000100" "0" "19" "0") ]).1 =
    [ "1-100001" ] ∧
  (parse_lines utc_fromtimestamp
     [ line_of (sample_row "100001" "1700000000" "0" "17" "0");
       open_quote_line;
       line_of (sample_row "100002" "1700000100" "0" "19" "0") ]).2 = 2 ∧
  parse_lines utc_fromtimestamp
    ([ line_of (sample_row "100001" "1700000000" "0" "17" "0") ] ++
     open_quote_line ::
     [ line_of (sample_row "100002" "1700000100" "0" "19" "0") ]) ≠
  ((parse_lines utc_fromtimestamp
      ([ line_of (sample_row "100001" "1700000000" "0" "17" "0") ] ++
       [ line_of (sample_row "100002" "1700000100" "0" "19" "0") ])).1,
   (parse_lines utc_fromtimestamp
      ([ line_of (sample_row "100001" "1700000000" "0" "17" "0") ] ++
       [ line_of (sample_row "100002" "1700000100" "0" "19" "0") ])).2 + 1).
Proof.
  split_and!; try (vm_compute; reflexivity).
  intros Heq. apply (f_equal snd) in Heq. vm_compute in Heq. discriminate Heq.
Qed.

(** The decoder on the sample rows: three rows scanned, two records. *)
Example parse_file_sample :
  (parse_file utc_fromtimestamp
     [ sample_row "100001" "1700000000" "0" "17" "0"; short_row;
       sample_row "100002" "0" "0" "19" "0";
       sample_row "100003" "1700000200" "0" "16" "42" ]).2 = 4 ∧
  global_call_id <$>
    (parse_file utc_fromtimestamp
       [ sample_row "100001" "1700000000" "0" "17" "0"; short_row;
         sample_row "100002" "0" "0" "19" "0";
         sample_row "100003" "1700000200" "0" "16" "42" ]).1 = [ "1-100001"; "1-100003" ].
Proof. split; vm_compute; reflexivity. Qed.

(** A row whose record type is written with FS before the digit is no
    call leg to the decoder, and a time written so is absent. *)
Example parse_row_separator :
  parse_row utc_fromtimestamp
    (<[0%nat := String "028"%char "1"]> (sample_row "100001" "1700000000" "0" "17" "0"))
    = None ∧
  _parse_timestamp utc_fromtimestamp (String "028"%char "5") = Ok None ∧
  is_Some (parse_row utc_fromtimestamp
             (<[0%nat := String "032"%char "1"]>
                (sample_row "100001" "1700000000" "0" "17" "0"))).
Proof. split_and!; [vm_compute; reflexivity .. |]. vm_compute. by eexists. Qed.

(** A file of the same name with other bytes is taken up again. *)
Example changed_file_reprocessed :
  is_file_processed busy_store (file_name busy_file) "d41d8cd98f00b204e9800998ecf8427e"
  = false.
Proof. vm_compute. reflexivity. Qed.

(** The sweep at the sample store: with the boundary on the second call,
    only the first is deleted. *)
Example cleanup_sample :
  (cleanup_old_records busy_store (63835596900000000 + 7 * 86400 * 1000000) 7).2 = 1 ∧
  fc_global_call_id <$>
    failed_calls (cleanup_old_records busy_store
                    (63835596900000000 + 7 * 86400 * 1000000) 7).1 =
  [ "1-100002"; "1-100003" ].
Proof. split; vm_compute; reflexivity. Qed.

(** * Further properties *)

(** ** Integers and text *)

Lemma lstrip_no_space (s : string) :
  all_chars (λ c, negb (is_space c)) s = true → lstrip s = s.
Proof. destruct s as [| c s]; simpl; [done |]. by destruct (is_space c). Qed.

Lemma rstrip_no_space (s : string) :
  all_chars (λ c, negb (is_space c)) s = true → rstrip s = s.
Proof.
  induction s as [| c s IH]; simpl; [done |].
  intros [Hc Hs]%andb_true_iff. rewrite (IH Hs).
  destruct s; [| done]. by destruct (is_space c).
Qed.

Lemma strip_no_space (s : string) :
  all_chars (λ c, negb (is_space c)) s = true → strip s = s.
Proof.
  intros Hs. unfold strip. rewrite (lstrip_no_space _ Hs). by apply rstrip_no_space.
Qed.

Lemma all_chars_impl (test test' : ascii → bool) (s : string) :
  (∀ c, test c = true → test' c = true) →
  all_chars test s = true → all_chars test' s = true.
Proof.
  intros Himpl. induction s as [| c s IH]; simpl; [done |].
  intros [Hc Hs]%andb_true_iff. by rewrite (Himpl _ Hc), (IH Hs).
Qed.

Lemma is_digit_no_space (c : ascii) : is_digit c = true → negb (is_space c) = true.
Proof.
  destruct c as [[] [] [] [] [] [] [] []]; vm_compute; congruence.
Qed.

Lemma string_of_uint_digits (d : Decimal.uint) :
  all_chars is_digit (NilEmpty.string_of_uint d) = true.
Proof. induction d; simpl; try done. Qed.

Lemma parse_digits_digit (c : ascii) (s : string) (acc k : Z) (after_digit : bool) :
  digit_of c = Some k →
  parse_digits (String c s) acc after_digit = parse_digits s (10 * acc + k) true.
Proof. intros Hc. cbn [parse_digits]. by rewrite Hc. Qed.

Lemma parse_digits_uint (d : Decimal.uint) (acc : Z) (after_digit : bool) :
  d ≠ Decimal.Nil ∨ after_digit = true →
  parse_digits (NilEmpty.string_of_uint d) acc after_digit = Some (uint_value d acc).
Proof.
  revert acc after_digit.
  induction d as [| d IH | d IH | d IH | d IH | d IH | d IH | d IH | d IH | d IH | d IH];
    intros acc after_digit Hd;
    [ by destruct Hd as [Hd | ->] | .. ];
    cbn [NilEmpty.string_of_uint uint_value];
    erewrite parse_digits_digit by (vm_compute; reflexivity);
    rewrite IH by (by right); by rewrite ?Z.add_0_r.
Qed.

Lemma uint_value_of_uint_acc (d : Decimal.uint) (acc : positive) :
  Z.pos (Pos.of_uint_acc d acc) = uint_value d (Z.pos acc).
Proof.
  revert acc. induction d; intros acc; cbn -[Z.mul Z.add Pos.mul Pos.add]; [done | ..];
    rewrite IHd; f_equal; lia.
Qed.

Lemma uint_value_of_uint (d : Decimal.uint) :
  Z.of_N (Pos.of_uint d) = uint_value d 0.
Proof.
  induction d; cbn -[Z.mul Z.add]; [done | done | ..];
    by rewrite uint_value_of_uint_acc.
Qed.

Lemma py_str_pos (p : positive) :
  py_str (Z.pos p) = NilEmpty.string_of_uint (Pos.to_uint p).
Proof.
  unfold py_str. simpl. unfold NilZero.string_of_uint.
  pose proof (DecimalPos.Unsigned.to_uint_nonnil p) as Hnil.
  by destruct (Pos.to_uint p).
Qed.

Lemma py_str_neg (p : positive) :
  py_str (Z.neg p) = String "-" (NilEmpty.string_of_uint (Pos.to_uint p)).
Proof.
  unfold py_str. simpl. unfold NilZero.string_of_uint.
  pose proof (DecimalPos.Unsigned.to_uint_nonnil p) as Hnil.
  by destruct (Pos.to_uint p).
Qed.

Lemma uint_value_to_uint (p : positive) : uint_value (Pos.to_uint p) 0 = Z.pos p.
Proof.
  rewrite <- uint_value_of_uint, DecimalPos.Unsigned.of_to. done.
Qed.

(** The text of an integer has no blank in it. *)
Lemma py_str_no_space (n : Z) :
  all_chars (λ c, negb (is_space c)) (py_str n) = true.
Proof.
  destruct n as [| p | p].
  - done.
  - rewrite py_str_pos. eapply all_chars_impl; [apply is_digit_no_space |].
    apply string_of_uint_digits.
  - rewrite py_str_neg. simpl.
    eapply all_chars_impl; [apply is_digit_no_space |].
    apply string_of_uint_digits.
Qed.

Lemma py_str_truthy (n : Z) : truthy (py_str n) = true.
Proof.
  destruct n as [| p | p]; [done | | by rewrite py_str_neg].
  rewrite py_str_pos.
  pose proof (DecimalPos.Unsigned.to_uint_nonnil p) as Hnil.
  by destruct (Pos.to_uint p).
Qed.

Lemma strip_py_str (n : Z) : strip (py_str n) = py_str n.
Proof. apply strip_no_space, py_str_no_space. Qed.

Lemma skip_leading_no_space (s : string) :
  all_chars (λ c, negb (is_int_space c)) s = true → skip_leading s = s.
Proof. destruct s as [| c s]; simpl; [done |]. by destruct (is_int_space c). Qed.

Lemma skip_trailing_no_space (s : string) :
  all_chars (λ c, negb (is_int_space c)) s = true → skip_trailing s = s.
Proof.
  induction s as [| c s IH]; simpl; [done |].
  intros [Hc Hs]%andb_true_iff. rewrite (IH Hs).
  destruct s; [| done]. by destruct (is_int_space c).
Qed.

(** What [int()] skips, [str.strip()] removes. *)
Lemma is_int_space_is_space (c : ascii) : is_int_space c = true → is_space c = true.
Proof. destruct c as [[] [] [] [] [] [] [] []]; vm_compute; congruence. Qed.

Lemma skip_py_str (n : Z) : skip_trailing (skip_leading (py_str n)) = py_str n.
Proof.
  assert (Hs : all_chars (λ c, negb (is_int_space c)) (py_str n) = true).
  { eapply all_chars_impl; [| apply py_str_no_space].
    intros c Hc. cbv beta in *. destruct (is_int_space c) eqn:Hi; [| done].
    by rewrite (is_int_space_is_space c Hi) in Hc. }
  by rewrite (skip_leading_no_space _ Hs), (skip_trailing_no_space _ Hs).
Qed.

(** ** The limit on the length of a number *)

Lemma count_digits_nonneg (s : string) : 0 ≤ count_digits s.
Proof. induction s as [| c s IH]; simpl; [done |]. destruct (digit_of c); lia. Qed.

Lemma count_digits_digit (c : ascii) (s : string) (k : Z) :
  digit_of c = Some k → count_digits (String c s) = Z.succ (count_digits s).
Proof. intros Hc. cbn [count_digits]. rewrite Hc. lia. Qed.

Lemma uint_value_shift (d : Decimal.uint) (acc : Z) :
  uint_value d acc =
    acc * 10 ^ count_digits (NilEmpty.string_of_uint d) + uint_value d 0.
Proof.
  revert acc.
  induction d as [| d IH | d IH | d IH | d IH | d IH | d IH | d IH | d IH | d IH | d IH];
    intros acc; [cbn; lia | ..];
    cbn [NilEmpty.string_of_uint uint_value];
    pose proof (count_digits_nonneg (NilEmpty.string_of_uint d)) as Hlen;
    erewrite count_digits_digit by (vm_compute; reflexivity);
    rewrite Z.pow_succ_r by done;
    rewrite IH; symmetry; rewrite IH; lia.
Qed.

Lemma uint_value_nonneg (d : Decimal.uint) (acc : Z) : 0 ≤ acc → 0 ≤ uint_value d acc.
Proof.
  revert acc. induction d; intros acc Hacc; cbn [uint_value]; [done | ..];
    apply IHd; lia.
Qed.

(** A digit sequence that does not start with 0 denotes a number of its
    length. *)
Lemma uint_value_length (d : Decimal.uint) :
  (∀ d', d ≠ Decimal.D0 d') → d ≠ Decimal.Nil →
  10 ^ (count_digits (NilEmpty.string_of_uint d) - 1) ≤ uint_value d 0.
Proof.
  intros Hhead Hnil.
  destruct d as [| d | d | d | d | d | d | d | d | d | d];
    [done | by destruct (Hhead d) | ..];
    cbn [NilEmpty.string_of_uint uint_value];
    erewrite count_digits_digit by (vm_compute; reflexivity);
    rewrite uint_value_shift;
    pose proof (uint_value_nonneg d 0 (Z.le_refl 0)) as Hpos;
    pose proof (count_digits_nonneg (NilEmpty.string_of_uint d)) as Hlen;
    replace (Z.succ (count_digits (NilEmpty.string_of_uint d)) - 1)
      with (count_digits (NilEmpty.string_of_uint d)) by lia;
    assert (0 < 10 ^ count_digits (NilEmpty.string_of_uint d))
      by (apply Z.pow_pos_nonneg; lia);
    nia.
Qed.

Lemma to_uint_head (p : positive) (d' : Decimal.uint) :
  Pos.to_uint p ≠ Decimal.D0 d'.
Proof.
  pose proof (DecimalPos.Unsigned.to_of (Pos.to_uint p)) as Hnorm.
  rewrite DecimalPos.Unsigned.of_to in Hnorm. cbn [N.to_uint] in Hnorm.
  intros Hzero. pose proof (DecimalPos.Unsigned.to_uint_nonzero p) as Hnz.
  rewrite Hzero in Hnorm, Hnz.
  unfold Decimal.unorm in Hnorm. rewrite DecimalFacts.nzhead_D0 in Hnorm.
  destruct (Decimal.nzhead d') eqn:Hhead; try discriminate.
  - by injection Hnorm as ->.
  - by apply DecimalFacts.nzhead_nonzero in Hhead.
Qed.

(** An integer below [10 ^ max_str_digits] is written with at most
    [max_str_digits] digits. *)
Lemma count_digits_to_uint (p : positive) :
  Z.pos p < 10 ^ max_str_digits →
  count_digits (NilEmpty.string_of_uint (Pos.to_uint p)) ≤ max_str_digits.
Proof.
  intros Hp.
  pose proof (uint_value_length (Pos.to_uint p) (to_uint_head p)
                (DecimalPos.Unsigned.to_uint_nonnil p)) as Hlen.
  rewrite uint_value_to_uint in Hlen.
  destruct (Z_le_gt_dec (count_digits (NilEmpty.string_of_uint (Pos.to_uint p)))
              max_str_digits) as [| Hlong]; [done |].
  assert (10 ^ max_str_digits ≤
          10 ^ (count_digits (NilEmpty.string_of_uint (Pos.to_uint p)) - 1))
    by (apply Z.pow_le_mono_r; unfold max_str_digits in *; lia).
  lia.
Qed.

(** [int] reads back what [str] wrote. *)
Lemma py_int_py_str (n : Z) :
  Z.abs n < 10 ^ max_str_digits → py_int (py_str n) = Some n.
Proof.
  intros Hn. unfold py_int. rewrite skip_py_str.
  destruct n as [| p | p].
  - done.
  - rewrite py_str_pos.
    pose proof (DecimalPos.Unsigned.to_uint_nonnil p) as Hnil.
    pose proof (string_of_uint_digits (Pos.to_uint p)) as Hdig.
    pose proof (parse_digits_uint (Pos.to_uint p) 0 false (or_introl Hnil)) as Hparse.
    pose proof (count_digits_to_uint p Hn) as Hcount.
    rewrite uint_value_to_uint in Hparse.
    destruct (NilEmpty.string_of_uint (Pos.to_uint p)) as [| c t] eqn:Hs.
    + by destruct (Pos.to_uint p).
    + simpl in Hdig. apply andb_true_iff in Hdig as [Hc _].
      assert (Ascii.eqb c "-" = false ∧ Ascii.eqb c "+" = false) as [-> ->].
      { revert Hc. clear. destruct c as [[] [] [] [] [] [] [] []]; vm_compute; done. }
      cbn [orb]. by rewrite (proj2 (Z.ltb_ge _ _) Hcount).
  - rewrite py_str_neg.
    pose proof (DecimalPos.Unsigned.to_uint_nonnil p) as Hnil.
    pose proof (count_digits_to_uint p Hn) as Hcount.
    change (Ascii.eqb "-" "-") with true. cbn [orb].
    rewrite (proj2 (Z.ltb_ge _ _) Hcount).
    rewrite (parse_digits_uint (Pos.to_uint p) 0 false (or_introl Hnil)).
    by rewrite uint_value_to_uint.
Qed.

(** ** What [int] rejects *)

Lemma count_digits_skip_leading (s : string) :
  count_digits (skip_leading s) = count_digits s.
Proof.
  induction s as [| c s IH]; [done |]. cbn [skip_leading].
  destruct (is_int_space c) eqn:Hc; [| done]. rewrite IH. cbn [count_digits].
  assert (Hd : digit_of c = None); [| by rewrite Hd].
  revert Hc. clear. destruct c as [[] [] [] [] [] [] [] []]; vm_compute; congruence.
Qed.

Lemma count_digits_skip_trailing (s : string) :
  count_digits (skip_trailing s) = count_digits s.
Proof.
  induction s as [| c s IH]; [done |]. cbn [skip_trailing count_digits].
  rewrite <- IH. destruct (skip_trailing s) as [| c' t]; [| done].
  destruct (is_int_space c) eqn:Hc; [| done].
  assert (Hd : digit_of c = None); [| by rewrite Hd].
  revert Hc. clear. destruct c as [[] [] [] [] [] [] [] []]; vm_compute; congruence.
Qed.

(** A text of more than [max_str_digits] digits is rejected. *)
Lemma py_int_too_long (s : string) :
  max_str_digits < count_digits s → py_int s = None.
Proof.
  intros Hlong. unfold py_int.
  pose proof (count_digits_skip_trailing (skip_leading s)) as Hcount.
  rewrite count_digits_skip_leading in Hcount.
  destruct (skip_trailing (skip_leading s)) as [| c t]; [done |].
  assert (Hbody : count_digits (if Ascii.eqb c "-" || Ascii.eqb c "+" then t
                                else String c t) = count_digits s).
  { rewrite <- Hcount.
    destruct (Ascii.eqb_spec c "-") as [-> | _]; [done |].
    by destruct (Ascii.eqb_spec c "+") as [-> | _]. }
  cbv beta iota zeta. rewrite Hbody. by rewrite (proj2 (Z.ltb_lt _ _) Hlong).
Qed.

Lemma parse_digits_foreign (pre post : string) (c : ascii) (acc : Z) (after_digit : bool) :
  digit_of c = None → Ascii.eqb c "_" = false →
  parse_digits (pre +:+ String c post) acc after_digit = None.
Proof.
  intros Hd Hu. revert acc after_digit.
  induction pre as [| c' pre IH]; intros acc after_digit.
  - change ("" +:+ String c post) with (String c post).
    cbn [parse_digits]. by rewrite Hd, Hu.
  - change (String c' pre +:+ String c post)
      with (String c' (pre +:+ String c post)).
    cbn [parse_digits]. destruct (digit_of c'); [apply IH |].
    destruct (Ascii.eqb c' "_" && after_digit); [apply IH | done].
Qed.

Lemma skip_leading_foreign (pre post : string) (c : ascii) :
  is_int_space c = false →
  ∃ pre', skip_leading (pre +:+ String c post) = pre' +:+ String c post.
Proof.
  intros Hc. induction pre as [| c' pre IH].
  - exists "". change ("" +:+ String c post) with (String c post).
    cbn [skip_leading]. by rewrite Hc.
  - change (String c' pre +:+ String c post)
      with (String c' (pre +:+ String c post)).
    cbn [skip_leading]. destruct (is_int_space c'); [done |].
    by exists (String c' pre).
Qed.

Lemma skip_trailing_foreign (pre post : string) (c : ascii) :
  is_int_space c = false →
  ∃ post', skip_trailing (pre +:+ String c post) = pre +:+ String c post'.
Proof.
  intros Hc. induction pre as [| c' pre IH].
  - change ("" +:+ String c post) with (String c post). cbn [skip_trailing].
    destruct (skip_trailing post) as [| c'' t].
    + exists "". by rewrite Hc.
    + by exists (String c'' t).
  - change (String c' pre +:+ String c post)
      with (String c' (pre +:+ String c post)).
    cbn [skip_trailing]. destruct IH as [post' ->].
    exists post'. by destruct pre.
Qed.

(** A text with a character no number is written with is rejected. *)
Lemma py_int_foreign (pre post : string) (c : ascii) :
  is_number_char c = false → py_int (pre +:+ String c post) = None.
Proof.
  unfold is_number_char. rewrite !orb_false_iff.
  intros ((((Hdigit & Hspace) & Hplus) & Hminus) & Hunder).
  assert (Hd : digit_of c = None).
  { unfold is_digit in Hdigit. apply bool_decide_eq_false in Hdigit.
    destruct (digit_of c); [| done]. by destruct Hdigit. }
  unfold py_int.
  destruct (skip_leading_foreign pre post c Hspace) as [pre' ->].
  destruct (skip_trailing_foreign pre' post c Hspace) as [post' ->].
  destruct pre' as [| c' pre'].
  - change ("" +:+ String c post') with (String c post').
    cbv beta iota zeta. rewrite Hminus, Hplus. cbn [orb].
    destruct (max_str_digits <? _); [done |].
    exact (parse_digits_foreign "" post' c 0 false Hd Hunder).
  - change (String c' pre' +:+ String c post')
      with (String c' (pre' +:+ String c post')).
    cbv beta iota zeta. destruct (max_str_digits <? _); [done |].
    destruct (Ascii.eqb c' "-").
    { by rewrite (parse_digits_foreign pre' post' c 0 false Hd Hunder). }
    destruct (Ascii.eqb c' "+").
    { by rewrite (parse_digits_foreign pre' post' c 0 false Hd Hunder). }
    exact (parse_digits_foreign (String c' pre') post' c 0 false Hd Hunder).
Qed.

(** X1: [_safe_int] reads back every integer that [str] can print,
    whatever the default, and gives the default for an empty text and for
    a text [int] rejects; it has no other outcome.  Among the texts [int]
    rejects are those of more than 4300 digits and those with a character
    that is no digit, sign, underscore, TAB..CR or blank (FS..US, which
    [strip] removes, are such characters). *)
Theorem _safe_int_total (default : Z) :
  (∀ n, Z.abs n < 10 ^ max_str_digits → _safe_int (py_str n) default = n) ∧
  _safe_int "" default = default ∧
  (∀ value, py_int value = None → _safe_int value default = default) ∧
  (∀ value, _safe_int value default = default ∨
            py_int value = Some (_safe_int value default)) ∧
  (∀ value, max_str_digits < count_digits value → _safe_int value default = default) ∧
  (∀ pre c post, is_number_char c = false →
                 _safe_int (pre +:+ String c post) default = default) ∧
  (∀ c, (28 ≤ nat_of_ascii c ≤ 31)%nat →
        is_space c = true ∧ is_number_char c = false).
Proof.
  assert (Hbad : ∀ value, py_int value = None → _safe_int value default = default).
  { intros value Hbad. unfold _safe_int. rewrite Hbad. by destruct (truthy value). }
  split_and!.
  - intros n Hn. unfold _safe_int. by rewrite py_str_truthy, py_int_py_str.
  - done.
  - exact Hbad.
  - intros value. unfold _safe_int.
    destruct (truthy value); [| by left].
    destruct (py_int value); [by right | by left].
  - intros value Hlong. by apply Hbad, py_int_too_long.
  - intros pre c post Hc. by apply Hbad, py_int_foreign.
  - intros c Hc. destruct c as [[] [] [] [] [] [] [] []];
      vm_compute in Hc; try lia; by vm_compute.
Qed.

(** FS before a digit: [strip] removes it, [int] does not skip it. *)
Example _safe_int_separator :
  strip (String "028"%char "5") = "5" ∧
  py_int (String "028"%char "5") = None ∧
  _safe_int (String "028"%char "5") 7 = 7 ∧
  _safe_int (String "009"%char "5") 7 = 5.
Proof. split_and!; vm_compute; reflexivity. Qed.

(** 4300 digits are read, 4301 are not. *)
Example _safe_int_long :
  count_digits (string_of_list_ascii (replicate 4300 "1"%char)) = 4300 ∧
  _safe_int (string_of_list_ascii (replicate 4300 "1"%char)) 7 `mod` 10 = 1 ∧
  _safe_int (string_of_list_ascii (replicate 4301 "1"%char)) 7 = 7.
Proof. split_and!; vm_compute; reflexivity. Qed.

(** ** Field lookup *)

Lemma strip_empty_or (v : string) : (if truthy v then strip v else "") = strip v.
Proof. by destruct v. Qed.

Lemma scan_fields_unknown (fields : list (nat * string)) (row : list string)
    (name : string) :
  name ∉ fields.*2 → scan_fields fields row name = "".
Proof.
  induction fields as [| [idx name'] fields IH]; simpl; [done |].
  intros Hnot. apply not_elem_of_cons in Hnot as [Hne Hnot].
  destruct (String.eqb_spec name' name) as [-> | _]; [done |]. simpl. by apply IH.
Qed.

Lemma scan_fields_bound (fields : list (nat * string)) (row : list string)
    (name : string) (idx : nat) :
  NoDup fields.*2 → (idx, name) ∈ fields →
  scan_fields fields row name =
    match row !! idx with
    | Some v => strip v
    | None => ""
    end.
Proof.
  induction fields as [| [idx' name'] fields IH]; simpl.
  - intros _ Hin. by apply elem_of_nil in Hin.
  - intros Hnodup Hin. apply NoDup_cons in Hnodup as [Hfresh Hnodup].
    apply elem_of_cons in Hin as [[= -> ->] | Hin].
    + rewrite String.eqb_refl. simpl.
      destruct (Nat.ltb_spec idx' (length row)) as [Hlt | Hge].
      * destruct (row !! idx') as [v |] eqn:Hv; [apply strip_empty_or | done].
      * rewrite (lookup_ge_None_2 row idx') by lia. by apply scan_fields_unknown.
    + destruct (String.eqb_spec name' name) as [-> | _]; [| by apply IH].
      exfalso. apply Hfresh. apply list_elem_of_fmap. by exists (idx, name).
Qed.

Lemma CDR_FIELDS_names_NoDup : NoDup CDR_FIELDS.*2.
Proof. apply (bool_decide_unpack _). vm_compute. reflexivity. Qed.

(** X2: [_get_field] is a lookup by name: for a name the schema binds to an
    ordinal it is the trimmed field at that ordinal, and the empty string
    when the row does not reach the ordinal; a name the schema does not
    know gives the empty string. *)
Theorem _get_field_lookup (row : list string) (name : string) :
  (∀ idx v, (idx, name) ∈ CDR_FIELDS → row !! idx = Some v →
            _get_field row name = strip v) ∧
  (∀ idx, (idx, name) ∈ CDR_FIELDS → (length row ≤ idx)%nat →
          _get_field row name = "") ∧
  (name ∉ CDR_FIELDS.*2 → _get_field row name = "").
Proof.
  unfold _get_field. split_and!.
  - intros idx v Hin Hv.
    by rewrite (scan_fields_bound _ _ _ idx CDR_FIELDS_names_NoDup Hin), Hv.
  - intros idx Hin Hlen.
    rewrite (scan_fields_bound _ _ _ idx CDR_FIELDS_names_NoDup Hin).
    by rewrite (lookup_ge_None_2 row idx).
  - apply scan_fields_unknown.
Qed.

Lemma lstrip_head (s : string) (c : ascii) (t : string) :
  lstrip s = String c t → is_space c = false.
Proof.
  induction s as [| c' s IH]; simpl; [done |].
  destruct (is_space c') eqn:Hc'; [done |]. by intros [= <- _].
Qed.

Lemma rstrip_head (s : string) (c : ascii) (t : string) :
  rstrip s = String c t → ∃ t', s = String c t'.
Proof.
  destruct s as [| c' s]; simpl; [done |].
  destruct (rstrip s); [destruct (is_space c'); [done |] |]; intros [= <- _]; eauto.
Qed.

Lemma rstrip_last (s t : string) (c : ascii) :
  rstrip s = t +:+ String c "" → is_space c = false.
Proof.
  revert t. induction s as [| c' s IH]; intros t; simpl.
  - by destruct t.
  - destruct (rstrip s) as [| c'' r] eqn:Hr.
    + destruct (is_space c') eqn:Hc'; [by destruct t |].
      destruct t as [| d t]; simpl; [by intros [= <-] |].
      intros [= _ Ht]. by destruct t.
    + destruct t as [| d t]; simpl; [done |].
      intros [= _ Ht]. by apply (IH t).
Qed.

(** X3: the value [_get_field] returns is trimmed: it neither starts nor
    ends with a blank, and trimming it again changes nothing. *)
Theorem _get_field_trimmed (row : list string) (name : string) :
  (∀ c t, _get_field row name = String c t → is_space c = false) ∧
  (∀ t c, _get_field row name = t +:+ String c "" → is_space c = false) ∧
  strip (_get_field row name) = _get_field row name.
Proof.
  assert (Hcases : _get_field row name = "" ∨ ∃ v, _get_field row name = strip v).
  { unfold _get_field. generalize CDR_FIELDS. intros fields.
    induction fields as [| [idx name'] fields IH]; simpl; [by left |].
    destruct (_ && _); [| done].
    destruct (row !! idx) as [v |]; [| by left].
    right. exists v. apply strip_empty_or. }
  assert (Hhead : ∀ c t, _get_field row name = String c t → is_space c = false).
  { intros c t Hr. destruct Hcases as [Hnil | [v Hv]]; [congruence |].
    rewrite Hv in Hr. unfold strip in Hr.
    destruct (rstrip_head _ _ _ Hr) as [t' Ht']. by eapply lstrip_head. }
  assert (Hlast : ∀ t c, _get_field row name = t +:+ String c "" → is_space c = false).
  { intros t c Hr. destruct Hcases as [Hnil | [v Hv]].
    - rewrite Hnil in Hr. by destruct t.
    - rewrite Hv in Hr. by eapply rstrip_last. }
  split_and!; [done | done |].
  assert (Hl : lstrip (_get_field row name) = _get_field row name).
  { destruct (_get_field row name) as [| c t] eqn:Hr; [done |].
    simpl. by rewrite (Hhead c t). }
  unfold strip. rewrite Hl.
  clear Hl Hhead Hcases. revert Hlast.
  generalize (_get_field row name). intros s.
  induction s as [| c s IH]; intros Hlast; simpl; [done |].
  rewrite IH.
  - destruct s; [| done]. by rewrite (Hlast "" c).
  - intros t c' Ht. apply (Hlast (String c t)). simpl. by rewrite Ht.
Qed.

(** ** More on the decoder *)

(** Proves that the schema binds a name to an ordinal. *)
Ltac bound_field := apply (bool_decide_unpack _); vm_compute; reflexivity.

(** Opens the cases of a hypothesis and closes the contradictory ones. *)
Ltac open_cases :=
  repeat match goal with
         | H : ∃ _, _ |- _ => destruct H
         | H : _ ∧ _ |- _ => destruct H
         | H : _ ∨ _ |- _ => destruct H
         end;
  simplify_eq; try done; try lia; try congruence.

Lemma _get_field_at (row : list string) (name : string) (idx : nat) :
  (idx, name) ∈ CDR_FIELDS → _get_field row name = field_at row idx.
Proof.
  intros Hin. unfold _get_field, field_at.
  rewrite (scan_fields_bound _ _ _ idx CDR_FIELDS_names_NoDup Hin).
  by destruct (row !! idx).
Qed.

Section MoreDecoderFacts.

Variable fromtimestamp : Z -> result datetime.

Lemma _parse_timestamp_eq (s : string) :
  _parse_timestamp fromtimestamp s =
    match py_int s with
    | None => Ok None
    | Some epoch =>
        if 0 <? epoch then
          match fromtimestamp epoch with
          | Ok d => Ok (Some d)
          | Raise ValueError | Raise TypeError => Ok None
          | Raise e => Raise e
          end
        else Ok None
    end.
Proof.
  unfold _parse_timestamp. destruct s as [| c s]; [done |].
  cbn [truthy]. destruct (py_int (String c s)) as [epoch |]; [| done].
  destruct (0 <? epoch); [| done].
  by destruct (fromtimestamp epoch) as [d | []].
Qed.

(** X4: [_parse_timestamp] gives a time exactly for a text that reads as
    an epoch after 0 which the host converts; it gives [None] for a text
    that does not read as an integer, for an epoch of 0 or less, and when
    the conversion raises [ValueError]; any other exception of the
    conversion escapes it. *)
Theorem _parse_timestamp_outcomes (s : string) :
  (∀ d, _parse_timestamp fromtimestamp s = Ok (Some d) ↔
        ∃ epoch, py_int s = Some epoch ∧ 0 < epoch ∧ fromtimestamp epoch = Ok d) ∧
  (_parse_timestamp fromtimestamp s = Ok None ↔
     py_int s = None ∨
     ∃ epoch, py_int s = Some epoch ∧
              (epoch ≤ 0 ∨ fromtimestamp epoch = Raise ValueError ∨
               fromtimestamp epoch = Raise TypeError)) ∧
  (∀ e, _parse_timestamp fromtimestamp s = Raise e ↔
        e ≠ ValueError ∧ e ≠ TypeError ∧
        ∃ epoch, py_int s = Some epoch ∧ 0 < epoch ∧ fromtimestamp epoch = Raise e).
Proof.
  rewrite _parse_timestamp_eq.
  destruct (py_int s) as [epoch |] eqn:Hint.
  - destruct (Z.ltb_spec 0 epoch) as [Hpos | Hnonpos].
    + destruct (fromtimestamp epoch) as [d' | e'] eqn:Hconv.
      * split_and!; [intros d | | intros e]; split; intros Hcase; open_cases;
          eauto 10.
      * destruct e'; (split_and!; [intros d | | intros e]; split; intros Hcase;
          open_cases; eauto 10).
    + split_and!; [intros d | | intros e]; split; intros Hcase; open_cases;
        eauto 10.
  - split_and!; [intros d | | intros e]; split; intros Hcase; open_cases; eauto 10.
Qed.

Lemma decode_row_Ok (row : list string) (ty : Z) :
  (∃ record, decode_row fromtimestamp row ty = Ok record) ↔
  (∃ o, _parse_timestamp fromtimestamp (_get_field row "dateTimeOrigination") = Ok o) ∧
  (∃ o, _parse_timestamp fromtimestamp (_get_field row "dateTimeConnect") = Ok o) ∧
  (∃ o, _parse_timestamp fromtimestamp (_get_field row "dateTimeDisconnect") = Ok o).
Proof.
  unfold decode_row.
  destruct (_parse_timestamp fromtimestamp (_get_field row "dateTimeOrigination"))
    as [dto | e1]; cbn [mbind result_bind]; [| split; intros Hcase; open_cases].
  destruct (_parse_timestamp fromtimestamp (_get_field row "dateTimeConnect"))
    as [dtc | e2]; cbn [mbind result_bind]; [| split; intros Hcase; open_cases].
  destruct (_parse_timestamp fromtimestamp (_get_field row "dateTimeDisconnect"))
    as [dtd | e3]; cbn [mbind result_bind]; [| split; intros Hcase; open_cases].
  split; intros _; [split_and!; eauto | eauto].
Qed.

(** X5: a row yields a record exactly when it has at least 50 fields, its
    first field reads as 1, its origination field decodes to a time, and
    neither the connect nor the disconnect field makes the conversion
    raise past [_parse_timestamp]. *)
Theorem parse_row_emits_iff (row : list string) :
  is_Some (parse_row fromtimestamp row) ↔
  (50 ≤ length row)%nat ∧
  _safe_int (default "0" (head row)) 0 = 1 ∧
  (∃ d, _parse_timestamp fromtimestamp (field_at row 4) = Ok (Some d)) ∧
  (∃ o, _parse_timestamp fromtimestamp (field_at row 47) = Ok o) ∧
  (∃ o, _parse_timestamp fromtimestamp (field_at row 48) = Ok o).
Proof.
  rewrite <- (_get_field_at row "dateTimeOrigination" 4) by bound_field.
  rewrite <- (_get_field_at row "dateTimeConnect" 47) by bound_field.
  rewrite <- (_get_field_at row "dateTimeDisconnect" 48) by bound_field.
  unfold parse_row.
  assert (Hhead : match row with c :: _ => c | [] => "0" end = default "0" (head row))
    by by destruct row.
  rewrite Hhead.
  destruct (Nat.ltb_spec (length row) 50) as [Hshort | Hlong].
  { rewrite orb_true_r. split; [by intros [? [=]] | intros [Hlen _]; lia]. }
  rewrite orb_false_r.
  case_bool_decide as Hnil.
  { subst row. simpl in Hlong. lia. }
  destruct (Z.eqb_spec (_safe_int (default "0" (head row)) 0) 1) as [Hty | Hty]; simpl.
  2: { split; [by intros [? [=]] | tauto]. }
  destruct (decode_row fromtimestamp row (_safe_int (default "0" (head row)) 0))
    as [record | e] eqn:Hdec.
  - pose proof (decode_row_origination _ _ _ _ Hdec) as Horig.
    destruct (proj1 (decode_row_Ok row (_safe_int (default "0" (head row)) 0)))
      as (_ & Hc & Hd); [by exists record |].
    case_bool_decide as Hsome.
    + split; [intros _ | by eauto].
      destruct Hsome as [d Hd']. rewrite Hd' in Horig. split_and!; eauto.
    + split; [by intros [? [=]] |].
      intros (_ & _ & [d Hd'] & _). rewrite Hd' in Horig. injection Horig as Horig.
      destruct Hsome. by rewrite <- Horig.
  - split; [by intros [? [=]] |].
    intros (_ & _ & [d Hd'] & Hc & Hd).
    destruct (proj2 (decode_row_Ok row (_safe_int (default "0" (head row)) 0)))
      as [record Hrec]; [| congruence].
    split_and!; [by exists (Some d) | exact Hc | exact Hd].
Qed.

(** X6: the ordinals a record is read from.  The call identifier joins
    fields 1 and 2; the causes, the duration, the numbers, the devices and
    the addresses are fields 11, 33, 55, 8, 29, 30, 56, 57, 7 and 28; the
    record type is 1 and each of the ten fields the decoder does not set
    has its default.  A field the row does not reach reads as empty, so a
    row of 50 to 55 fields has duration 0. *)
Theorem parse_row_fields (row : list string) (record : CDRRecord) :
  parse_row fromtimestamp row = Some record →
  cdr_record_type record = 1 ∧
  global_call_id record = field_at row 1 +:+ "-" +:+ field_at row 2 ∧
  _parse_timestamp fromtimestamp (field_at row 4) = Ok (date_time_origination record) ∧
  _parse_timestamp fromtimestamp (field_at row 47) = Ok (date_time_connect record) ∧
  _parse_timestamp fromtimestamp (field_at row 48) = Ok (date_time_disconnect record) ∧
  orig_cause_value record = _safe_int (field_at row 11) 0 ∧
  dest_cause_value record = _safe_int (field_at row 33) 0 ∧
  duration record = _safe_int (field_at row 55) 0 ∧
  calling_party_number record = field_at row 8 ∧
  original_called_party_number record = field_at row 29 ∧
  final_called_party_number record = field_at row 30 ∧
  last_redirect_dn record = field_at row 49 ∧
  orig_device_name record = field_at row 56 ∧
  dest_device_name record = field_at row 57 ∧
  orig_ip_addr record = field_at row 7 ∧
  dest_ip_addr record = field_at row 28 ∧
  calling_party_number_partition record = field_at row 52 ∧
  original_called_party_number_partition record = field_at row 51 ∧
  final_called_party_number_partition record = field_at row 53 ∧
  hunt_pilot_dn record = field_at row 101 ∧
  hunt_pilot_partition record = field_at row 102 ∧
  calling_party_unicode_name record = "" ∧
  call_termination_on_behalf_of record = 0 ∧
  orig_dtmf_method record = 0 ∧
  dest_dtmf_method record = 0 ∧
  mobile_calling_party_number record = "" ∧
  mobile_called_party_number record = "" ∧
  calling_party_device_type record = "" ∧
  final_called_party_device_type record = "" ∧
  orig_video_cap_bandwidth record = 0 ∧
  dest_video_cap_bandwidth record = 0 ∧
  ((length row ≤ 55)%nat → duration record = 0).
Proof.
  intros Hrow.
  revert Hrow. unfold parse_row.
  destruct (bool_decide (row = []) || (length row <? 50)%nat); [done |].
  set (ty := _safe_int _ 0).
  destruct (Z.eqb_spec ty 1) as [Hty | Hty]; simpl negb; cbv iota; [| done].
  destruct (decode_row fromtimestamp row ty) as [rec |] eqn:Hdec; [| done].
  case_bool_decide; [| done]. intros [= ->].
  revert Hdec. unfold decode_row, _get_field_int.
  rewrite (_get_field_at row "globalCallID_callManagerId" 1) by bound_field.
  rewrite (_get_field_at row "globalCallID_callId" 2) by bound_field.
  rewrite (_get_field_at row "dateTimeOrigination" 4) by bound_field.
  rewrite (_get_field_at row "dateTimeConnect" 47) by bound_field.
  rewrite (_get_field_at row "dateTimeDisconnect" 48) by bound_field.
  rewrite (_get_field_at row "callingPartyNumber" 8) by bound_field.
  rewrite (_get_field_at row "originalCalledPartyNumber" 29) by bound_field.
  rewrite (_get_field_at row "finalCalledPartyNumber" 30) by bound_field.
  rewrite (_get_field_at row "lastRedirectDn" 49) by bound_field.
  rewrite (_get_field_at row "origCause_value" 11) by bound_field.
  rewrite (_get_field_at row "destCause_value" 33) by bound_field.
  rewrite (_get_field_at row "duration" 55) by bound_field.
  rewrite (_get_field_at row "origDeviceName" 56) by bound_field.
  rewrite (_get_field_at row "destDeviceName" 57) by bound_field.
  rewrite (_get_field_at row "origIpAddr" 7) by bound_field.
  rewrite (_get_field_at row "destIpAddr" 28) by bound_field.
  rewrite (_get_field_at row "callingPartyNumberPartition" 52) by bound_field.
  rewrite (_get_field_at row "originalCalledPartyNumberPartition" 51) by bound_field.
  rewrite (_get_field_at row "finalCalledPartyNumberPartition" 53) by bound_field.
  rewrite (_get_field_at row "huntPilotDN" 101) by bound_field.
  rewrite (_get_field_at row "huntPilotPartition" 102) by bound_field.
  destruct (_parse_timestamp fromtimestamp (field_at row 4)) as [dto |]; [| done].
  destruct (_parse_timestamp fromtimestamp (field_at row 47)) as [dtc |]; [| done].
  destruct (_parse_timestamp fromtimestamp (field_at row 48)) as [dtd |]; [| done].
  cbn [mbind result_bind]. intros [= <-].
  cbn [cdr_record_type global_call_id date_time_origination date_time_connect
       date_time_disconnect orig_cause_value dest_cause_value duration
       calling_party_number original_called_party_number final_called_party_number
       last_redirect_dn orig_device_name dest_device_name orig_ip_addr dest_ip_addr
       calling_party_number_partition original_called_party_number_partition
       final_called_party_number_partition hunt_pilot_dn hunt_pilot_partition
       calling_party_unicode_name call_termination_on_behalf_of
       orig_dtmf_method dest_dtmf_method mobile_calling_party_number
       mobile_called_party_number calling_party_device_type
       final_called_party_device_type orig_video_cap_bandwidth
       dest_video_cap_bandwidth].
  split_and!; try done.
  intros Hlen. unfold field_at. by rewrite (lookup_ge_None_2 row 55).
Qed.

(** X7: decoding is row by row: the records of two runs of rows, one
    after the other, are the records of the first followed by those of the
    second, and the rows scanned add up; the count of rows scanned is the
    number of rows, and no more records come out than rows went in. *)
Theorem parse_file_app (rows1 rows2 : list (list string)) :
  parse_file fromtimestamp (rows1 ++ rows2) =
    ((parse_file fromtimestamp rows1).1 ++ (parse_file fromtimestamp rows2).1,
     (parse_file fromtimestamp rows1).2 + (parse_file fromtimestamp rows2).2) ∧
  (parse_file fromtimestamp rows1).2 = Z.of_nat (length rows1) ∧
  (length (parse_file fromtimestamp rows1).1 ≤ length rows1)%nat.
Proof.
  rewrite !parse_file_rows. simpl. split_and!.
  - by rewrite omap_app, length_app, Nat2Z.inj_add.
  - done.
  - induction rows1 as [| row rows IH]; [done |].
    change (omap (parse_row fromtimestamp) (row :: rows))
      with (match parse_row fromtimestamp row with
            | Some record => record :: omap (parse_row fromtimestamp) rows
            | None => omap (parse_row fromtimestamp) rows
            end).
    destruct (parse_row fromtimestamp row); cbn [length]; lia.
Qed.

End MoreDecoderFacts.

(** ** More on the store and on ingestion *)

Section MoreIngestionFacts.

Variable fromtimestamp : Z -> result datetime.

Lemma parse_file_origination (rows : list (list string)) (record : CDRRecord) :
  record ∈ (parse_file fromtimestamp rows).1 → is_Some (date_time_origination record).
Proof.
  rewrite parse_file_rows. simpl. rewrite list_elem_of_omap.
  intros (row & _ & Hrow). by eapply parse_row_origination.
Qed.

(** The loop adds at most one row for each failed record. *)
Lemma store_failed_length (h : string) (records : list CDRRecord)
    (db : CDRDatabase) (n : Z) :
  (length (failed_calls (store_failed h records db n).1) ≤
   length (failed_calls db) +
   length (filter (λ record, is_failed record = true) records))%nat.
Proof.
  revert db n. induction records as [| record records IH]; intros db n.
  - cbn. lia.
  - cbn [store_failed]. rewrite filter_cons.
    destruct (is_failed record) eqn:Hfailed.
    + rewrite decide_True by done. cbn [length].
      destruct (insert_failed_call db record h) as [db1 | e] eqn:Hinsert;
        [| cbn [fst]; lia].
      destruct (insert_failed_call_keeps db db1 record h Hinsert)
        as (first & Hins & Hfirst & _).
      specialize (IH db1 (n + 1)). rewrite Hins, length_app in IH.
      assert (length first ≤ 1)%nat by (destruct Hfirst as [-> | ->]; simpl; lia).
      lia.
    + rewrite decide_False by congruence. apply IH.
Qed.

(** One pass, summed up: rows are only appended, each one the row of a
    failed record of the file; a pass that returns has added to the
    totals the numbers of the file's records and failed records. *)
Lemma process_file_step (now : datetime) (st : CDRDatabase * Z * Z) (f : CDRFile) :
  ∃ added,
    failed_calls (process_file fromtimestamp now st f).1 =
      failed_calls st.1.1 ++ added ∧
    Forall (λ row, ∃ record, record ∈ (parse_file fromtimestamp (file_rows f)).1 ∧
                             is_failed record = true ∧
                             row = failed_call_of record (file_hash f)) added ∧
    (unique_keys (failed_calls st.1.1) →
     unique_keys (failed_calls (process_file fromtimestamp now st f).1)) ∧
    ∀ total_records total_failed,
      (process_file fromtimestamp now st f).2 = Ok (total_records, total_failed) →
      ∃ m k, total_records = st.1.2 + m ∧ total_failed = st.2 + k ∧
             0 ≤ k ≤ m ∧ Z.of_nat (length added) ≤ k.
Proof.
  destruct st as [[db tr] tf]. cbn [fst snd].
  destruct (is_file_processed db (file_name f) (file_hash f)) eqn:Hdone.
  - rewrite (skip_when_processed fromtimestamp now (db, tr, tf) f Hdone).
    exists []. cbn [fst snd length]. rewrite app_nil_r.
    split_and!; try done.
    intros total_records total_failed [= <- <-]. exists 0, 0. lia.
  - rewrite (process_file_fresh fromtimestamp now db tr tf f Hdone). cbn zeta.
    destruct (store_failed_loop (file_hash f)
                (parse_file fromtimestamp (file_rows f)).1 db 0)
      as (added & Hrows & _ & Hfrom & Huniq & Hend).
    exists added.
    destruct (store_failed _ _ db 0).2 as [failed_count | e];
      cbn [fst snd mark_file_processed failed_calls]; split_and!; try done.
    destruct Hend as (-> & Hlen & _).
    intros total_records total_failed [= <- <-].
    exists (Z.of_nat (length (parse_file fromtimestamp (file_rows f)).1)),
      (failed_count_of (parse_file fromtimestamp (file_rows f)).1).
    pose proof (failed_count_of_bounds (parse_file fromtimestamp (file_rows f)).1).
    split_and!; lia.
Qed.

(** X8: a pass over a file never deletes or rewrites a stored failed call,
    also when an exception ends it: the table after the pass is the table
    before it followed by the rows the pass added, and each added row is
    the row of a failed record of this file, with an origination time, a
    duration of 0 and the file's digest. *)
Theorem process_file_appends (now : datetime) (st : CDRDatabase * Z * Z) (f : CDRFile) :
  ∃ added,
    failed_calls (process_file fromtimestamp now st f).1 =
      failed_calls st.1.1 ++ added ∧
    Forall (λ row,
      (∃ record, record ∈ (parse_file fromtimestamp (file_rows f)).1 ∧
                 is_failed record = true ∧
                 row = failed_call_of record (file_hash f)) ∧
      is_Some (fc_date_time_origination row) ∧
      fc_duration row = 0 ∧
      fc_file_hash row = file_hash f) added.
Proof.
  destruct (process_file_step now st f) as (added & Hrows & Hfrom & _).
  exists added. split; [done |].
  eapply Forall_impl; [exact Hfrom |].
  intros row (record & Hin & Hfailed & ->). split_and!.
  - by exists record.
  - simpl. by eapply parse_file_origination.
  - simpl. by apply is_failed_unfold in Hfailed as [Hd _].
  - done.
Qed.

(** X9: what a pass over an unmarked file records.  When the integers of
    every failed record fit 64 bits, the pass returns: the marker of the
    file's name becomes (digest, number of records decoded, number of
    failed records, time of the pass), the markers of other names stay,
    and the totals grow by the same two numbers.  When those of a failed
    record do not fit, the pass raises and no marker is written.  The
    number of failed records counts every failed record, also one whose
    insert was ignored, so it bounds the number of rows added from
    above. *)
Theorem process_file_records (now : datetime) (db : CDRDatabase) (tr tf : Z) (f : CDRFile) :
  is_file_processed db (file_name f) (file_hash f) = false →
  let records := (parse_file fromtimestamp (file_rows f)).1 in
  let pass := process_file fromtimestamp now (db, tr, tf) f in
  (Forall (λ record, is_failed record = true → binds_int64 record = true) records →
   pass.2 = Ok (tr + Z.of_nat (length records), tf + failed_count_of records) ∧
   processed_files pass.1 !! file_name f =
     Some {| pf_file_hash := file_hash f;
             pf_records_processed := Z.of_nat (length records);
             pf_failed_calls_found := failed_count_of records;
             pf_processed_at := now |} ∧
   ∀ other, other ≠ file_name f →
            processed_files pass.1 !! other = processed_files db !! other) ∧
  (Exists (λ record, is_failed record = true ∧ binds_int64 record = false) records →
   (∃ e, pass.2 = Raise e ∧ (e = ValueError ∨ e = OverflowError)) ∧
   processed_files pass.1 = processed_files db) ∧
  0 ≤ failed_count_of records ≤ Z.of_nat (length records) ∧
  Z.of_nat (length (failed_calls pass.1)) ≤
    Z.of_nat (length (failed_calls db)) + failed_count_of records.
Proof.
  intros Hnew records pass. subst pass.
  rewrite (process_file_fresh fromtimestamp now db tr tf f Hnew). cbn zeta.
  fold records.
  destruct (store_failed_loop (file_hash f) records db 0)
    as (added & Hrows & Hmarks & Hfrom & _ & Hend).
  pose proof (failed_count_of_bounds records) as Hbounds.
  assert (Hlen : Z.of_nat (length added) ≤ failed_count_of records).
  { pose proof (f_equal length Hrows) as Hl. rewrite length_app in Hl.
    pose proof (store_failed_length (file_hash f) records db 0). 
    unfold failed_count_of. lia. }
  split_and!.
  - intros Hfit.
    destruct (store_failed _ records db 0).2 as [failed_count | e] eqn:Hout.
    + destruct Hend as (-> & _). rewrite Z.add_0_l.
      cbn [fst snd mark_file_processed processed_files]. split_and!.
      * done.
      * by rewrite lookup_insert_eq.
      * intros other Hother. by rewrite lookup_insert_ne, Hmarks.
    + destruct Hend as [_ Hbad].
      apply Exists_exists in Hbad as (record & Hin & Hfailed & Hno).
      rewrite Forall_forall in Hfit. specialize (Hfit record Hin Hfailed). congruence.
  - intros Hbad.
    destruct (store_failed_Raise (file_hash f) records db 0 Hbad) as [e He].
    rewrite He in Hend |- *. cbn [fst snd]. destruct Hend as [Hclass _].
    split; [by exists e | done].
  - lia.
  - lia.
  - destruct (store_failed _ records db 0).2;
      cbn [fst mark_file_processed failed_calls]; rewrite Hrows, length_app; lia.
Qed.

(** X10: after a pass over a file that returns, the digest its name is
    marked with is the file's, and no other: the marker of an earlier
    delivery of the same name with other bytes is gone.  A pass that an
    exception ends leaves every marker as it was. *)
Theorem marker_is_last_digest (now : datetime) (st : CDRDatabase * Z * Z) (f : CDRFile) :
  (∀ totals, (process_file fromtimestamp now st f).2 = Ok totals →
     ∀ h, is_file_processed (process_file fromtimestamp now st f).1 (file_name f) h
            = true ↔ h = file_hash f) ∧
  (∀ e, (process_file fromtimestamp now st f).2 = Raise e →
     processed_files (process_file fromtimestamp now st f).1 = processed_files st.1.1).
Proof.
  split.
  - intros totals Hreturns h.
    pose proof (process_file_marks fromtimestamp now st f totals Hreturns) as Hdone.
    split.
    + revert Hdone. unfold is_file_processed.
      destruct (processed_files _ !! file_name f) as [pf |]; [| done].
      intros H1 H2. apply bool_decide_eq_true in H1, H2. congruence.
    + by intros ->.
  - intros e Hraises. by apply (process_file_raise_markers fromtimestamp now st f e).
Qed.

Lemma process_file_unique (now : datetime) (st : CDRDatabase * Z * Z) (f : CDRFile) :
  unique_keys (failed_calls st.1.1) →
  unique_keys (failed_calls (process_file fromtimestamp now st f).1).
Proof.
  destruct (process_file_step now st f) as (added & _ & _ & Huniq & _). exact Huniq.
Qed.

(** What every pass keeps of the store, a run keeps, whether it returns
    or not. *)
Lemma process_files_invariant (P : CDRDatabase → Prop)
    (files : list (datetime * CDRFile)) (st : CDRDatabase * Z * Z) :
  (∀ now st f, P st.1.1 → P (process_file fromtimestamp now st f).1) →
  P st.1.1 → P (process_files fromtimestamp files st).1.
Proof.
  intros Hstep. revert st.
  induction files as [| [now f] files IH]; intros st Hst; [done |].
  cbn [process_files]. specialize (Hstep now st f Hst).
  destruct (process_file fromtimestamp now st f) as [db [[tr tf] | e]]; [| done].
  by apply IH.
Qed.

Lemma fetch_invariant (P : CDRDatabase → Prop) (db : CDRDatabase)
    (files : list (datetime * CDRFile)) :
  (∀ now st f, P st.1.1 → P (process_file fromtimestamp now st f).1) →
  P db → P (fetch_and_process_cdr_files fromtimestamp db files).1.
Proof. intros Hstep Hdb. by apply (process_files_invariant P files (db, 0, 0)). Qed.

(** X11: the natural key stays unique.  If no two stored failed calls
    share call identifier and origination time, then none do after a run
    over any files, whether the run returns or raises, and none do after
    a sweep. *)
Theorem unique_keys_kept (db : CDRDatabase) :
  unique_keys (failed_calls db) →
  (∀ files,
     unique_keys (failed_calls (fetch_and_process_cdr_files fromtimestamp db files).1)) ∧
  (∀ now retention_days,
     unique_keys (failed_calls (cleanup_old_records db now retention_days).1)).
Proof.
  intros Huniq. split.
  - intros files.
    apply (fetch_invariant (λ db, unique_keys (failed_calls db))); [| done].
    intros now st f. apply process_file_unique.
  - intros now retention_days. cbn [cleanup_old_records fst failed_calls].
    set (keep := λ row, older_than (now - timedelta_days retention_days) row ≠ true).
    intros i j a b Ha Hb Hclash.
    assert (Hsub : ∀ rows : list FailedCall,
              unique_keys rows → unique_keys (filter keep rows)).
    { clear. intros rows. induction rows as [| r rows IH]; intros Hu; [done |].
      assert (Htail : unique_keys rows).
      { intros i j a b Ha Hb Hc. by specialize (Hu (S i) (S j) a b Ha Hb Hc) as [= ->]. }
      rewrite filter_cons. destruct (decide (keep r)); [| by apply IH].
      intros [| i] [| j] a b Ha Hb Hc; simplify_eq/=; try done.
      - apply list_elem_of_lookup_2, list_elem_of_filter in Hb as [_ Hb].
        apply list_elem_of_lookup in Hb as [j' Hb].
        by specialize (Hu 0%nat (S j') a b eq_refl Hb Hc).
      - apply list_elem_of_lookup_2, list_elem_of_filter in Ha as [_ Ha].
        apply list_elem_of_lookup in Ha as [i' Ha].
        by specialize (Hu (S i') 0%nat a b Ha eq_refl Hc).
      - f_equal. by eapply (IH Htail). }
    by eapply (Hsub _ Huniq).
Qed.

End MoreIngestionFacts.

Section RunFacts.

Variable fromtimestamp : Z -> result datetime.

(** X12: the totals of a run.  The stored failed calls of before are
    still there, in place, whether the run returns or raises; when it
    returns, the failed total is at most the record total, neither is
    negative, and at most as many rows were added as the failed total
    says (it also counts the failed records whose insert was ignored). *)
Theorem fetch_totals (db : CDRDatabase) (files : list (datetime * CDRFile)) :
  let run := fetch_and_process_cdr_files fromtimestamp db files in
  ∃ added, failed_calls run.1 = failed_calls db ++ added ∧
    ∀ total_records total_failed, run.2 = Ok (total_records, total_failed) →
      0 ≤ total_failed ≤ total_records ∧ Z.of_nat (length added) ≤ total_failed.
Proof.
  unfold fetch_and_process_cdr_files.
  assert (Hgen : ∀ st : CDRDatabase * Z * Z,
    let run := process_files fromtimestamp files st in
    ∃ added, failed_calls run.1 = failed_calls st.1.1 ++ added ∧
      ∀ total_records total_failed, run.2 = Ok (total_records, total_failed) →
        total_failed - st.2 ≤ total_records - st.1.2 ∧ st.2 ≤ total_failed ∧
        Z.of_nat (length added) ≤ total_failed - st.2).
  { induction files as [| [now f] files IH]; intros st.
    - cbn [process_files fst snd]. exists []. rewrite app_nil_r. split; [done |].
      intros total_records total_failed [= <- <-]. cbn [length]. lia.
    - cbn [process_files].
      destruct (process_file_step fromtimestamp now st f)
        as (added1 & Hrows & _ & _ & Htotals).
      destruct (process_file fromtimestamp now st f) as [db1 [[tr1 tf1] | e]].
      + destruct (Htotals tr1 tf1 eq_refl) as (m & k & -> & -> & Hk & Hlen).
        destruct (IH (db1, st.1.2 + m, st.2 + k)) as (added2 & Hrows2 & Htotals2).
        cbn zeta in *. cbn [fst snd] in *.
        exists (added1 ++ added2). rewrite Hrows2, Hrows, app_assoc. split; [done |].
        intros total_records total_failed Hrun.
        specialize (Htotals2 total_records total_failed Hrun).
        rewrite length_app. lia.
      + cbn zeta. cbn [fst snd] in *. exists added1. split; [done |]. done. }
  destruct (Hgen (db, 0, 0)) as (added & Hrows & Htotals).
  cbn [fst snd] in Hrows, Htotals. cbn zeta.
  exists added. split; [done |].
  intros total_records total_failed Hrun.
  specialize (Htotals total_records total_failed Hrun). lia.
Qed.

(** A second pass over the same rows, under any name and digest, from the
    store the first pass left: no failed call is added; and when an
    exception ended the first pass, it ends the second, which leaves the
    store as it found it. *)
Lemma process_file_again (now now' : datetime) (db : CDRDatabase) (tr tf tr' tf' : Z)
    (f f' : CDRFile) :
  is_file_processed db (file_name f) (file_hash f) = false →
  file_rows f' = file_rows f →
  let pass := process_file fromtimestamp now (db, tr, tf) f in
  let again := process_file fromtimestamp now' (pass.1, tr', tf') f' in
  failed_calls again.1 = failed_calls pass.1 ∧
  ∀ e, pass.2 = Raise e →
       is_file_processed pass.1 (file_name f') (file_hash f') = false →
       again = (pass.1, Raise e).
Proof.
  intros Hnew Hrows pass again. subst again pass.
  rewrite (process_file_fresh fromtimestamp now db tr tf f Hnew). cbn zeta.
  set (records := (parse_file fromtimestamp (file_rows f)).1).
  assert (Htimes : ∀ record, record ∈ records → is_Some (date_time_origination record))
    by (intros record Hin; by eapply parse_file_origination).
  destruct (store_failed (file_hash f) records db 0) as [db1 out] eqn:Hstored.
  cbn [fst snd].
  assert (Hagain : ∀ stored n', failed_calls stored = failed_calls db1 →
            store_failed (file_hash f') records stored n' =
              (stored, match out with
                       | Ok _ => Ok (n' + failed_count_of records)
                       | Raise e => Raise e
                       end)).
  { intros stored n' Hsame.
    pose proof (store_failed_again (file_hash f) (file_hash f') records db stored 0 n'
                  Htimes) as Hrun.
    rewrite Hstored in Hrun. by apply Hrun. }
  destruct out as [failed_count | e]; cbn [fst snd].
  - split; [| done].
    set (db2 := mark_file_processed db1 now (file_name f) (file_hash f)
                  (Z.of_nat (length records)) failed_count).
    destruct (is_file_processed db2 (file_name f') (file_hash f')) eqn:Hdone.
    + by rewrite (skip_when_processed fromtimestamp now' (db2, tr', tf') f' Hdone).
    + rewrite (process_file_fresh fromtimestamp now' db2 tr' tf' f' Hdone). cbn zeta.
      rewrite Hrows. fold records. by rewrite (Hagain db2 0).
  - split.
    + destruct (is_file_processed db1 (file_name f') (file_hash f')) eqn:Hdone.
      * by rewrite (skip_when_processed fromtimestamp now' (db1, tr', tf') f' Hdone).
      * rewrite (process_file_fresh fromtimestamp now' db1 tr' tf' f' Hdone). cbn zeta.
        rewrite Hrows. fold records. by rewrite (Hagain db1 0).
    + intros e' [= <-] Hdone.
      rewrite (process_file_fresh fromtimestamp now' db1 tr' tf' f' Hdone). cbn zeta.
      rewrite Hrows. fold records. by rewrite (Hagain db1 0).
Qed.

(** X13: exactly-once persistence of a call leg.  When a file has been
    decoded and stored, a later delivery of the same rows adds no failed
    call, whatever name and digest it comes under, whatever the markers
    say by then, and whether the first pass returned or an exception
    ended it. *)
Theorem redelivery_adds_nothing (now now' : datetime) (db : CDRDatabase)
    (tr tf tr' tf' : Z) (f f' : CDRFile) :
  is_file_processed db (file_name f) (file_hash f) = false →
  file_rows f' = file_rows f →
  failed_calls
    (process_file fromtimestamp now'
       ((process_file fromtimestamp now (db, tr, tf) f).1, tr', tf') f').1 =
  failed_calls (process_file fromtimestamp now (db, tr, tf) f).1.
Proof.
  intros Hnew Hrows.
  by destruct (process_file_again now now' db tr tf tr' tf' f f' Hnew Hrows) as [? _].
Qed.

Lemma process_file_other_marker (now : datetime) (st : CDRDatabase * Z * Z)
    (f : CDRFile) (name : string) :
  file_name f ≠ name →
  processed_files (process_file fromtimestamp now st f).1 !! name =
  processed_files st.1.1 !! name.
Proof.
  intros Hother. destruct st as [[db tr] tf]. cbn [fst].
  destruct (is_file_processed db (file_name f) (file_hash f)) eqn:Hdone.
  - by rewrite (skip_when_processed fromtimestamp now (db, tr, tf) f Hdone).
  - rewrite (process_file_fresh fromtimestamp now db tr tf f Hdone). cbn zeta.
    destruct (store_failed_loop (file_hash f)
                (parse_file fromtimestamp (file_rows f)).1 db 0)
      as (added & _ & Hmarks & _).
    destruct (store_failed _ _ db 0).2; cbn [fst mark_file_processed processed_files];
      by rewrite ?lookup_insert_ne, Hmarks.
Qed.

Lemma process_files_other_marker (files : list (datetime * CDRFile))
    (st : CDRDatabase * Z * Z) (name : string) :
  name ∉ (λ nf, file_name nf.2) <$> files →
  processed_files (process_files fromtimestamp files st).1 !! name =
  processed_files st.1.1 !! name.
Proof.
  revert st. induction files as [| [now f] files IH]; intros st Hnot; [done |].
  rewrite fmap_cons in Hnot. apply not_elem_of_cons in Hnot as [Hne Hnot].
  cbn [snd] in Hne. cbn [process_files].
  pose proof (process_file_other_marker now st f name (not_eq_sym Hne)) as Hstep.
  destruct (process_file fromtimestamp now st f) as [db [[tr tf] | e]]; [| done].
  by rewrite (IH (db, tr, tf) Hnot).
Qed.

(** A run once more over the same files, from the store the first run
    left and from any totals. *)
Lemma process_files_again (files files' : list (datetime * CDRFile))
    (st : CDRDatabase * Z * Z) (tr' tf' : Z) :
  NoDup ((λ nf, file_name nf.2) <$> files) →
  snd <$> files' = snd <$> files →
  process_files fromtimestamp files'
    ((process_files fromtimestamp files st).1, tr', tf') =
  ((process_files fromtimestamp files st).1,
   match (process_files fromtimestamp files st).2 with
   | Ok _ => Ok (tr', tf')
   | Raise e => Raise e
   end).
Proof.
  revert files' st. induction files as [| [now f] files IH]; intros files' st Hnames Hsame.
  - destruct files'; [done | by rewrite fmap_cons in Hsame].
  - destruct files' as [| [now' f'] files']; [by rewrite fmap_cons in Hsame |].
    rewrite !fmap_cons in Hsame. cbn [snd] in Hsame.
    injection Hsame as -> Hsame.
    rewrite fmap_cons in Hnames. apply NoDup_cons in Hnames as [Hfresh Hnames].
    cbn [snd] in Hfresh. cbn [process_files].
    destruct st as [[db tr] tf].
    destruct (process_file fromtimestamp now (db, tr, tf) f) as [db1 [[tr1 tf1] | e]]
      eqn:Hpass.
    + (* the first pass returned: the file is marked, and stays so *)
      pose proof (process_file_marks fromtimestamp now (db, tr, tf) f (tr1, tf1)) as Hdone.
      rewrite Hpass in Hdone. specialize (Hdone eq_refl). cbn [fst] in Hdone.
      assert (Hstill : is_file_processed
                (process_files fromtimestamp files (db1, tr1, tf1)).1
                (file_name f) (file_hash f) = true).
      { unfold is_file_processed in *.
        by rewrite (process_files_other_marker files (db1, tr1, tf1) (file_name f)). }
      rewrite (skip_when_processed fromtimestamp now' (_, tr', tf') f Hstill).
      cbn [fst snd]. by apply IH.
    + (* an exception ended it: it ends the second pass *)
      cbn [fst snd].
      pose proof (process_file_raise_markers fromtimestamp now (db, tr, tf) f e) as Hmarks.
      rewrite Hpass in Hmarks. destruct (Hmarks eq_refl) as [Hsamemarks Hnew].
      cbn [fst snd] in Hsamemarks, Hnew.
      assert (Hnew1 : is_file_processed db1 (file_name f) (file_hash f) = false)
        by (unfold is_file_processed in *; by rewrite Hsamemarks).
      destruct (process_file_again now now' db tr tf tr' tf' f f Hnew eq_refl)
        as [_ Hraises].
      cbn zeta in Hraises. rewrite Hpass in Hraises. cbn [fst snd] in Hraises.
      by rewrite (Hraises e eq_refl Hnew1).
Qed.

(** X14: a run repeated over the same files, each under a name of its
    own, is a no-op: the store after the second run is the store after the
    first; when the first run returned, the second returns and reports no
    record and no failed call; when an exception ended the first, the same
    exception ends the second. *)
Theorem rerun_is_noop (db : CDRDatabase) (files files' : list (datetime * CDRFile)) :
  NoDup ((λ nf, file_name nf.2) <$> files) →
  snd <$> files' = snd <$> files →
  fetch_and_process_cdr_files fromtimestamp
    (fetch_and_process_cdr_files fromtimestamp db files).1 files' =
  ((fetch_and_process_cdr_files fromtimestamp db files).1,
   match (fetch_and_process_cdr_files fromtimestamp db files).2 with
   | Ok _ => Ok (0, 0)
   | Raise e => Raise e
   end).
Proof.
  intros Hnames Hsame. unfold fetch_and_process_cdr_files.
  by apply process_files_again.
Qed.

End RunFacts.

(** ** Over a store that ingestion built *)

Lemma ingested_facts (row : FailedCall) :
  ingested row →
  fc_duration row = 0 ∧
  is_Some (fc_date_time_origination row) ∧
  fc_failure_reason row = reason_of_cause (fc_primary_cause_code row) ∧
  (outside_success (fc_orig_cause_value row) ∨ outside_success (fc_dest_cause_value row)).
Proof.
  intros (record & h & Hfailed & Hsome & ->).
  apply is_failed_unfold in Hfailed as [Hd Hcause].
  rewrite !not_in_SUCCESS_CODES in Hcause.
  rewrite fc_primary_cause_code_of. cbn [failed_call_of fc_duration
    fc_date_time_origination fc_failure_reason fc_orig_cause_value fc_dest_cause_value].
  split_and!; [done | done | apply failure_reason_primary | tauto].
Qed.

Lemma cleanup_sublist (db : CDRDatabase) (now : datetime) (retention_days : Z)
    (row : FailedCall) :
  row ∈ failed_calls (cleanup_old_records db now retention_days).1 →
  row ∈ failed_calls db.
Proof.
  cbn [cleanup_old_records fst failed_calls]. rewrite list_elem_of_filter. tauto.
Qed.

Section IngestedFacts.

Variable fromtimestamp : Z -> result datetime.

(** X15: what holds of every stored failed call, once it holds of the
    store a run starts from (the empty store, say): the row has duration 0
    and an origination time, at least one of its two causes is outside
    the success codes, and its reason is the text of its primary cause
    code.  Runs, whether they return or raise, and sweeps keep it so. *)
Theorem ingested_kept (db : CDRDatabase) :
  Forall ingested (failed_calls db) →
  (∀ files,
     Forall ingested
       (failed_calls (fetch_and_process_cdr_files fromtimestamp db files).1)) ∧
  (∀ now retention_days,
     Forall ingested (failed_calls (cleanup_old_records db now retention_days).1)) ∧
  (∀ row, row ∈ failed_calls db →
     fc_duration row = 0 ∧
     is_Some (fc_date_time_origination row) ∧
     fc_failure_reason row = reason_of_cause (fc_primary_cause_code row) ∧
     (outside_success (fc_orig_cause_value row) ∨
      outside_success (fc_dest_cause_value row))).
Proof.
  intros Hdb. split_and!.
  - intros files.
    apply (fetch_invariant fromtimestamp (λ db, Forall ingested (failed_calls db)));
      [| done].
    intros now st f Hst.
    destruct (process_file_step fromtimestamp now st f) as (added & -> & Hadded & _).
    apply Forall_app. split; [done |].
    eapply Forall_impl; [exact Hadded |].
    intros row (record & Hin & Hfailed & ->). exists record, (file_hash f).
    split_and!; [done | by eapply parse_file_origination | done].
  - intros now retention_days. apply Forall_forall. intros row Hin.
    apply cleanup_sublist in Hin. by eapply Forall_forall in Hdb.
  - intros row Hin. apply ingested_facts. by eapply Forall_forall in Hdb.
Qed.

End IngestedFacts.

(** X16: over such a store the histogram is consistent with its codes: a
    bucket of a nonzero terminating code carries the text of that very
    code; the bucket of code 0 carries the text of an originating cause
    that is outside the success codes. *)
Theorem by_cause_reasons (db : CDRDatabase) (now : datetime) (hours : Z) (b : CauseCount) :
  Forall ingested (failed_calls db) →
  b ∈ by_cause (get_failure_statistics db now hours) →
  (cc_dest_cause_value b ≠ 0 →
   cc_failure_reason b = reason_of_cause (cc_dest_cause_value b)) ∧
  (cc_dest_cause_value b = 0 →
   ∃ c, outside_success c ∧ cc_failure_reason b = reason_of_cause c).
Proof.
  intros Hdb Hb. apply elem_of_by_cause in Hb as (row & Hin & ->).
  cbn [cause_count_of cc_dest_cause_value cc_failure_reason]. unfold cause_group.
  set (window := window_of db now hours) in *.
  set (group := filter (λ r, fc_dest_cause_value r = fc_dest_cause_value row) window).
  assert (Hrow : row ∈ group) by (by apply list_elem_of_filter).
  assert (Hfirst : is_Some (head group)).
  { apply head_is_Some. intros Hnil. rewrite Hnil in Hrow. by apply elem_of_nil in Hrow. }
  destruct Hfirst as [row' Hfirst]. rewrite Hfirst.
  cbn [fmap option_fmap option_map default].
  apply head_Some_elem_of, list_elem_of_filter in Hfirst as [Hcode Hin'].
  assert (Hstored : row' ∈ failed_calls db).
  { subst window. unfold window_of in Hin'. by apply list_elem_of_filter in Hin' as [_ ?]. }
  destruct (ingested_facts row') as (_ & _ & Hreason & Hout);
    [by eapply Forall_forall in Hdb |].
  rewrite Hreason. unfold fc_primary_cause_code. rewrite Hcode. split.
  - intros Hne. by rewrite decide_True.
  - intros Hz. rewrite decide_False by lia.
    exists (fc_orig_cause_value row'). split; [| done].
    destruct Hout as [Ho | Hd]; [done |].
    rewrite Hcode, Hz in Hd. by destruct Hd as [? _].
Qed.

(** ** Counting by groups *)

Lemma length_filter_split {A : Type} (P Q : A → Prop)
    `{∀ x, Decision (P x)} `{∀ x, Decision (Q x)} (l : list A) :
  (∀ x, P x → Q x → False) →
  length (filter (λ x, P x ∨ Q x) l) = (length (filter P l) + length (filter Q l))%nat.
Proof.
  intros Hdisj. induction l as [| x l IH]; [done |].
  rewrite !filter_cons.
  destruct (decide (P x)) as [HP | HP], (decide (Q x)) as [HQ | HQ].
  - destruct (Hdisj x HP HQ).
  - rewrite decide_True by tauto. cbn [length]. lia.
  - rewrite decide_True by tauto. cbn [length]. lia.
  - rewrite decide_False by tauto. lia.
Qed.

(** The sizes of the groups of a column add up to the number of rows. *)
Lemma group_sizes_sum {A K : Type} `{EqDecision K} (key : A → K)
    (rows : list A) (keys : list K) :
  NoDup keys → (∀ row, row ∈ rows → key row ∈ keys) →
  sum_list_with (λ k, length (filter (λ row, key row = k) rows)) keys = length rows.
Proof.
  intros Hnodup Hcover.
  assert (Hgen : sum_list_with (λ k, length (filter (λ row, key row = k) rows)) keys
                 = length (filter (λ row, key row ∈ keys) rows)).
  { clear Hcover. induction Hnodup as [| k keys Hfresh Hnodup IH]; cbn [sum_list_with].
    - induction rows as [| row rows IHr]; [done |].
      rewrite filter_cons, decide_False by apply not_elem_of_nil. done.
    - rewrite IH, <- length_filter_split by (intros row -> Hin; done).
      f_equal. apply list_filter_iff. intros row. rewrite elem_of_cons. done. }
  rewrite Hgen. f_equal.
  clear Hgen. induction rows as [| row rows IH]; [done |].
  rewrite filter_cons, decide_True by (apply Hcover, elem_of_cons; by left).
  f_equal. apply IH. intros r Hr. apply Hcover, elem_of_cons. by right.
Qed.

Lemma sum_counts_perm (l l' : list CauseCount) :
  l ≡ₚ l' →
  foldr (λ b acc, cc_count b + acc) 0 l = foldr (λ b acc, cc_count b + acc) 0 l'.
Proof. induction 1; cbn [foldr]; lia. Qed.

(** X17: the histogram partitions the window: its counts add up to the
    total of failed calls. *)
Theorem by_cause_counts_sum (db : CDRDatabase) (now : datetime) (hours : Z) :
  foldr (λ b acc, cc_count b + acc) 0 (by_cause (get_failure_statistics db now hours)) =
  total_failed_calls (get_failure_statistics db now hours).
Proof.
  rewrite by_cause_window, total_failed_calls_window.
  rewrite (sum_counts_perm _ _ (order_by_count_desc_perm _)).
  set (window := window_of db now hours).
  rewrite <- (group_sizes_sum fc_dest_cause_value window (cause_codes_of window)).
  - generalize (cause_codes_of window). intros codes.
    induction codes as [| c codes IH]; [done |].
    rewrite fmap_cons. cbn [foldr sum_list_with cause_count_of cc_count].
    rewrite IH. unfold cause_group. lia.
  - apply StronglySorted_lt_NoDup, cause_codes_of_sorted.
  - intros row Hin. apply elem_of_cause_codes_of. by exists row.
Qed.

(** ** The order of strings *)

Lemma str_lt_trans (s t u : string) : str_lt s t → str_lt t u → str_lt s u.
Proof.
  unfold str_lt. intros Hst Htu.
  apply OrderedTypeEx.String_as_OT.cmp_lt.
  eapply OrderedTypeEx.String_as_OT.lt_trans;
    by apply OrderedTypeEx.String_as_OT.cmp_lt.
Qed.

Lemma str_lt_irrefl (s : string) : ¬ str_lt s s.
Proof.
  unfold str_lt. intros Hlt.
  assert (String.compare s s = Eq) by (by apply OrderedTypeEx.String_as_OT.cmp_eq).
  congruence.
Qed.

Lemma ltb_str_lt (s t : string) : String.ltb s t = true ↔ str_lt s t.
Proof. unfold String.ltb, str_lt. by destruct (String.compare s t). Qed.

Lemma not_ltb_neq (s t : string) :
  String.ltb s t = false → s ≠ t → str_lt t s.
Proof.
  unfold String.ltb, str_lt. intros Hlt Hne.
  rewrite String.compare_antisym.
  destruct (String.compare s t) eqn:Hc; [| done | done].
  by apply String.compare_eq_iff in Hc.
Qed.

Lemma leb_str_lt (s t : string) : String.leb s t = true ↔ str_lt s t ∨ s = t.
Proof.
  unfold String.leb, str_lt.
  destruct (String.compare s t) eqn:Hc.
  - apply String.compare_eq_iff in Hc. tauto.
  - tauto.
  - split; [done |]. intros [? | ->]; [done |].
    assert (String.compare t t = Eq) by (by apply OrderedTypeEx.String_as_OT.cmp_eq).
    congruence.
Qed.

Lemma leb_false_str_lt (s t : string) : String.leb s t = false → str_lt t s.
Proof.
  unfold String.leb, str_lt. rewrite (String.compare_antisym t s).
  by destruct (String.compare s t).
Qed.

(** ** Top-ten rollups *)

Lemma elem_of_insert_key (k x : string) (keys : list string) :
  k ∈ insert_key x keys ↔ k = x ∨ k ∈ keys.
Proof.
  induction keys as [| d keys IH]; simpl.
  - rewrite list_elem_of_singleton, elem_of_nil. tauto.
  - destruct (String.ltb x d); [by rewrite elem_of_cons |].
    destruct (String.eqb_spec x d) as [-> | Hne].
    + rewrite elem_of_cons. tauto.
    + rewrite !elem_of_cons, IH. tauto.
Qed.

Lemma insert_key_sorted (x : string) (keys : list string) :
  StronglySorted str_lt keys → StronglySorted str_lt (insert_key x keys).
Proof.
  induction 1 as [| d keys Hsorted IH Hd]; simpl.
  - repeat constructor.
  - destruct (String.ltb x d) eqn:Hlt.
    + apply ltb_str_lt in Hlt.
      constructor; [by constructor |].
      constructor; [done |]. eapply Forall_impl; [exact Hd |].
      intros k Hk. by eapply str_lt_trans.
    + destruct (String.eqb_spec x d) as [-> | Hne]; [by constructor |].
      constructor; [done |].
      apply Forall_forall. intros k Hk.
      apply elem_of_insert_key in Hk as [-> | Hk]; [by apply not_ltb_neq |].
      by eapply Forall_forall in Hd.
Qed.

Lemma elem_of_keys_of (col : FailedCall → string) (k : string) (rows : list FailedCall) :
  k ∈ keys_of col rows ↔ ∃ row, row ∈ rows ∧ col row = k.
Proof.
  unfold keys_of. induction rows as [| row rows IH].
  - cbn. rewrite elem_of_nil. split; [done |].
    intros (row & Hin & _). by apply elem_of_nil in Hin.
  - rewrite fmap_cons. cbn [foldr]. rewrite elem_of_insert_key, IH. split.
    + intros [-> | (row' & Hin & Hc)].
      * exists row. split; [apply elem_of_cons; by left | done].
      * exists row'. split; [apply elem_of_cons; by right | done].
    + intros (row' & Hin & Hc). apply elem_of_cons in Hin as [-> | Hin]; [by left |].
      right. by exists row'.
Qed.

Lemma keys_of_NoDup (col : FailedCall → string) (rows : list FailedCall) :
  NoDup (keys_of col rows).
Proof.
  assert (Hsorted : StronglySorted str_lt (keys_of col rows)).
  { unfold keys_of. induction rows as [| row rows IH]; [constructor |].
    rewrite fmap_cons. cbn [foldr]. by apply insert_key_sorted. }
  induction Hsorted as [| d keys Hsorted IH Hd]; constructor; [| done].
  intros Hin. eapply Forall_forall in Hd; [| exact Hin]. by apply str_lt_irrefl in Hd.
Qed.

Lemma insert_key_count_perm (b : KeyCount) (sorted : list KeyCount) :
  insert_key_count b sorted ≡ₚ b :: sorted.
Proof.
  induction sorted as [| b' sorted IH]; simpl; [done |].
  destruct (kc_count b' <? kc_count b); [done |].
  rewrite IH. apply Permutation_swap.
Qed.

Lemma order_key_counts_perm (l : list KeyCount) : foldr insert_key_count [] l ≡ₚ l.
Proof.
  induction l as [| b l IH]; simpl; [done |]. by rewrite insert_key_count_perm, IH.
Qed.

Lemma insert_key_count_sorted (b : KeyCount) (sorted : list KeyCount) :
  StronglySorted key_count_desc sorted →
  StronglySorted key_count_desc (insert_key_count b sorted).
Proof.
  induction 1 as [| b' sorted Hsorted IH Hb']; simpl.
  - repeat constructor.
  - destruct (Z.ltb_spec (kc_count b') (kc_count b)) as [Hlt | Hge].
    + constructor; [by constructor |].
      constructor; [unfold key_count_desc; lia |].
      eapply Forall_impl; [exact Hb' |]. unfold key_count_desc. simpl. lia.
    + constructor; [done |].
      rewrite insert_key_count_perm. constructor; [unfold key_count_desc; lia | done].
Qed.

Lemma order_key_counts_sorted (l : list KeyCount) :
  StronglySorted key_count_desc (foldr insert_key_count [] l).
Proof.
  induction l as [| b l IH]; simpl; [constructor |]. by apply insert_key_count_sorted.
Qed.

Lemma key_count_of_keys (col : FailedCall → string) (rows : list FailedCall)
    (keys : list string) :
  kc_key <$> (key_count_of col rows <$> keys) = keys.
Proof. induction keys as [| k keys IH]; [done |]. rewrite !fmap_cons. by f_equal. Qed.

Lemma top_ten_rows (col : FailedCall → string) (db : CDRDatabase)
    (now : datetime) (hours : Z) :
  top_ten col db now hours =
    let rows := filter (λ row, col row ≠ "") (window_of db now hours) in
    take 10 (foldr insert_key_count [] (key_count_of col rows <$> keys_of col rows)).
Proof.
  unfold top_ten, window_of, timedelta_hours. cbn zeta.
  rewrite (list_filter_filter (λ row, col row ≠ "")).
  assert (Hrows :
    filter (λ row, since (now - hours * 3600 * 1000000) row = true ∧ col row ≠ "")
      (failed_calls db) =
    filter (λ row, col row ≠ "" ∧ since (now - hours * 3600 * 1000000) row = true)
      (failed_calls db))
    by (apply list_filter_iff; intros row; tauto).
  by rewrite Hrows.
Qed.

Lemma filter_named_key (col : FailedCall → string) (window : list FailedCall)
    (k : string) :
  k ≠ "" →
  filter (λ row, col row = k) (filter (λ row, col row ≠ "") window) =
  filter (λ row, col row = k) window.
Proof.
  intros Hk. rewrite list_filter_filter. apply list_filter_iff.
  intros row. split; [tauto | intros ->; done].
Qed.

(** X18: a top-ten rollup (callers, destinations, devices).  It has at
    most ten groups, one per value of the column, none of them for the
    empty value; a group's count is the number of failed calls of the
    window with that value; the groups are listed by count, largest
    first; and a value of the window that is not listed is left out only
    because ten groups with counts at least as large are. *)
Theorem top_ten_ranking (col : FailedCall → string) (db : CDRDatabase)
    (now : datetime) (hours : Z) :
  let window := window_of db now hours in
  let top := top_ten col db now hours in
  (length top ≤ 10)%nat ∧
  (∀ b, b ∈ top →
        kc_key b ≠ "" ∧ 0 < kc_count b ∧
        kc_count b = Z.of_nat (length (filter (λ row, col row = kc_key b) window))) ∧
  NoDup (kc_key <$> top) ∧
  StronglySorted key_count_desc top ∧
  (∀ row, row ∈ window → col row ≠ "" →
          col row ∈ kc_key <$> top ∨
          (length top = 10%nat ∧
           ∀ b, b ∈ top →
                Z.of_nat (length (filter (λ r, col r = col row) window)) ≤ kc_count b)).
Proof.
  intros window top. subst top. rewrite top_ten_rows. cbn zeta. fold window.
  set (rows := filter (λ row, col row ≠ "") window).
  set (all := foldr insert_key_count [] (key_count_of col rows <$> keys_of col rows)).
  assert (Hperm : all ≡ₚ key_count_of col rows <$> keys_of col rows)
    by apply order_key_counts_perm.
  assert (Hsorted : StronglySorted key_count_desc all) by apply order_key_counts_sorted.
  assert (Hall : ∀ b, b ∈ all ↔ ∃ row, row ∈ rows ∧ b = key_count_of col rows (col row)).
  { intros b. rewrite Hperm, list_elem_of_fmap. split.
    - intros (k & -> & Hk). apply elem_of_keys_of in Hk as (row & Hin & <-). eauto.
    - intros (row & Hin & ->). exists (col row). split; [done |].
      apply elem_of_keys_of. eauto. }
  assert (Hcount : ∀ row, row ∈ rows →
            kc_count (key_count_of col rows (col row)) =
            Z.of_nat (length (filter (λ r, col r = col row) window))).
  { intros row Hin. cbn [key_count_of kc_count]. subst rows.
    apply list_elem_of_filter in Hin as [Hne _]. by rewrite filter_named_key. }
  rewrite <- (take_drop 10 all) in Hsorted.
  split_and!.
  - rewrite length_take. lia.
  - intros b Hb. apply subseteq_take, Hall in Hb as (row & Hin & ->).
    rewrite Hcount by done. cbn [key_count_of kc_key].
    pose proof Hin as Hin'. subst rows. apply list_elem_of_filter in Hin' as [Hne Hw].
    split_and!; [done | | done].
    assert (Hrow : row ∈ filter (λ r, col r = col row) window)
      by (by apply list_elem_of_filter).
    destruct (filter (λ r, col r = col row) window); [by apply elem_of_nil in Hrow |].
    cbn [length]. lia.
  - rewrite fmap_take. eapply sublist_NoDup; [| apply sublist_take].
    rewrite Hperm, key_count_of_keys. apply keys_of_NoDup.
  - by apply StronglySorted_app_1_l in Hsorted.
  - intros row Hw Hne.
    assert (Hin : row ∈ rows) by (by apply list_elem_of_filter).
    assert (Hb : key_count_of col rows (col row) ∈ all) by (apply Hall; eauto).
    rewrite <- (take_drop 10 all) in Hb. apply elem_of_app in Hb as [Hb | Hb].
    + left. apply list_elem_of_fmap. by exists (key_count_of col rows (col row)).
    + right. split.
      * rewrite length_take. apply Nat.min_l.
        destruct (Nat.le_gt_cases 10 (length all)) as [? | Hshort]; [done |].
        rewrite drop_ge in Hb by lia. by apply elem_of_nil in Hb.
      * intros b Hb'. rewrite <- Hcount by done.
        by apply (StronglySorted_app_1_elem_of _ _ _ _ _ Hsorted Hb' Hb).
Qed.

(** ** The list of failed calls *)

Lemma origination_le_total (a b : FailedCall) :
  origination_le a b = false → origination_le b a = true.
Proof.
  unfold origination_le.
  destruct (fc_date_time_origination a), (fc_date_time_origination b); try done.
  intros Hgt. apply Z.leb_gt in Hgt. apply Z.leb_le. lia.
Qed.

Lemma origination_le_trans (a b c : FailedCall) :
  origination_le a b = true → origination_le b c = true → origination_le a c = true.
Proof.
  unfold origination_le.
  destruct (fc_date_time_origination a), (fc_date_time_origination b),
    (fc_date_time_origination c); try done.
  intros Hab Hbc. apply Z.leb_le in Hab, Hbc. apply Z.leb_le. lia.
Qed.

Lemma insert_latest_first_perm (row : FailedCall) (sorted : list FailedCall) :
  insert_latest_first row sorted ≡ₚ row :: sorted.
Proof.
  induction sorted as [| r sorted IH]; simpl; [done |].
  destruct (origination_le row r); [| done].
  rewrite IH. apply Permutation_swap.
Qed.

Lemma insert_latest_first_sorted (row : FailedCall) (sorted : list FailedCall) :
  StronglySorted (λ a b, origination_le b a = true) sorted →
  StronglySorted (λ a b, origination_le b a = true) (insert_latest_first row sorted).
Proof.
  induction 1 as [| r sorted Hsorted IH Hr]; simpl.
  - repeat constructor.
  - destruct (origination_le row r) eqn:Hle.
    + constructor; [done |].
      rewrite insert_latest_first_perm. by constructor.
    + apply origination_le_total in Hle.
      constructor; [by constructor |].
      constructor; [done |]. eapply Forall_impl; [exact Hr |].
      intros x Hx. exact (origination_le_trans x r row Hx Hle).
Qed.

Lemma StronglySorted_refine {A : Type} (R R' : A → A → Prop) (l : list A) :
  (∀ a b, a ∈ l → b ∈ l → R a b → R' a b) →
  StronglySorted R l → StronglySorted R' l.
Proof.
  intros Himpl Hsorted. induction Hsorted as [| x l Hsorted IH Hx]; constructor.
  - apply IH. intros a b Ha Hb. apply Himpl; apply elem_of_cons; by right.
  - apply Forall_forall. intros y Hy. apply Himpl.
    + apply elem_of_cons. by left.
    + apply elem_of_cons. by right.
    + by eapply Forall_forall in Hx.
Qed.

(** X19: [get_failed_calls] returns the failed calls of the window, each
    as often as it is stored, and none else, the latest origination first. *)
Theorem get_failed_calls_latest_first (db : CDRDatabase) (now : datetime) (hours : Z) :
  get_failed_calls db now hours ≡ₚ window_of db now hours ∧
  StronglySorted later_or_same (get_failed_calls db now hours).
Proof.
  assert (Hperm : get_failed_calls db now hours ≡ₚ window_of db now hours).
  { unfold get_failed_calls, window_of, timedelta_hours. cbn zeta.
    generalize (filter (λ row, since (now - hours * 3600 * 1000000) row = true)
                  (failed_calls db)).
    intros l. induction l as [| row l IH]; [done |].
    cbn [foldr]. by rewrite insert_latest_first_perm, IH. }
  split; [done |].
  apply (StronglySorted_refine (λ a b, origination_le b a = true)).
  - intros a b Ha Hb Hle. rewrite Hperm in Ha, Hb.
    apply elem_of_window_of in Ha as (_ & t & Ht & _).
    apply elem_of_window_of in Hb as (_ & u & Hu & _).
    exists t, u. split_and!; [done | done |].
    unfold origination_le in Hle. rewrite Ht, Hu in Hle. by apply Z.leb_le.
  - unfold get_failed_calls. cbn zeta.
    generalize (filter (λ row, since (now - timedelta_hours hours) row = true)
                  (failed_calls db)).
    intros l. induction l as [| row l IH]; [constructor |].
    cbn [foldr]. by apply insert_latest_first_sorted.
Qed.

(** ** More on the sweep *)

Lemma filter_none {A : Type} (P : A → Prop) `{∀ x, Decision (P x)} (l : list A) :
  (∀ x, ¬ P x) → filter P l = [].
Proof.
  intros Hnone. induction l as [| x l IH]; [done |].
  by rewrite filter_cons, decide_False.
Qed.

(** X20: a sweep repeated at the same time with the same retention finds
    nothing left to delete and leaves the store as the first sweep did. *)
Theorem cleanup_idempotent (db : CDRDatabase) (now : datetime) (retention_days : Z) :
  cleanup_old_records (cleanup_old_records db now retention_days).1 now retention_days =
  ((cleanup_old_records db now retention_days).1, 0).
Proof.
  unfold cleanup_old_records. cbn [fst failed_calls processed_files].
  set (cutoff := now - timedelta_days retention_days).
  set (kept := filter (λ row, older_than cutoff row ≠ true) (failed_calls db)).
  assert (Hkept : filter (λ row, older_than cutoff row ≠ true) kept = kept).
  { subst kept. rewrite list_filter_filter. apply list_filter_iff. intros row. tauto. }
  assert (Hnone : filter (λ row, older_than cutoff row = true) kept = []).
  { subst kept. rewrite list_filter_filter. apply filter_none. intros row. tauto. }
  by rewrite Hkept, Hnone.
Qed.

(** X21: a sweep whose retention is at least as long as the analysis
    window does not touch the report: the window, the statistics, the
    list of failed calls and the rollups are what they were. *)
Theorem cleanup_keeps_window (db : CDRDatabase) (now : datetime)
    (retention_days hours : Z) :
  hours * 3600 ≤ retention_days * 86400 →
  let db' := (cleanup_old_records db now retention_days).1 in
  window_of db' now hours = window_of db now hours ∧
  get_failure_statistics db' now hours = get_failure_statistics db now hours ∧
  get_failed_calls db' now hours = get_failed_calls db now hours ∧
  (∀ col, top_ten col db' now hours = top_ten col db now hours).
Proof.
  intros Hlong db'.
  assert (Hsince : ∀ row, since (now - timedelta_hours hours) row = true →
                          older_than (now - timedelta_days retention_days) row ≠ true).
  { intros row. unfold since, older_than, timedelta_hours, timedelta_days.
    destruct (fc_date_time_origination row) as [t |]; [| done].
    rewrite Z.leb_le, Z.ltb_lt. lia. }
  assert (Hwin : filter (λ row, since (now - timedelta_hours hours) row = true)
                   (failed_calls db') =
                 filter (λ row, since (now - timedelta_hours hours) row = true)
                   (failed_calls db)).
  { subst db'. cbn [cleanup_old_records fst failed_calls].
    rewrite list_filter_filter. apply list_filter_iff. intros row.
    split; [tauto | intros Hs; split; [done | by apply Hsince]]. }
  split_and!.
  - exact Hwin.
  - unfold get_failure_statistics. cbn zeta. by rewrite Hwin.
  - unfold get_failed_calls. cbn zeta. by rewrite Hwin.
  - intros col. rewrite !top_ten_rows. cbn zeta.
    unfold window_of. fold (timedelta_hours hours).
    change (hours * 3600 * 1000000) with (timedelta_hours hours). by rewrite Hwin.
Qed.

(** ** The listing of the remote directory *)

Lemma insert_sorted_perm (s : string) (l : list string) : insert_sorted s l ≡ₚ s :: l.
Proof.
  induction l as [| t l IH]; simpl; [done |].
  destruct (String.leb s t); [done |]. rewrite IH. apply Permutation_swap.
Qed.

Lemma sorted_perm (l : list string) : sorted l ≡ₚ l.
Proof.
  unfold sorted. induction l as [| s l IH]; simpl; [done |].
  by rewrite insert_sorted_perm, IH.
Qed.

Lemma leb_trans (s t u : string) :
  String.leb s t = true → String.leb t u = true → String.leb s u = true.
Proof.
  rewrite !leb_str_lt. intros [Hst | ->] [Htu | ->]; try tauto.
  left. by eapply str_lt_trans.
Qed.

Lemma insert_sorted_sorted (s : string) (l : list string) :
  StronglySorted (λ a b, String.leb a b = true) l →
  StronglySorted (λ a b, String.leb a b = true) (insert_sorted s l).
Proof.
  induction 1 as [| t l Hsorted IH Ht]; simpl.
  - repeat constructor.
  - destruct (String.leb s t) eqn:Hle.
    + constructor; [by constructor |].
      constructor; [done |]. eapply Forall_impl; [exact Ht |].
      intros x Hx. exact (leb_trans s t x Hle Hx).
    + constructor; [done |].
      rewrite insert_sorted_perm. constructor; [| done].
      apply leb_str_lt. left. by apply leb_false_str_lt.
Qed.

Lemma sorted_sorted (l : list string) :
  StronglySorted (λ a b, String.leb a b = true) (sorted l).
Proof.
  unfold sorted. induction l as [| s l IH]; simpl; [constructor |].
  by apply insert_sorted_sorted.
Qed.

Section FetcherFacts.

Variable fromtimestamp : Z -> result datetime.

Lemma scan_listing_kept (cutoff_time : datetime) (files : list SFTPAttributes)
    (cdr_files : list string) :
  ∃ kept,
    scan_listing fromtimestamp cutoff_time files cdr_files = cdr_files ++ kept ∧
    Forall (λ name, ∃ file_attr, file_attr ∈ files ∧ filename file_attr = name ∧
                                 recent_cdr fromtimestamp cutoff_time file_attr = true) kept ∧
    ((∀ file_attr, file_attr ∈ files →
        String.prefix "cdr_" (filename file_attr) = true →
        ∃ mtime, fromtimestamp (st_mtime file_attr) = Ok mtime) →
     kept = filename <$> filter (λ file_attr, recent_cdr fromtimestamp cutoff_time file_attr = true) files).
Proof.
  revert cdr_files. induction files as [| file_attr files IH]; intros cdr_files.
  - exists []. rewrite app_nil_r. by split_and!.
  - cbn [scan_listing]. rewrite filter_cons.
    assert (Hlater : ∀ kept,
      Forall (λ name, ∃ fa, fa ∈ files ∧ filename fa = name ∧
                            recent_cdr fromtimestamp cutoff_time fa = true) kept →
      Forall (λ name, ∃ fa, fa ∈ file_attr :: files ∧ filename fa = name ∧
                            recent_cdr fromtimestamp cutoff_time fa = true) kept).
    { intros kept Hk. eapply Forall_impl; [exact Hk |].
      intros name (fa & Hin & Hn & Hr).
      exists fa. split_and!; [apply elem_of_cons; by right | done | done]. }
    assert (Hquiet : (∀ fa, fa ∈ file_attr :: files →
                        String.prefix "cdr_" (filename fa) = true →
                        ∃ mtime, fromtimestamp (st_mtime fa) = Ok mtime) →
                     ∀ fa, fa ∈ files →
                        String.prefix "cdr_" (filename fa) = true →
                        ∃ mtime, fromtimestamp (st_mtime fa) = Ok mtime).
    { intros Hall fa Hin. apply Hall, elem_of_cons. by right. }
    destruct (String.prefix "cdr_" (filename file_attr)) eqn:Hprefix.
    + destruct (fromtimestamp (st_mtime file_attr)) as [mtime | e] eqn:Hconv.
      * destruct (Z.leb_spec cutoff_time mtime) as [Hle | Hgt].
        -- assert (Hrecent : recent_cdr fromtimestamp cutoff_time file_attr = true)
             by (unfold recent_cdr; rewrite Hprefix, Hconv; by apply Z.leb_le).
           destruct (IH (cdr_files ++ [filename file_attr])) as (kept & -> & Hfrom & Hall).
           exists (filename file_attr :: kept). rewrite <- app_assoc. split_and!.
           ++ done.
           ++ constructor; [| by apply Hlater].
              exists file_attr. split_and!; [apply elem_of_cons; by left | done | done].
           ++ intros Hq. rewrite decide_True by done.
              rewrite fmap_cons. f_equal. by apply Hall, Hquiet.
        -- assert (Hrecent : recent_cdr fromtimestamp cutoff_time file_attr ≠ true).
           { unfold recent_cdr. rewrite Hprefix, Hconv. cbn [andb].
             rewrite Z.leb_le. lia. }
           destruct (IH cdr_files) as (kept & -> & Hfrom & Hall).
           exists kept. split_and!; [done | by apply Hlater |].
           intros Hq. rewrite decide_False by done. by apply Hall, Hquiet.
      * exists []. rewrite app_nil_r. split_and!; [done | constructor |].
        intros Hq. destruct (Hq file_attr) as [mtime Hm];
          [apply elem_of_cons; by left | done | congruence].
    + assert (Hrecent : recent_cdr fromtimestamp cutoff_time file_attr ≠ true)
        by (unfold recent_cdr; by rewrite Hprefix).
      destruct (IH cdr_files) as (kept & -> & Hfrom & Hall).
      exists kept. split_and!; [done | by apply Hlater |].
      intros Hq. rewrite decide_False by done. by apply Hall, Hquiet.
Qed.

(** X22: [list_cdr_files] returns its names in increasing order.  Each name is that of a listed entry which starts
    with "cdr_" and was modified at or after the cutoff; a listing that
    cannot be read gives no name; and when the time of every "cdr_" entry
    converts, the names returned are those of all such entries. *)
Theorem list_cdr_files_spec (listing : result (list SFTPAttributes))
    (now : datetime) (hours : Z) :
  let cutoff_time := now - hours * 3600 * 1000000 in
  let names := list_cdr_files fromtimestamp listing now hours in
  StronglySorted (λ a b, String.leb a b = true) names ∧
  (∀ file_attr, recent_cdr fromtimestamp cutoff_time file_attr = true ↔
     String.prefix "cdr_" (filename file_attr) = true ∧
     ∃ mtime, fromtimestamp (st_mtime file_attr) = Ok mtime ∧ cutoff_time ≤ mtime) ∧
  (∀ name, name ∈ names →
     ∃ files file_attr, listing = Ok files ∧ file_attr ∈ files ∧
                        filename file_attr = name ∧
                        recent_cdr fromtimestamp cutoff_time file_attr = true) ∧
  (∀ e, listing = Raise e → names = []) ∧
  (∀ files, listing = Ok files →
     (∀ file_attr, file_attr ∈ files →
        String.prefix "cdr_" (filename file_attr) = true →
        ∃ mtime, fromtimestamp (st_mtime file_attr) = Ok mtime) →
     names ≡ₚ filename <$> filter (λ file_attr, recent_cdr fromtimestamp cutoff_time file_attr = true)
                             files).
Proof.
  intros cutoff_time names. subst names. unfold list_cdr_files. cbn zeta.
  change (now - timedelta_hours hours) with cutoff_time.
  split_and!.
  - apply sorted_sorted.
  - intros file_attr. unfold recent_cdr. rewrite andb_true_iff.
    destruct (fromtimestamp (st_mtime file_attr)) as [mtime | e].
    + rewrite Z.leb_le. split; [intros [? ?]; eauto |].
      intros [? (m & [= <-] & ?)]. done.
    + split; [intros [_ [=]] | intros [_ (m & [=] & _)]].
  - intros name. rewrite sorted_perm.
    destruct listing as [files | e]; [| intros Hin; by apply elem_of_nil in Hin].
    destruct (scan_listing_kept cutoff_time files []) as (kept & -> & Hfrom & _).
    cbn [app]. intros Hin. eapply Forall_forall in Hfrom as (fa & Hfa & Hn & Hr); [| done].
    by exists files, fa.
  - by intros e ->.
  - intros files -> Hquiet. rewrite sorted_perm.
    destruct (scan_listing_kept cutoff_time files []) as (kept & -> & _ & Hall).
    cbn [app]. by rewrite Hall.
Qed.

End FetcherFacts.

(** ** The test-data generator *)

Lemma weighted_scan_elem (r : Q) (items : list (Z * Z)) (cumulative c : Z) :
  TestData.weighted_scan r items cumulative = Some c → c ∈ items.*1.
Proof.
  revert cumulative. induction items as [| [choice weight] items IH]; intros cumulative;
    cbn [TestData.weighted_scan]; [done |].
  rewrite fmap_cons. destruct (Qle_bool r (inject_Z (cumulative + weight))).
  - intros [= <-]. apply elem_of_cons. by left.
  - intros Hc. apply elem_of_cons. right. by eapply IH.
Qed.

Lemma weighted_scan_reaches (r : Q) (pre post : list (Z * Z)) (c w cumulative : Z) :
  Forall (λ cw, 0 ≤ cw.2) pre →
  (pre = [] ∨ (inject_Z (cumulative + sum_weights pre) < r)%Q) →
  (r <= inject_Z (cumulative + sum_weights pre + w))%Q →
  TestData.weighted_scan r (pre ++ (c, w) :: post) cumulative = Some c.
Proof.
  revert cumulative. induction pre as [| [c' w'] pre IH]; intros cumulative Hpos Hbelow Hreach.
  - cbn [app TestData.weighted_scan]. cbn [sum_weights foldr] in Hreach.
    rewrite Z.add_0_r in Hreach. apply Qle_bool_iff in Hreach. by rewrite Hreach.
  - apply Forall_cons in Hpos as [Hw' Hpos]. cbn [snd] in Hw'.
    destruct Hbelow as [[=] | Hbelow].
    cbn [sum_weights foldr snd] in Hbelow, Hreach. fold (sum_weights pre) in Hbelow, Hreach.
    assert (Hpre : 0 ≤ sum_weights pre).
    { clear -Hpos. induction Hpos as [| [? ?] ? ? ? IH]; cbn [sum_weights foldr snd];
        [done | fold (sum_weights l); simpl in *; lia]. }
    cbn [app TestData.weighted_scan].
    destruct (Qle_bool r (inject_Z (cumulative + w'))) eqn:Hle.
    + apply Qle_bool_iff in Hle. exfalso.
      apply (Qlt_not_le _ _ Hbelow). eapply Qle_trans; [exact Hle |].
      rewrite <- Zle_Qle. lia.
    + apply IH; [done | |].
      * right. by replace (cumulative + w' + sum_weights pre)
          with (cumulative + (w' + sum_weights pre)) by lia.
      * by replace (cumulative + w' + sum_weights pre + w)
          with (cumulative + (w' + sum_weights pre) + w) by lia.
Qed.

(** X23: [weighted_choice] never invents a choice: on a dictionary that is
    not empty it returns one of its keys, whatever number was drawn, and on
    an empty one it fails.  With weights that are not negative it returns
    the key at which the running sum of the weights first reaches the
    number drawn. *)
Theorem weighted_choice_spec (choices_dict : list (Z * Z)) (r : Q) :
  (choices_dict ≠ [] →
   ∃ c, TestData.weighted_choice choices_dict r = Some c ∧ c ∈ choices_dict.*1) ∧
  (choices_dict = [] → TestData.weighted_choice choices_dict r = None) ∧
  (∀ pre c w post,
     choices_dict = pre ++ (c, w) :: post →
     Forall (λ cw, 0 ≤ cw.2) pre →
     (pre = [] ∨ (inject_Z (sum_weights pre) < r)%Q) →
     (r <= inject_Z (sum_weights pre + w))%Q →
     TestData.weighted_choice choices_dict r = Some c).
Proof.
  unfold TestData.weighted_choice. split_and!.
  - intros Hne. destruct (TestData.weighted_scan r choices_dict 0) as [c |] eqn:Hscan.
    + exists c. split; [done | by eapply weighted_scan_elem].
    + destruct choices_dict as [| [c w] rest]; [done |].
      exists c. split; [done |]. rewrite fmap_cons. apply elem_of_cons. by left.
  - by intros ->.
  - intros pre c w post -> Hpos Hbelow Hreach.
    by rewrite (weighted_scan_reaches r pre post c w 0).
Qed.

Section RoundTrip.

Variable fromtimestamp : Z -> result datetime.

(** [decode_row], with each name replaced by its ordinal. *)
Lemma decode_row_at (row : list string) (ty : Z) :
  decode_row fromtimestamp row ty =
    (dto ← _parse_timestamp fromtimestamp (field_at row 4);
     dtc ← _parse_timestamp fromtimestamp (field_at row 47);
     dtd ← _parse_timestamp fromtimestamp (field_at row 48);
     Ok {| cdr_record_type := ty;
           global_call_id := field_at row 1 +:+ "-" +:+ field_at row 2;
           date_time_origination := dto;
           date_time_connect := dtc;
           date_time_disconnect := dtd;
           calling_party_number := field_at row 8;
           calling_party_unicode_name := "";
           original_called_party_number := field_at row 29;
           final_called_party_number := field_at row 30;
           last_redirect_dn := field_at row 49;
           orig_cause_value := _safe_int (field_at row 11) 0;
           dest_cause_value := _safe_int (field_at row 33) 0;
           duration := _safe_int (field_at row 55) 0;
           orig_device_name := field_at row 56;
           dest_device_name := field_at row 57;
           orig_ip_addr := field_at row 7;
           dest_ip_addr := field_at row 28;
           calling_party_number_partition := field_at row 52;
           original_called_party_number_partition := field_at row 51;
           final_called_party_number_partition := field_at row 53;
           hunt_pilot_dn := field_at row 101;
           hunt_pilot_partition := field_at row 102;
           call_termination_on_behalf_of := 0;
           orig_dtmf_method := 0;
           dest_dtmf_method := 0;
           mobile_calling_party_number := "";
           mobile_called_party_number := "";
           calling_party_device_type := "";
           final_called_party_device_type := "";
           orig_video_cap_bandwidth := 0;
           dest_video_cap_bandwidth := 0 |}).
Proof.
  unfold decode_row, _get_field_int.
  rewrite (_get_field_at row "globalCallID_callManagerId" 1) by bound_field.
  rewrite (_get_field_at row "globalCallID_callId" 2) by bound_field.
  rewrite (_get_field_at row "dateTimeOrigination" 4) by bound_field.
  rewrite (_get_field_at row "dateTimeConnect" 47) by bound_field.
  rewrite (_get_field_at row "dateTimeDisconnect" 48) by bound_field.
  rewrite (_get_field_at row "callingPartyNumber" 8) by bound_field.
  rewrite (_get_field_at row "originalCalledPartyNumber" 29) by bound_field.
  rewrite (_get_field_at row "finalCalledPartyNumber" 30) by bound_field.
  rewrite (_get_field_at row "lastRedirectDn" 49) by bound_field.
  rewrite (_get_field_at row "origCause_value" 11) by bound_field.
  rewrite (_get_field_at row "destCause_value" 33) by bound_field.
  rewrite (_get_field_at row "duration" 55) by bound_field.
  rewrite (_get_field_at row "origDeviceName" 56) by bound_field.
  rewrite (_get_field_at row "destDeviceName" 57) by bound_field.
  rewrite (_get_field_at row "origIpAddr" 7) by bound_field.
  rewrite (_get_field_at row "destIpAddr" 28) by bound_field.
  rewrite (_get_field_at row "callingPartyNumberPartition" 52) by bound_field.
  rewrite (_get_field_at row "originalCalledPartyNumberPartition" 51) by bound_field.
  rewrite (_get_field_at row "finalCalledPartyNumberPartition" 53) by bound_field.
  rewrite (_get_field_at row "huntPilotDN" 101) by bound_field.
  rewrite (_get_field_at row "huntPilotPartition" 102) by bound_field.
  done.
Qed.

Lemma field_at_Some (row : list string) (idx : nat) (v : string) :
  row !! idx = Some v → field_at row idx = strip v.
Proof. intros Hv. unfold field_at. by rewrite Hv. Qed.

Lemma _parse_timestamp_py_str (epoch : Z) (t : datetime) :
  0 < epoch < 10 ^ max_str_digits → fromtimestamp epoch = Ok t →
  _parse_timestamp fromtimestamp (py_str epoch) = Ok (Some t).
Proof.
  intros Hpos Hconv. rewrite _parse_timestamp_eq, py_int_py_str by lia.
  destruct (Z.ltb_spec 0 epoch); [| lia]. by rewrite Hconv.
Qed.

Lemma _safe_int_py_str (n : Z) :
  Z.abs n < 10 ^ max_str_digits → _safe_int (py_str n) 0 = n.
Proof. intros Hn. unfold _safe_int. by rewrite py_str_truthy, py_int_py_str. Qed.

(** The numbers the generator draws are far below the limit of [str]. *)
Lemma drawn_fits (n : Z) : Z.abs n ≤ 999999 → Z.abs n < 10 ^ max_str_digits.
Proof.
  intros Hn. assert (999999 < 10 ^ max_str_digits) by (vm_compute; reflexivity). lia.
Qed.

Lemma pool_trimmed (s : string) :
  s ∈ TestData.CALLING_NUMBERS ++ TestData.CALLED_NUMBERS ++
      TestData.DEVICE_NAMES ++ TestData.IP_ADDRESSES →
  strip s = s.
Proof.
  intros Hin. apply strip_no_space.
  assert (Hall : Forall (λ s, all_chars (λ c, negb (is_space c)) s = true)
            (TestData.CALLING_NUMBERS ++ TestData.CALLED_NUMBERS ++
             TestData.DEVICE_NAMES ++ TestData.IP_ADDRESSES))
    by (apply (bool_decide_unpack _); vm_compute; reflexivity).
  by eapply Forall_forall in Hall.
Qed.

(** X24: the generator and the decoder agree.  A row that
    [generate_cdr_row] writes for an epoch after 0, from values its
    random draws can take, is decoded into a record, provided [str] can
    print the times of the call (they have at most 4300 digits, as the
    epoch of every [datetime] has) and the host converts them; the record
    is failed exactly when the row was generated as a failed call, and
    carries the identifier, the causes, the duration, the numbers, the
    devices and the addresses that were written. *)
Theorem generated_row_decodes (epoch_origination : Z) (flag : bool)
    (d : TestData.Draws) :
  TestData.possible d →
  0 < epoch_origination →
  epoch_origination + 610 < 10 ^ max_str_digits →
  (∀ e, epoch_origination ≤ e ≤ epoch_origination + 610 →
        ∃ t, fromtimestamp e = Ok t) →
  ∃ record,
    parse_row fromtimestamp (TestData.generate_cdr_row epoch_origination flag d)
      = Some record ∧
    is_failed record = flag ∧
    (∃ t, fromtimestamp epoch_origination = Ok t ∧
          date_time_origination record = Some t) ∧
    global_call_id record =
      py_str (TestData.call_manager_id d) +:+ "-" +:+ py_str (TestData.call_id d) ∧
    duration record = (if flag then 0 else TestData.duration_drawn d) ∧
    orig_cause_value record = (if flag then 0 else TestData.success_orig_cause d) ∧
    dest_cause_value record =
      (if flag then TestData.failed_dest_cause d else TestData.success_dest_cause d) ∧
    calling_party_number record = TestData.calling_number d ∧
    original_called_party_number record = TestData.called_number d ∧
    final_called_party_number record = TestData.called_number d ∧
    orig_device_name record = TestData.orig_device d ∧
    dest_device_name record = TestData.dest_device d ∧
    orig_ip_addr record = TestData.orig_ip d ∧
    dest_ip_addr record = TestData.dest_ip d.
Proof.
  intros Hd Hpos Hfits Hconv.
  destruct Hd as (Hcalling & Hcalled & Hodev & Hddev & Hoip & Hdip & Hcm & Hcid &
                  Hfcause & Hdisc & Hdur & Hsd & Hso & Hconn & Hleg & Hnode).
  assert (Hfailed_cause : 1 ≤ TestData.failed_dest_cause d ≤ 34).
  { unfold TestData.FAILED_CAUSE_CODES in Hfcause.
    rewrite !fmap_cons, !elem_of_cons in Hfcause. cbn [fst] in Hfcause.
    rewrite fmap_nil, elem_of_nil in Hfcause. lia. }
  assert (Hsuccess_dest : 0 ≤ TestData.success_dest_cause d ≤ 16).
  { unfold TestData.SUCCESS_CAUSE_CODES in Hsd.
    rewrite !elem_of_cons, elem_of_nil in Hsd. lia. }
  assert (Hsuccess_orig : 0 ≤ TestData.success_orig_cause d ≤ 16).
  { unfold TestData.SUCCESS_CAUSE_CODES in Hso.
    rewrite !elem_of_cons, elem_of_nil in Hso. lia. }
  set (row := TestData.generate_cdr_row epoch_origination flag d).
  destruct (Hconv epoch_origination) as [t Ht]; [lia |].
  assert (Horig : _parse_timestamp fromtimestamp (field_at row 4) = Ok (Some t)).
  { rewrite (field_at_Some row 4 (py_str epoch_origination)) by reflexivity.
    rewrite strip_py_str. apply _parse_timestamp_py_str; [lia | done]. }
  assert (Hc : ∃ dtc, _parse_timestamp fromtimestamp (field_at row 47) = Ok dtc).
  { destruct flag.
    - rewrite (field_at_Some row 47 "") by reflexivity. by exists None.
    - rewrite (field_at_Some row 47
                 (if epoch_origination + TestData.connect_delay d =? 0 then ""
                  else py_str (epoch_origination + TestData.connect_delay d)))
        by reflexivity.
      destruct (Z.eqb_spec (epoch_origination + TestData.connect_delay d) 0); [lia |].
      rewrite strip_py_str.
      destruct (Hconv (epoch_origination + TestData.connect_delay d)) as [u Hu]; [lia |].
      exists (Some u). apply _parse_timestamp_py_str; [lia | done]. }
  assert (Hdd : ∃ dtd, _parse_timestamp fromtimestamp (field_at row 48) = Ok dtd).
  { destruct flag.
    - rewrite (field_at_Some row 48
                 (py_str (epoch_origination + TestData.disconnect_delay d)))
        by reflexivity.
      rewrite strip_py_str.
      destruct (Hconv (epoch_origination + TestData.disconnect_delay d)) as [u Hu]; [lia |].
      exists (Some u). apply _parse_timestamp_py_str; [lia | done].
    - rewrite (field_at_Some row 48
                 (py_str (epoch_origination + TestData.connect_delay d +
                          TestData.duration_drawn d))) by reflexivity.
      rewrite strip_py_str.
      destruct (Hconv (epoch_origination + TestData.connect_delay d +
                       TestData.duration_drawn d)) as [u Hu]; [lia |].
      exists (Some u). apply _parse_timestamp_py_str; [lia | done]. }
  destruct Hc as [dtc Hc], Hdd as [dtd Hdd].
  assert (Hfields :
    field_at row 1 = py_str (TestData.call_manager_id d) ∧
    field_at row 2 = py_str (TestData.call_id d) ∧
    field_at row 11 = py_str (if flag then 0 else TestData.success_orig_cause d) ∧
    field_at row 33 = py_str (if flag then TestData.failed_dest_cause d
                              else TestData.success_dest_cause d) ∧
    field_at row 55 = py_str (if flag then 0 else TestData.duration_drawn d) ∧
    field_at row 8 = TestData.calling_number d ∧
    field_at row 29 = TestData.called_number d ∧
    field_at row 30 = TestData.called_number d ∧
    field_at row 56 = TestData.orig_device d ∧
    field_at row 57 = TestData.dest_device d ∧
    field_at row 7 = TestData.orig_ip d ∧
    field_at row 28 = TestData.dest_ip d).
  { rewrite (field_at_Some row 1 (py_str (TestData.call_manager_id d))) by reflexivity.
    rewrite (field_at_Some row 2 (py_str (TestData.call_id d))) by reflexivity.
    rewrite (field_at_Some row 11
               (py_str (if flag then 0 else TestData.success_orig_cause d)))
      by (by destruct flag).
    rewrite (field_at_Some row 33
               (py_str (if flag then TestData.failed_dest_cause d
                        else TestData.success_dest_cause d)))
      by (by destruct flag).
    rewrite (field_at_Some row 55
               (py_str (if flag then 0 else TestData.duration_drawn d)))
      by (by destruct flag).
    rewrite (field_at_Some row 8 (TestData.calling_number d)) by reflexivity.
    rewrite (field_at_Some row 29 (TestData.called_number d)) by reflexivity.
    rewrite (field_at_Some row 30 (TestData.called_number d)) by reflexivity.
    rewrite (field_at_Some row 56 (TestData.orig_device d)) by reflexivity.
    rewrite (field_at_Some row 57 (TestData.dest_device d)) by reflexivity.
    rewrite (field_at_Some row 7 (TestData.orig_ip d)) by reflexivity.
    rewrite (field_at_Some row 28 (TestData.dest_ip d)) by reflexivity.
    rewrite !strip_py_str.
    split_and!; try done; apply pool_trimmed; rewrite !elem_of_app; tauto. }
  destruct Hfields as (H1 & H2 & H11 & H33 & H55 & H8 & H29 & H30 & H56 & H57 & H7 & H28).
  assert (Hrow : ∃ record,
    parse_row fromtimestamp row = Some record ∧
    date_time_origination record = Some t ∧
    global_call_id record = field_at row 1 +:+ "-" +:+ field_at row 2 ∧
    duration record = _safe_int (field_at row 55) 0 ∧
    orig_cause_value record = _safe_int (field_at row 11) 0 ∧
    dest_cause_value record = _safe_int (field_at row 33) 0 ∧
    calling_party_number record = field_at row 8 ∧
    original_called_party_number record = field_at row 29 ∧
    final_called_party_number record = field_at row 30 ∧
    orig_device_name record = field_at row 56 ∧
    dest_device_name record = field_at row 57 ∧
    orig_ip_addr record = field_at row 7 ∧
    dest_ip_addr record = field_at row 28).
  { unfold parse_row.
    change (bool_decide (row = []) || (length row <? 50)%nat) with false.
    change (_safe_int (match row with c :: _ => c | [] => "0" end) 0) with 1.
    cbn [negb Z.eqb Pos.eqb]. rewrite decode_row_at, Horig, Hc, Hdd.
    cbn [mbind result_bind date_time_origination].
    rewrite bool_decide_eq_true_2 by eauto.
    eexists. split; [reflexivity |]. by split_and!. }
  destruct Hrow as (record & Hrec & Hdto & Hid & Hdu & Hoc & Hdc & Hcp & Hoc' & Hfc &
                    Hod & Hdd' & Hoi & Hdi).
  exists record.
  rewrite Hdto, Hid, Hdu, Hoc, Hdc, Hcp, Hoc', Hfc, Hod, Hdd', Hoi, Hdi.
  rewrite H1, H2, H11, H33, H55, H8, H29, H30, H56, H57, H7, H28.
  rewrite !_safe_int_py_str by (apply drawn_fits; destruct flag; lia).
  split_and!; try done; [| by exists t].
  destruct flag.
  - apply is_failed_unfold.
    rewrite Hdu, H55, _safe_int_py_str by (apply drawn_fits; lia). split; [done |].
    left. rewrite Hdc, H33, _safe_int_py_str by (apply drawn_fits; lia).
    apply not_in_SUCCESS_CODES.
    unfold outside_success. unfold TestData.FAILED_CAUSE_CODES in Hfcause.
    rewrite !fmap_cons, !elem_of_cons in Hfcause. cbn [fst] in Hfcause.
    rewrite fmap_nil, elem_of_nil in Hfcause. lia.
  - apply not_true_is_false.
    rewrite is_failed_unfold, Hdu, H55, _safe_int_py_str by (apply drawn_fits; lia). lia.
Qed.

End RoundTrip.

(** ** The tables of cause codes *)

Lemma FAILED_CAUSE_CODES_known :
  set_Forall (λ c, (c ∉ SUCCESS_CODES) ∧ (c ≠ 0) ∧ is_Some (CAUSE_CODES !! c))
    FAILED_CAUSE_CODES.
Proof. apply (bool_decide_unpack _). vm_compute. reflexivity. Qed.

(** X25: the code sets agree with the classifier.  Every code of
    [FAILED_CAUSE_CODES] is outside the success codes and has a text in
    the table; so a call of duration 0 whose terminating cause is one of
    them is failed, the terminating cause is its primary cause, and its
    reason is the text of that code, never "Unknown cause code". *)
Theorem failed_codes_classified (r : CDRRecord) :
  duration r = 0 → dest_cause_value r ∈ FAILED_CAUSE_CODES →
  is_failed r = true ∧
  primary_cause_code r = dest_cause_value r ∧
  CAUSE_CODES !! dest_cause_value r = Some (failure_reason r).
Proof.
  intros Hd Hin.
  destruct (FAILED_CAUSE_CODES_known _ Hin) as (Hout & Hnz & [text Htext]).
  assert (Hprimary : primary_cause_code r = dest_cause_value r)
    by (by apply primary_cause_code_cases).
  split_and!.
  - apply is_failed_unfold. split; [done | by left].
  - done.
  - rewrite failure_reason_primary, Hprimary. unfold reason_of_cause. by rewrite Htext.
Qed.

(** ** The tables of the PDF report *)

Lemma length_append (s t : string) :
  String.length (s +:+ t) = (String.length s + String.length t)%nat.
Proof. induction s as [| c s IH]; simpl; [done | by rewrite IH]. Qed.

Lemma length_substring_0 (n : nat) (s : string) :
  (n ≤ String.length s)%nat → String.length (substring 0 n s) = n.
Proof.
  revert s. induction n as [| n IH]; intros s Hn.
  - by destruct s.
  - destruct s as [| c s]; simpl in *; [lia |]. rewrite IH; lia.
Qed.

Lemma shorten_reason_length (reason : string) :
  (String.length (shorten_reason reason) ≤ 43)%nat.
Proof.
  unfold shorten_reason.
  destruct (Nat.ltb_spec 40 (String.length reason)) as [Hlong | Hshort]; [| lia].
  rewrite length_append, length_substring_0 by lia. simpl. lia.
Qed.

(** X26: the cause table is always built, whatever total the statistics
    carry: it is left out exactly when there is no bucket, and else has a
    header and one row for each of the first fifteen buckets, each row of
    four cells, with a reason of at most 43 characters that is the stored
    reason when that has at most 40 and its first 40 followed by "..."
    otherwise. *)
Theorem cause_table_shape (stats : Statistics) :
  ∃ table, cause_table stats = Ok table ∧
    (table = None ↔ by_cause stats = []) ∧
    ∀ rows, table = Some rows →
      length rows = S (min 15 (length (by_cause stats))) ∧
      rows !! 0%nat = Some cause_table_header ∧
      ∀ i item, by_cause stats !! i = Some item → (i < 15)%nat →
        ∃ pct, rows !! S i =
                 Some [ py_str (cc_dest_cause_value item);
                        shorten_reason (cc_failure_reason item);
                        py_str (cc_count item); pct ] ∧
               (String.length (shorten_reason (cc_failure_reason item)) ≤ 43)%nat ∧
               ((String.length (cc_failure_reason item) ≤ 40)%nat →
                shorten_reason (cc_failure_reason item) = cc_failure_reason item) ∧
               ((40 < String.length (cc_failure_reason item))%nat →
                shorten_reason (cc_failure_reason item) =
                  substring 0 40 (cc_failure_reason item) +:+ "...").
Proof.
  unfold cause_table.
  destruct (by_cause stats) as [| item0 items] eqn:Hb.
  { exists None. split_and!; [done | done | done]. }
  set (total := or_one (total_failed_calls stats)).
  set (cell := λ item,
    [ py_str (cc_dest_cause_value item); shorten_reason (cc_failure_reason item);
      py_str (cc_count item);
      percentage_text (nearest_quotient (cc_count item) total * 100)%float ]).
  rewrite (mapM_Ok (cause_table_row total) cell).
  2: { intros x. unfold cause_table_row.
       by rewrite py_truediv_nonzero by apply or_one_nonzero. }
  cbn [mbind result_bind].
  exists (Some (cause_table_header :: (cell <$> take 15 (item0 :: items)))).
  split_and!; [done | split; done |].
  intros rows [= <-]. split_and!.
  - cbn [length]. by rewrite length_fmap, length_take.
  - done.
  - intros i item Hi Hlt. exists (percentage_text
      (nearest_quotient (cc_count item) total * 100)%float).
    split_and!.
    + assert (Hcell : (cell <$> take 15 (item0 :: items)) !! i = Some (cell item))
        by (rewrite list_lookup_fmap, lookup_take_lt by done; by rewrite Hi).
      exact Hcell.
    + apply shorten_reason_length.
    + intros Hshort. unfold shorten_reason.
      by destruct (Nat.ltb_spec 40 (String.length (cc_failure_reason item))); [lia |].
    + intros Hlong. unfold shorten_reason.
      by destruct (Nat.ltb_spec 40 (String.length (cc_failure_reason item))); [| lia].
Qed.

Lemma top_ten_empty (col : FailedCall → string) (db : CDRDatabase)
    (now : datetime) (hours : Z) :
  top_ten col db now hours = [] ↔
  ∀ row, row ∈ window_of db now hours → col row = "".
Proof.
  rewrite top_ten_rows. cbn zeta.
  set (rows := filter (λ row, col row ≠ "") (window_of db now hours)).
  set (all := foldr insert_key_count [] (key_count_of col rows <$> keys_of col rows)).
  assert (Hall : all = [] ↔ keys_of col rows = []).
  { split.
    - intros Hnil. pose proof (order_key_counts_perm
        (key_count_of col rows <$> keys_of col rows)) as Hperm.
      fold all in Hperm. rewrite Hnil in Hperm.
      apply Permutation_nil_l in Hperm. symmetry in Hperm.
      by apply fmap_nil_inv in Hperm.
    - intros Hnil. subst all. by rewrite Hnil. }
  assert (Htake : take 10 all = [] ↔ all = [])
    by (destruct all; [done | split; done]).
  rewrite Htake, Hall. split.
  - intros Hnil row Hin. destruct (decide (col row = "")) as [| Hne]; [done |].
    assert (Hk : col row ∈ keys_of col rows).
    { apply elem_of_keys_of. exists row. split; [| done].
      subst rows. by apply list_elem_of_filter. }
    rewrite Hnil in Hk. by apply elem_of_nil in Hk.
  - intros Hempty. destruct (keys_of col rows) as [| k keys] eqn:Hkeys; [done |].
    assert (Hk : k ∈ keys_of col rows) by (rewrite Hkeys; apply elem_of_cons; by left).
    apply elem_of_keys_of in Hk as (row & Hin & _).
    subst rows. apply list_elem_of_filter in Hin as [Hne Hin].
    by destruct Hne; apply Hempty.
Qed.

(** X27: the device table of the PDF report, fed with the device rollup
    of the statistics.  The section is left out exactly when no failed
    call of the window names an originating device; otherwise it is the
    header followed by one row (device, count as text) for every group of
    the rollup, in the rollup's order: the slice to ten drops nothing,
    and there are at most eleven rows in all. *)
Theorem device_table_spec (db : CDRDatabase) (now : datetime) (hours : Z) :
  let top := top_devices db now hours in
  (device_table top = None ↔
     ∀ row, row ∈ window_of db now hours → fc_orig_device_name row = "") ∧
  ∀ table, device_table top = Some table →
    table = [ "Device Name"; "Failed Calls" ] ::
            ((λ item, [ kc_key item; py_str (kc_count item) ]) <$> top) ∧
    (length table ≤ 11)%nat.
Proof.
  intros top. split.
  - rewrite <- (top_ten_empty fc_orig_device_name). fold top_devices. fold top.
    unfold device_table. by destruct top.
  - intros table Htable.
    assert (Htop : take 10 top = top ∧ (length top ≤ 10)%nat).
    { subst top. unfold top_devices, top_ten. cbn zeta.
      rewrite take_take, length_take. split; [done | lia]. }
    destruct Htop as [Htake Hlen]. clearbody top.
    unfold device_table in Htable. rewrite Htake in Htable.
    destruct top as [| item items]; [done |].
    injection Htable as <-. split; [done |].
    cbn [length]. rewrite length_fmap. cbn [length] in Hlen. lia.
Qed.

(** ** The further statements at the sample data *)

(** A store built by ingesting one file into the empty store has the
    invariants of ingestion. *)
Lemma first_file_ingested (now : datetime) (f : CDRFile) :
  Forall ingested
    (failed_calls (process_file utc_fromtimestamp now (empty_database, 0, 0) f).1).
Proof.
  destruct (process_file_step utc_fromtimestamp now (empty_database, 0, 0) f)
    as (added & -> & Hadded & _).
  apply Forall_app. split; [done |].
  eapply Forall_impl; [exact Hadded |].
  intros row (record & Hin & Hfailed & ->). exists record, (file_hash f).
  split_and!; [done | by eapply parse_file_origination | done].
Qed.

Lemma first_file_unique_keys (now : datetime) (f : CDRFile) :
  unique_keys
    (failed_calls (process_file utc_fromtimestamp now (empty_database, 0, 0) f).1).
Proof.
  apply process_file_unique. intros i j a b Ha.
  cbn [fst failed_calls empty_database] in Ha. by rewrite lookup_nil in Ha.
Qed.

Lemma parse_row_fields_witness :
  parse_row utc_fromtimestamp (sample_row "100001" "1700000000" "0" "17" "0")
    = Some busy_record ∧
  global_call_id busy_record =
    field_at (sample_row "100001" "1700000000" "0" "17" "0") 1 +:+ "-" +:+
    field_at (sample_row "100001" "1700000000" "0" "17" "0") 2 ∧
  dest_cause_value busy_record =
    _safe_int (field_at (sample_row "100001" "1700000000" "0" "17" "0") 33) 0 ∧
  orig_device_name busy_record =
    field_at (sample_row "100001" "1700000000" "0" "17" "0") 56.
Proof.
  assert (Hrow : parse_row utc_fromtimestamp
                   (sample_row "100001" "1700000000" "0" "17" "0") = Some busy_record)
    by (vm_compute; reflexivity).
  split; [exact Hrow |].
  pose proof (parse_row_fields utc_fromtimestamp _ _ Hrow) as Hfields.
  split_and!; apply Hfields.
Defined.

Lemma process_file_records_witness :
  is_file_processed busy_store (file_name orig_only_file) (file_hash orig_only_file)
    = false ∧
  (process_file utc_fromtimestamp sample_now (busy_store, 3, 3) orig_only_file).2 =
    Ok (3 + Z.of_nat (length (parse_file utc_fromtimestamp (file_rows orig_only_file)).1),
        3 + failed_count_of (parse_file utc_fromtimestamp (file_rows orig_only_file)).1).
Proof.
  assert (Hfresh : is_file_processed busy_store (file_name orig_only_file)
                     (file_hash orig_only_file) = false) by (vm_compute; reflexivity).
  assert (Hfit : Forall (λ record, is_failed record = true → binds_int64 record = true)
                   (parse_file utc_fromtimestamp (file_rows orig_only_file)).1)
    by (apply (bool_decide_unpack _); vm_compute; reflexivity).
  split; [exact Hfresh |].
  pose proof (process_file_records utc_fromtimestamp sample_now busy_store 3 3
                orig_only_file Hfresh) as Hrecords.
  cbn zeta in Hrecords. by apply Hrecords.
Defined.

(** A file whose second call leg has an originating cause of 2^63: the
    pass stores the first leg, raises at the second and writes no
    marker. *)
Example process_file_overflow :
  (process_file utc_fromtimestamp sample_now (busy_store, 3, 3) overflow_file).2 =
    Raise OverflowError ∧
  fc_global_call_id <$>
    failed_calls
      (process_file utc_fromtimestamp sample_now (busy_store, 3, 3) overflow_file).1 =
    [ "1-100001"; "1-100002"; "1-100003"; "1-100005" ] ∧
  processed_files
    (process_file utc_fromtimestamp sample_now (busy_store, 3, 3) overflow_file).1
    !! file_name overflow_file = None.
Proof. split_and!; vm_compute; reflexivity. Qed.

Lemma unique_keys_kept_witness :
  unique_keys (failed_calls busy_store) ∧
  unique_keys
    (failed_calls
       (fetch_and_process_cdr_files utc_fromtimestamp busy_store
          [ (sample_now, busy_file); (sample_now, orig_only_file) ]).1) ∧
  unique_keys (failed_calls (cleanup_old_records busy_store sample_now 7).1).
Proof.
  assert (Huniq : unique_keys (failed_calls busy_store))
    by apply first_file_unique_keys.
  split; [exact Huniq |].
  pose proof (unique_keys_kept utc_fromtimestamp busy_store Huniq) as [Hrun Hsweep].
  split; [apply Hrun | apply Hsweep].
Defined.

Lemma redelivery_adds_nothing_witness :
  is_file_processed empty_database (file_name busy_file) (file_hash busy_file) = false ∧
  failed_calls
    (process_file utc_fromtimestamp (sample_now + 60000000)
       ((process_file utc_fromtimestamp sample_now (empty_database, 0, 0) busy_file).1,
        0, 0)
       {| file_name := "cdr_StandAloneCluster_01_202311142213_1.retry";
          file_hash := "d41d8cd98f00b204e9800998ecf8427e";
          file_rows := file_rows busy_file |}).1 =
  failed_calls
    (process_file utc_fromtimestamp sample_now (empty_database, 0, 0) busy_file).1.
Proof.
  assert (Hfresh : is_file_processed empty_database (file_name busy_file)
                     (file_hash busy_file) = false) by (vm_compute; reflexivity).
  split; [exact Hfresh |].
  exact (redelivery_adds_nothing utc_fromtimestamp sample_now (sample_now + 60000000)
           empty_database 0 0 0 0 busy_file
           {| file_name := "cdr_StandAloneCluster_01_202311142213_1.retry";
              file_hash := "d41d8cd98f00b204e9800998ecf8427e";
              file_rows := file_rows busy_file |} Hfresh eq_refl).
Defined.

Lemma rerun_is_noop_witness :
  NoDup ((λ nf : datetime * CDRFile, file_name nf.2) <$>
           [ (sample_now, busy_file); (sample_now, overflow_file) ]) ∧
  fetch_and_process_cdr_files utc_fromtimestamp
    (fetch_and_process_cdr_files utc_fromtimestamp empty_database
       [ (sample_now, busy_file); (sample_now, overflow_file) ]).1
    [ (sample_now + 60000000, busy_file); (sample_now + 61000000, overflow_file) ] =
  ((fetch_and_process_cdr_files utc_fromtimestamp empty_database
      [ (sample_now, busy_file); (sample_now, overflow_file) ]).1,
   Raise OverflowError).
Proof.
  assert (Hnames : NoDup ((λ nf : datetime * CDRFile, file_name nf.2) <$>
                     [ (sample_now, busy_file); (sample_now, overflow_file) ]))
    by (apply (bool_decide_unpack _); vm_compute; reflexivity).
  assert (Hraised : (fetch_and_process_cdr_files utc_fromtimestamp empty_database
                       [ (sample_now, busy_file); (sample_now, overflow_file) ]).2 =
                    Raise OverflowError) by (vm_compute; reflexivity).
  split; [exact Hnames |].
  pose proof (rerun_is_noop utc_fromtimestamp empty_database
           [ (sample_now, busy_file); (sample_now, overflow_file) ]
           [ (sample_now + 60000000, busy_file); (sample_now + 61000000, overflow_file) ]
           Hnames eq_refl) as Hrerun.
  rewrite Hraised in Hrerun. exact Hrerun.
Defined.

Lemma ingested_kept_witness :
  Forall ingested (failed_calls busy_store) ∧
  Forall ingested
    (failed_calls
       (fetch_and_process_cdr_files utc_fromtimestamp busy_store
          [ (sample_now, orig_only_file) ]).1) ∧
  Forall ingested (failed_calls (cleanup_old_records busy_store sample_now 7).1).
Proof.
  assert (Hstore : Forall ingested (failed_calls busy_store))
    by apply first_file_ingested.
  split; [exact Hstore |].
  pose proof (ingested_kept utc_fromtimestamp busy_store Hstore) as (Hrun & Hsweep & _).
  split; [apply Hrun | apply Hsweep].
Defined.

Lemma by_cause_reasons_witness :
  Forall ingested (failed_calls orig_only_store) ∧
  {| cc_dest_cause_value := 0; cc_failure_reason := "User busy"; cc_count := 1 |}
    ∈ by_cause (get_failure_statistics orig_only_store sample_now 24) ∧
  ∃ c, outside_success c ∧ "User busy" = reason_of_cause c.
Proof.
  assert (Hstore : Forall ingested (failed_calls orig_only_store))
    by apply first_file_ingested.
  assert (Hbucket :
    {| cc_dest_cause_value := 0; cc_failure_reason := "User busy"; cc_count := 1 |}
      ∈ by_cause (get_failure_statistics orig_only_store sample_now 24)).
  { replace (by_cause (get_failure_statistics orig_only_store sample_now 24))
      with [ {| cc_dest_cause_value := 0; cc_failure_reason := "User busy";
                cc_count := 1 |} ] by (vm_compute; reflexivity).
    by apply list_elem_of_singleton. }
  split_and!; [exact Hstore | exact Hbucket |].
  exact (proj2 (by_cause_reasons orig_only_store sample_now 24 _ Hstore Hbucket) eq_refl).
Defined.

Lemma cleanup_keeps_window_witness :
  24 * 3600 ≤ 7 * 86400 ∧
  get_failure_statistics (cleanup_old_records busy_store sample_now 7).1 sample_now 24 =
    get_failure_statistics busy_store sample_now 24 ∧
  get_failed_calls (cleanup_old_records busy_store sample_now 7).1 sample_now 24 =
    get_failed_calls busy_store sample_now 24.
Proof.
  assert (Hwindow : 24 * 3600 ≤ 7 * 86400) by lia.
  split; [exact Hwindow |].
  pose proof (cleanup_keeps_window busy_store sample_now 7 24 Hwindow) as Hkeeps.
  cbn zeta in Hkeeps. split; apply Hkeeps.
Defined.

Lemma generated_row_decodes_witness :
  TestData.possible TestData.sample_draws ∧
  ∃ record,
    parse_row utc_fromtimestamp
      (TestData.generate_cdr_row 1700000000 true TestData.sample_draws) = Some record ∧
    is_failed record = true ∧
    dest_cause_value record = TestData.failed_dest_cause TestData.sample_draws ∧
    calling_party_number record = TestData.calling_number TestData.sample_draws.
Proof.
  assert (Hpossible : TestData.possible TestData.sample_draws).
  { unfold TestData.possible. cbn [TestData.sample_draws TestData.calling_number
      TestData.called_number TestData.orig_device TestData.dest_device TestData.orig_ip
      TestData.dest_ip TestData.call_manager_id TestData.call_id
      TestData.failed_dest_cause TestData.disconnect_delay TestData.duration_drawn
      TestData.success_dest_cause TestData.success_orig_cause TestData.connect_delay
      TestData.orig_leg TestData.orig_node].
    split_and!; try lia; apply (bool_decide_unpack _); vm_compute; reflexivity. }
  assert (Hclock : ∀ e, 1700000000 ≤ e ≤ 1700000000 + 610 →
                        ∃ t, utc_fromtimestamp e = Ok t).
  { intros e He. unfold utc_fromtimestamp.
    destruct (Z.ltb_spec e 253402300800); [by eexists | lia]. }
  split; [exact Hpossible |].
  assert (Hprints : 1700000000 + 610 < 10 ^ max_str_digits)
    by (vm_compute; reflexivity).
  destruct (generated_row_decodes utc_fromtimestamp 1700000000 true
              TestData.sample_draws Hpossible eq_refl Hprints Hclock)
    as (record & Hrow & Hfailed & _ & _ & _ & _ & Hcause & Hcalling & _).
  exists record. split_and!; [exact Hrow | exact Hfailed | exact Hcause | exact Hcalling].
Defined.

Lemma failed_codes_classified_witness :
  duration (with_causes 0 17 0) = 0 ∧
  dest_cause_value (with_causes 0 17 0) ∈ FAILED_CAUSE_CODES ∧
  is_failed (with_causes 0 17 0) = true ∧
  CAUSE_CODES !! dest_cause_value (with_causes 0 17 0)
    = Some (failure_reason (with_causes 0 17 0)).
Proof.
  assert (Hcode : dest_cause_value (with_causes 0 17 0) ∈ FAILED_CAUSE_CODES)
    by (apply (bool_decide_unpack _); vm_compute; reflexivity).
  split_and!; [reflexivity | exact Hcode | |];
    apply (failed_codes_classified (with_causes 0 17 0) eq_refl Hcode).
Defined.

(** ** The csv reader on plain lines *)

Lemma length_append_char (s : string) (c : ascii) :
  String.length (s +:+ String c "") = S (String.length s).
Proof. induction s as [| c' s IH]; simpl; [done | by rewrite IH]. Qed.

(** The machine inside a record of plain fields, at the start of a field
    or in one, reads the rest of the line as its fields. *)
Lemma parse_line_plain (rest : string) (r : Csv.Reader) :
  ((Csv.state r = Csv.START_FIELD ∧ Csv.field r = "") ∨
   (Csv.state r = Csv.IN_FIELD)) →
  all_chars is_plain rest = true →
  Z.of_nat (String.length (Csv.field r)) + Z.of_nat (String.length rest)
    ≤ Csv.field_limit →
  Csv.parse_line r (rest +:+ String "010"%char "") =
    Ok {| Csv.state := Csv.START_RECORD; Csv.field := "";
          Csv.fields := Csv.fields r ++ split_commas rest (Csv.field r) |}.
Proof.
  revert r. induction rest as [| c rest IH]; intros [st cur saved] Hstate Hplain Hlen;
    cbn [Csv.state Csv.field Csv.fields] in *.
  - change ("" +:+ String "010"%char "") with (String "010"%char "").
    cbn [Csv.parse_line split_commas].
    by destruct Hstate as [[-> ->] | ->].
  - change (String c rest +:+ String "010"%char "")
      with (String c (rest +:+ String "010"%char "")).
    cbn [all_chars] in Hplain. apply andb_true_iff in Hplain as [Hc Hplain].
    unfold is_plain in Hc. apply andb_true_iff in Hc as [Hquote Hnewline].
    apply negb_true_iff in Hquote, Hnewline.
    cbn [String.length] in Hlen. cbn [Csv.parse_line split_commas].
    assert (Hroom : (Csv.field_limit <=? Z.of_nat (String.length cur)) = false)
      by (apply Z.leb_gt; lia).
    destruct (Ascii.eqb c Csv.delimiter) eqn:Hcomma.
    + assert (Hstep : Csv.parse_process_char (Csv.mkReader st cur saved) (Some c) =
                Ok (Csv.mkReader Csv.START_FIELD "" (saved ++ [cur]))).
      { destruct Hstate as [[-> ->] | ->];
          unfold Csv.parse_process_char, Csv.start_field;
          cbn [Csv.state]; by rewrite Hnewline, ?Hquote, Hcomma. }
      rewrite Hstep. cbn [mbind result_bind].
      rewrite IH; cbn [Csv.state Csv.field Csv.fields String.length];
        [by rewrite <- app_assoc | by left | done | lia].
    + assert (Hstep : Csv.parse_process_char (Csv.mkReader st cur saved) (Some c) =
                Ok (Csv.mkReader Csv.IN_FIELD (cur +:+ String c "") saved)).
      { destruct Hstate as [[-> ->] | ->];
          unfold Csv.parse_process_char, Csv.start_field, Csv.parse_add_char;
          cbn [Csv.state Csv.field Csv.fields];
          by rewrite Hnewline, ?Hquote, Hcomma, Hroom. }
      rewrite Hstep. cbn [mbind result_bind].
      rewrite IH; cbn [Csv.state Csv.field Csv.fields];
        [done | by right | done | rewrite length_append_char; lia].
Qed.

(** X28: a line the reader yields as a row of its own.  A line of at
    most 131072 characters before its line break, none of them a quote or
    a line break, is read, from the start of a record, to the end of the
    record: as no field when it is empty, and else as the fields that
    stand between its commas. *)
Theorem own_row_plain (body : string) :
  all_chars is_plain body = true →
  Z.of_nat (String.length body) ≤ Csv.field_limit →
  Csv.own_row (body +:+ String "010"%char "") =
    Some (match body with
          | EmptyString => []
          | String _ _ => split_commas body ""
          end).
Proof.
  intros Hplain Hlen. unfold Csv.own_row.
  destruct body as [| c body]; [done |].
  assert (Hstart : Csv.parse_line Csv.parse_reset
                     (String c body +:+ String "010"%char "") =
                   Csv.parse_line (Csv.mkReader Csv.START_FIELD "" [])
                     (String c body +:+ String "010"%char "")).
  { change (String c body +:+ String "010"%char "")
      with (String c (body +:+ String "010"%char "")).
    cbn [Csv.parse_line]. f_equal.
    cbn [all_chars] in Hplain. apply andb_true_iff in Hplain as [Hc _].
    unfold is_plain in Hc. apply andb_true_iff in Hc as [_ Hnewline].
    apply negb_true_iff in Hnewline.
    unfold Csv.parse_process_char, Csv.parse_reset. cbn [Csv.state].
    by rewrite Hnewline. }
  rewrite Hstart, parse_line_plain; [done | by left | done | done].
Qed.

Lemma own_row_plain_witness :
  all_chars is_plain (String.concat "," short_row) = true ∧
  Csv.own_row (line_of short_row) = Some short_row.
Proof.
  assert (Hplain : all_chars is_plain (String.concat "," short_row) = true)
    by (vm_compute; reflexivity).
  assert (Hlen : Z.of_nat (String.length (String.concat "," short_row))
                 ≤ Csv.field_limit) by (vm_compute; congruence).
  split; [exact Hplain |].
  exact (own_row_plain (String.concat "," short_row) Hplain Hlen).
Defined.
